(** * claude-code-augment: detection, augmentation, forwarding, stream transcoding

    A shallow embedding of the TypeScript sources
    [detector.ts], [augmenter.ts], [forwarder.ts] and [middleware.ts]
    and the properties of the specification that are stated about them.

    JavaScript values are modelled as far as the sources inspect them at
    run time: values read from JSON documents (request bodies, policy,
    provider frames) are [JSON] trees, [undefined] and the members of the
    built-in prototypes that a property read on plain data can reach are
    the remaining constructors of [JSValue].  Built-ins of the runtime whose
    text is not part of the repository ([JSON.parse], [JSON.stringify],
    the text of numbers and of built-in functions, [toLowerCase],
    [trim]) are the fields of the class [Runtime]; every theorem holds
    for each implementation of the class, and [ReferenceRuntime] gives
    one that computes.  A call that may throw returns a [Result]. *)

From Stdlib Require Import String Ascii List ZArith NArith Bool Lia.
Import ListNotations.
Open Scope string_scope.
Open Scope list_scope.
Set Warnings "-register-all".

(* ================================================================== *)
(** ** Strings *)
(* ================================================================== *)

Module Str.

(** [s.split(sep)] for a one-character separator: always at least one
    fragment, the last one being the text after the last separator. *)
Fixpoint split (sep : ascii) (s : string) : list string :=
  match s with
  | EmptyString => [EmptyString]
  | String c rest =>
      if Ascii.eqb c sep then EmptyString :: split sep rest
      else match split sep rest with
           | [] => [String c EmptyString]
           | h :: t => String c h :: t
           end
  end.

(** [parts.join(sep)] on strings. *)
Fixpoint join (sep : string) (parts : list string) : string :=
  match parts with
  | [] => EmptyString
  | [p] => p
  | p :: rest => p ++ sep ++ join sep rest
  end.

(** [s.startsWith(p)]. *)
Definition startsWith (p s : string) : bool := String.prefix p s.

(** [s.slice(n)] for [0 <= n]. *)
Fixpoint slice (n : nat) (s : string) : string :=
  match n, s with
  | O, _ => s
  | S n', String _ rest => slice n' rest
  | S _, EmptyString => EmptyString
  end.

(** The line feed and the text made of it. *)
Definition LF : ascii := "010"%char.
Definition nl : string := String LF EmptyString.

(** [s.includes(sub)]. *)
Fixpoint includes (sub s : string) : bool :=
  String.prefix sub s ||
  match s with
  | String _ rest => includes sub rest
  | EmptyString => false
  end.

(** The chunks of a stream put end to end. *)
Definition concat_all (chunks : list string) : string :=
  fold_right String.append EmptyString chunks.

(** A string is falsy exactly when it is empty. *)
Definition nonempty (s : string) : bool := negb (String.eqb s EmptyString).

(** Truthiness of an optional string field ([undefined] or a string). *)
Definition configured (o : option string) : bool :=
  match o with
  | Some s => nonempty s
  | None => false
  end.

End Str.

(* ================================================================== *)
(** ** JavaScript values *)
(* ================================================================== *)

Module JS.

(** Values produced by [JSON.parse].  An object is its table of own
    properties in enumeration order; a read takes the first entry of a
    key.  Numbers are the integers (token counts, indices, status
    codes); a fractional number takes the branches of a non-zero one. *)
Inductive JSON : Type :=
| JNull
| JBool (b : bool)
| JNum (n : Z)
| JStr (s : string)
| JArr (items : list JSON)
| JObj (fields : list (string * JSON)).

(** The two built-in prototype objects behind plain data. *)
Inductive Proto : Type := ObjectProto | ArrayProto.

(** What a variable of the sources can hold. *)
Inductive JSValue : Type :=
| Undefined
| Data (j : JSON)
| PrototypeObject (p : Proto)
| NativeFunction (p : Proto) (name : string).

Definition Str_ (s : string) : JSValue := Data (JStr s).
Definition Num_ (n : Z) : JSValue := Data (JNum n).

(** ToBoolean. *)
Definition truthy (v : JSValue) : bool :=
  match v with
  | Undefined => false
  | Data JNull => false
  | Data (JBool b) => b
  | Data (JNum n) => negb (n =? 0)%Z
  | Data (JStr s) => Str.nonempty s
  | Data (JArr _) | Data (JObj _) => true
  | PrototypeObject _ | NativeFunction _ _ => true
  end.

(** [a || b]. *)
Definition or_else (a b : JSValue) : JSValue := if truthy a then a else b.

(** [v === undefined]. *)
Definition is_undefined (v : JSValue) : bool :=
  match v with Undefined => true | _ => false end.

(** [v === s] for a string [s]. *)
Definition strict_eq_string (v : JSValue) (s : string) : bool :=
  match v with
  | Data (JStr t) => String.eqb t s
  | _ => false
  end.

(** Own-property table lookup. *)
Fixpoint assoc (key : string) (fields : list (string * JSON)) : option JSON :=
  match fields with
  | [] => None
  | (k, v) :: rest => if String.eqb k key then Some v else assoc key rest
  end.

(** The function-valued properties of [Object.prototype]
    (ECMA-262 20.1.3 and B.2.2); [__proto__] is its accessor. *)
Definition Object_prototype_functions : list string :=
  [ "constructor"; "hasOwnProperty"; "isPrototypeOf"; "propertyIsEnumerable";
    "toLocaleString"; "toString"; "valueOf";
    "__defineGetter__"; "__defineSetter__"; "__lookupGetter__"; "__lookupSetter__" ].

Definition mem (key : string) (names : list string) : bool :=
  existsb (String.eqb key) names.

(** Canonical array index of a property key. *)
Definition digit_of (c : ascii) : option N :=
  let n := N_of_ascii c in
  if (48 <=? n)%N && (n <=? 57)%N then Some (n - 48)%N else None.

Fixpoint parse_digits (s : string) (acc : N) : option N :=
  match s with
  | EmptyString => Some acc
  | String c rest =>
      match digit_of c with
      | Some d => parse_digits rest (10 * acc + d)%N
      | None => None
      end
  end.

(** An array index is the canonical decimal text of an integer below
    [2^32 - 1]. *)
Definition array_index (key : string) : option N :=
  match key with
  | EmptyString => None
  | String "0"%char EmptyString => Some 0%N
  | String "0"%char _ => None
  | _ => match parse_digits key 0 with
         | Some i => if (i <? 4294967295)%N then Some i else None
         | None => None
         end
  end.

(** [items[i]]. *)
Definition item_at (items : list JSON) (i : N) : option JSON :=
  if (i <? N.of_nat (List.length items))%N then nth_error items (N.to_nat i) else None.

(** The values with [typeof v === 'object'] other than [null]. *)
Inductive ObjectRef : Type :=
| Plain (fields : list (string * JSON))
| Array (items : list JSON)
| Builtin (p : Proto).

Definition as_object (v : JSValue) : option ObjectRef :=
  match v with
  | Data (JObj fields) => Some (Plain fields)
  | Data (JArr items) => Some (Array items)
  | PrototypeObject p => Some (Builtin p)
  | Undefined | Data _ | NativeFunction _ _ => None
  end.

Section PropertyRead.

(** Names of the function-valued properties of [Array.prototype];
    the set grows with the language edition, so it is left open. *)
Variable Array_prototype_functions : list string.

(** Property read on [Object.prototype], for a receiver whose own
    prototype is [parent]. *)
Definition from_Object_prototype (parent : JSValue) (key : string) : JSValue :=
  if String.eqb key "__proto__" then parent
  else if mem key Object_prototype_functions then NativeFunction ObjectProto key
  else Undefined.

(** Property read on [Array.prototype] and up its chain. *)
Definition from_Array_prototype (parent : JSValue) (key : string) : JSValue :=
  if String.eqb key "length" then Num_ 0
  else if mem key Array_prototype_functions then NativeFunction ArrayProto key
  else from_Object_prototype parent key.

(** [o[key]]: own properties first, then the prototype chain. *)
Definition get (o : ObjectRef) (key : string) : JSValue :=
  match o with
  | Plain fields =>
      match assoc key fields with
      | Some v => Data v
      | None => from_Object_prototype (PrototypeObject ObjectProto) key
      end
  | Array items =>
      let inherited := from_Array_prototype (PrototypeObject ArrayProto) key in
      if String.eqb key "length" then Num_ (Z.of_nat (List.length items))
      else match array_index key with
           | Some i =>
               match item_at items i with
               | Some v => Data v
               | None => inherited
               end
           | None => inherited
           end
  | Builtin ObjectProto => from_Object_prototype (Data JNull) key
  | Builtin ArrayProto => from_Array_prototype (PrototypeObject ObjectProto) key
  end.

End PropertyRead.

(** [j.name] for a value that is not [null] and a name that no built-in
    prototype defines (every fixed name the sources read: [type],
    [text], [source], [choices], [usage], ...): the own property of an
    object, [undefined] on anything else. *)
Definition field (j : JSON) (name : string) : JSValue :=
  match j with
  | JObj fields =>
      match assoc name fields with
      | Some v => Data v
      | None => Undefined
      end
  | _ => Undefined
  end.

(** [v?.name] for such a name. *)
Definition opt_field (v : JSValue) (name : string) : JSValue :=
  match v with
  | Data JNull => Undefined
  | Data j => field j name
  | _ => Undefined
  end.

(** [v?.[0]]: first element of an array, property ["0"] of an object,
    first character of a string. *)
Definition opt_first (v : JSValue) : JSValue :=
  match v with
  | Data (JArr (x :: _)) => Data x
  | Data (JObj fields) => field (JObj fields) "0"
  | Data (JStr (String c _)) => Str_ (String c EmptyString)
  | _ => Undefined
  end.

(** Exceptions: the properties of the thrown object that the sources
    read. *)
Record JSError : Type := mkError {
  err_name : string;
  err_code : option string;
  err_message : string
}.

(** Completion of a call that may throw. *)
Inductive Result (A : Type) : Type :=
| Ok (a : A)
| Throw (e : JSError).
Arguments Ok {A} a.
Arguments Throw {A} e.

Definition bind {A B} (r : Result A) (k : A -> Result B) : Result B :=
  match r with
  | Ok a => k a
  | Throw e => Throw e
  end.

(** The built-ins of the runtime that the sources call. *)
Class Runtime : Type := {
  toLowerCase : string -> string;
  trim : string -> string;
  (** [JSON.parse]; [None] is a [SyntaxError]. *)
  JSON_parse : string -> option JSON;
  (** The text of [JSON.stringify(v, null, 2)] inside a template
      literal. *)
  JSON_stringify_pretty : JSValue -> string;
  (** The text of a number, as [String(n)] and a template literal
      give it. *)
  Number_toString : Z -> string;
  (** The text of a built-in function
      ([Function.prototype.toString]). *)
  Function_toString : Proto -> string -> string;
  Array_prototype_functions : list string;
  (** Message of the [TypeError] of reading property [name] of [null]
      or [undefined]. *)
  null_read_message : string -> string;
  (** Message of the [TypeError] of converting to a primitive an
      object whose [toString] and [valueOf] give none. *)
  to_primitive_message : string
}.

(** The [TypeError] thrown by [v.name] when [v] is nullish. *)
Definition null_read `{Runtime} (name : string) : JSError :=
  mkError "TypeError" None (null_read_message name).

(** [v.name] where [v] may be [null]. *)
Definition read `{Runtime} (j : JSON) (name : string) : Result JSValue :=
  match j with
  | JNull => Throw (null_read name)
  | _ => Ok (field j name)
  end.

(** The values on which ToString returns.  An object read from JSON
    that owns a property [toString] cannot be converted: the own
    property holds data, is not callable and hides
    [Object.prototype.toString], and [valueOf] returns the object
    itself, so that OrdinaryToPrimitive throws.  An array is converted
    by [join], which converts its elements. *)
Fixpoint stringable (j : JSON) : bool :=
  match j with
  | JObj fields =>
      match assoc "toString" fields with
      | Some _ => false
      | None => true
      end
  | JArr items => forallb stringable items
  | _ => true
  end.

Definition can_convert (v : JSValue) : bool :=
  match v with
  | Data j => stringable j
  | _ => true
  end.

Section Conversion.
Context {rt : Runtime}.

(** The text that ToString gives when it returns; in the text of an
    array, [null] elements are empty. *)
Fixpoint json_text (j : JSON) : string :=
  match j with
  | JNull => "null"
  | JBool true => "true"
  | JBool false => "false"
  | JNum n => Number_toString n
  | JStr s => s
  | JArr items =>
      Str.join "," (map (fun x => match x with
                                  | JNull => EmptyString
                                  | _ => json_text x
                                  end) items)
  | JObj _ => "[object Object]"
  end.

Definition value_text (v : JSValue) : string :=
  match v with
  | Undefined => "undefined"
  | Data j => json_text j
  | PrototypeObject ObjectProto => "[object Object]"
  | PrototypeObject ArrayProto => EmptyString
  | NativeFunction p name => Function_toString p name
  end.

Definition to_primitive_error : JSError :=
  mkError "TypeError" None to_primitive_message.

(** ToString, as applied by [String(v)], template literals, [join]
    and computed member access. *)
Definition toString (v : JSValue) : Result string :=
  if can_convert v then Ok (value_text v) else Throw to_primitive_error.

(** The texts of the elements in [parts.join(sep)]: [undefined] and
    [null] are empty. *)
Fixpoint element_texts (parts : list JSValue) : Result (list string) :=
  match parts with
  | [] => Ok []
  | part :: rest =>
      bind (match part with
            | Undefined | Data JNull => Ok EmptyString
            | _ => toString part
            end)
           (fun text => bind (element_texts rest) (fun texts => Ok (text :: texts)))
  end.

(** [parts.join(sep)]. *)
Definition Array_join (sep : string) (parts : list JSValue) : Result string :=
  bind (element_texts parts) (fun texts => Ok (Str.join sep texts)).

End Conversion.

(** [typeof v]. *)
Definition typeof (v : JSValue) : string :=
  match v with
  | Undefined => "undefined"
  | Data JNull => "object"
  | Data (JBool _) => "boolean"
  | Data (JNum _) => "number"
  | Data (JStr _) => "string"
  | Data (JArr _) | Data (JObj _) => "object"
  | PrototypeObject _ => "object"
  | NativeFunction _ _ => "function"
  end.

(** [Array.isArray(v)]; [Array.prototype] is itself an array. *)
Definition isArray (v : JSValue) : bool :=
  match v with
  | Data (JArr _) => true
  | PrototypeObject ArrayProto => true
  | _ => false
  end.

(** The elements that [for (const x of v)] visits when [isArray v]. *)
Definition elements (v : JSValue) : list JSON :=
  match v with
  | Data (JArr items) => items
  | _ => []
  end.

End JS.

Notation "x <- c ;; k" := (JS.bind c (fun x => k))
  (at level 61, c at next level, right associativity).

(* ================================================================== *)
(** ** types.ts *)
(* ================================================================== *)

Module Types.
Import JS.

Record Detection : Type := mkDetection {
  header_field : option string;
  header_value : option string;
  metadata_field : option string;
  metadata_value : option string
}.

(** [AugmentConfig].  The two fields that [validateConfig] tests at run
    time ([Array.isArray], [typeof]) hold any value. *)
Record AugmentConfig : Type := mkConfig {
  enabled : bool;
  modified_system_prompt : option string;
  additional_instructions : JSValue;
  extra_context : JSValue;
  openrouter_endpoint : string;
  openrouter_auth : string;
  detection : Detection
}.

(** [MessageParam]; [convertContent] tests the content at run time. *)
Record MessageParam : Type := mkMessage {
  role : string;
  content : JSValue
}.

(** The request body.  [other] holds its remaining own properties. *)
Record Body : Type := mkBody {
  model : JSValue;
  messages : list MessageParam;
  system : JSValue;
  tools : option (list JSON);
  stream : JSValue;
  max_tokens : JSValue;
  metadata : JSValue;
  other : list (string * JSON)
}.

Record AugmentRequest : Type := mkRequest {
  body : Body;
  headers : option (list (string * string))
}.

Record AugmentResult : Type := mkResult {
  success : bool;
  augmented : bool;
  error : option string;
  errorCode : option Z
}.

End Types.

(* ================================================================== *)
(** ** detector.ts *)
(* ================================================================== *)

Module Detector.
Import JS Types.

Section WithRuntime.
Context {rt : Runtime}.

(** The loop of [checkHeader] over [Object.entries(headers)]. *)
Fixpoint checkHeader_loop (headerName : string) (expected : option string)
         (entries : list (string * string)) : bool :=
  match entries with
  | [] => false
  | (key, value) :: rest =>
      if String.eqb (toLowerCase key) headerName then
        match expected with
        | Some v => if Str.nonempty v then String.eqb value v else true
        | None => true
        end
      else checkHeader_loop headerName expected rest
  end.

Definition checkHeader (req : AugmentRequest) (d : Detection) : bool :=
  match header_field d with
  | None => false
  | Some f =>
      if negb (Str.nonempty f) then false
      else
        let headerName := toLowerCase f in
        let entries := match headers req with Some h => h | None => [] end in
        checkHeader_loop headerName (header_value d) entries
  end.

(** The loop of [getNestedValue]. *)
Fixpoint getNestedValue_loop (current : JSValue) (keys : list string) : JSValue :=
  match keys with
  | [] => current
  | key :: rest =>
      match as_object current with
      | None => Undefined
      | Some o => getNestedValue_loop (get Array_prototype_functions o key) rest
      end
  end.

Definition getNestedValue (obj : JSValue) (path : string) : JSValue :=
  getNestedValue_loop obj (Str.split "."%char path).

(** [checkMetadata]; [String(fieldValue)] may throw. *)
Definition checkMetadata (req : AugmentRequest) (d : Detection) : Result bool :=
  match metadata_field d with
  | None => Ok false
  | Some f =>
      if negb (Str.nonempty f) then Ok false
      else
        let md := metadata (body req) in
        match as_object md with
        | None => Ok false
        | Some _ =>
            let fieldValue := getNestedValue md f in
            if is_undefined fieldValue then Ok false
            else match metadata_value d with
                 | Some v =>
                     if Str.nonempty v then
                       text <- toString fieldValue ;;
                       Ok (String.eqb text v)
                     else Ok true
                 | None => Ok true
                 end
        end
  end.

Definition isClaudeCodeRequest (cfg : AugmentConfig) (req : AugmentRequest)
  : Result bool :=
  if negb (enabled cfg) then Ok false
  else if checkHeader req (detection cfg) then Ok true
  else
    matched <- checkMetadata req (detection cfg) ;;
    if matched then Ok true else Ok false.

End WithRuntime.

End Detector.

(* ================================================================== *)
(** ** augmenter.ts *)
(* ================================================================== *)

Module Augmenter.
Import JS Types.

(** A converted content block of [convertContent]: the object literals
    it builds, or the inbound block pushed as it is. *)
Inductive OutBlock : Type :=
| OText (text : JSValue)
| OImageUrl (url : JSValue)
| OToolUse (id name input : JSValue)
| OToolResult (tool_use_id content : JSValue)
| OPass (block : JSON).

(** [b.type] and [b.text] of a converted block. *)
Definition out_type (b : OutBlock) : JSValue :=
  match b with
  | OText _ => Str_ "text"
  | OImageUrl _ => Str_ "image_url"
  | OToolUse _ _ _ => Str_ "tool_use"
  | OToolResult _ _ => Str_ "tool_result"
  | OPass block => field block "type"
  end.

Definition out_text (b : OutBlock) : JSValue :=
  match b with
  | OText t => t
  | OPass block => field block "text"
  | _ => Undefined
  end.

(** The content of an outbound message: one value, or the array of
    converted blocks. *)
Inductive OutContent : Type :=
| Bare (v : JSValue)
| Blocks (blocks : list OutBlock).

Record OpenRouterMessage : Type := mkOut {
  out_role : string;
  out_content : OutContent
}.

Inductive OutTool : Type :=
| ToolPass (tool : JSON)
| ToolFunction (name description parameters : JSValue).

(** [OpenRouterRequest]; the object literal [{}] has every field
    absent. *)
Record OpenRouterRequest : Type := mkOutRequest {
  or_model : JSValue;
  or_messages : option (list OpenRouterMessage);
  or_max_tokens : JSValue;
  or_stream : JSValue;
  or_tools : option (list OutTool);
  or_extra : list (string * JSON)
}.

Definition empty_request : OpenRouterRequest :=
  mkOutRequest Undefined None Undefined Undefined None [].

Definition failure (message : string) : AugmentResult :=
  mkResult false false (Some message) (Some 400%Z).

Definition system_message (text : JSValue) : OpenRouterMessage :=
  mkOut "system" (Bare text).

Definition additionalFields : list string :=
  [ "temperature"; "top_p"; "top_k"; "frequency_penalty"; "presence_penalty"; "stop" ].

Section WithRuntime.
Context {rt : Runtime}.

Definition validateConfig (cfg : AugmentConfig) : AugmentResult :=
  if negb (Str.nonempty (openrouter_endpoint cfg)) then
    failure "Missing required parameter: openrouter_endpoint"
  else if negb (Str.nonempty (openrouter_auth cfg)) then
    failure "Missing required parameter: openrouter_auth"
  else if truthy (additional_instructions cfg)
          && negb (isArray (additional_instructions cfg)) then
    failure "Invalid parameter: additional_instructions must be an array"
  else if truthy (extra_context cfg)
          && negb (String.eqb (typeof (extra_context cfg)) "object") then
    failure "Invalid parameter: extra_context must be an object"
  else mkResult true false None None.

(** The fields on which a test of [validateConfig] fails, in the order
    of the tests. *)
Definition violations (cfg : AugmentConfig) : list string :=
  (if Str.nonempty (openrouter_endpoint cfg) then [] else ["openrouter_endpoint"])
  ++ (if Str.nonempty (openrouter_auth cfg) then [] else ["openrouter_auth"])
  ++ (if truthy (additional_instructions cfg) && negb (isArray (additional_instructions cfg))
      then ["additional_instructions"] else [])
  ++ (if truthy (extra_context cfg)
         && negb (String.eqb (typeof (extra_context cfg)) "object")
      then ["extra_context"] else []).

(** The loop of [buildSystemPrompt] over the inbound segments. *)
Fixpoint buildSystemPrompt_loop (replaced : bool) (items : list JSON)
         (parts : list JSValue) : Result (list JSValue) :=
  match items with
  | [] => Ok parts
  | item :: rest =>
      ty <- read item "type" ;;
      let parts' :=
        if strict_eq_string ty "text" && truthy (field item "text") then
          if negb replaced then parts ++ [field item "text"] else parts
        else parts in
      buildSystemPrompt_loop replaced rest parts'
  end.

Definition buildSystemPrompt (cfg : AugmentConfig) (originalSystem : JSValue)
  : Result string :=
  let replaced := Str.configured (modified_system_prompt cfg) in
  let parts :=
    match modified_system_prompt cfg with
    | Some p => if Str.nonempty p then [Str_ p] else []
    | None => []
    end in
  parts' <- (if truthy originalSystem && isArray originalSystem
             then buildSystemPrompt_loop replaced (elements originalSystem) parts
             else Ok parts) ;;
  Array_join (Str.nl ++ Str.nl) parts'.

(** One iteration of the loop of [convertContent]: the blocks pushed
    for one inbound block.  The template literal of the inline image
    converts the media type, then the data. *)
Definition convertBlock (block : JSON) : Result (list OutBlock) :=
  ty <- read block "type" ;;
  if strict_eq_string ty "text" then
    Ok [OText (field block "text")]
  else if strict_eq_string ty "image" then
    let source := field block "source" in
    if strict_eq_string (opt_field source "type") "base64" then
      media_type <- toString (opt_field source "media_type") ;;
      data <- toString (opt_field source "data") ;;
      Ok [OImageUrl (Str_ ("data:" ++ media_type ++ ";base64," ++ data))]
    else if strict_eq_string (opt_field source "type") "url" then
      Ok [OImageUrl (opt_field source "url")]
    else Ok []
  else if strict_eq_string ty "tool_use" then
    Ok [OToolUse (field block "id") (field block "name") (field block "input")]
  else if strict_eq_string ty "tool_result" then
    Ok [OToolResult (field block "tool_use_id") (field block "content")]
  else Ok [OPass block].

Fixpoint convertBlocks (content : list JSON) (converted : list OutBlock)
  : Result (list OutBlock) :=
  match content with
  | [] => Ok converted
  | block :: rest =>
      pushed <- convertBlock block ;;
      convertBlocks rest (converted ++ pushed)
  end.

(** The closing conditional of [convertContent]. *)
Definition canonical (converted : list OutBlock) : OutContent :=
  match converted with
  | [b] => if strict_eq_string (out_type b) "text" then Bare (out_text b)
           else Blocks converted
  | _ => Blocks converted
  end.

Definition convertContent (content : JSValue) : Result OutContent :=
  if String.eqb (typeof content) "string" then Ok (Bare content)
  else if negb (isArray content) then
    text <- toString content ;;
    Ok (Bare (Str_ text))
  else
    converted <- convertBlocks (elements content) [] ;;
    Ok (canonical converted).

Fixpoint convertMessages_loop (msgs : list MessageParam)
         (converted : list OpenRouterMessage) : Result (list OpenRouterMessage) :=
  match msgs with
  | [] => Ok converted
  | msg :: rest =>
      if String.eqb (role msg) "system" then convertMessages_loop rest converted
      else
        c <- convertContent (content msg) ;;
        convertMessages_loop rest (converted ++ [mkOut (role msg) c])
  end.

Definition convertMessages (msgs : list MessageParam) : Result (list OpenRouterMessage) :=
  convertMessages_loop msgs [].

Definition convertTool (tool : JSON) : Result OutTool :=
  ty <- read tool "type" ;;
  if strict_eq_string ty "function" then Ok (ToolPass tool)
  else Ok (ToolFunction (field tool "name") (field tool "description")
                        (field tool "input_schema")).

Fixpoint convertTools (tools : list JSON) : Result (list OutTool) :=
  match tools with
  | [] => Ok []
  | tool :: rest =>
      t <- convertTool tool ;;
      ts <- convertTools rest ;;
      Ok (t :: ts)
  end.

(** The copy loop over [additionalFields]. *)
Definition copyAdditional (originalBody : Body) : list (string * JSON) :=
  flat_map (fun f => match assoc f (other originalBody) with
                     | Some v => [(f, v)]
                     | None => []
                     end) additionalFields.

(** [augmentRequest].  [m1], [m2], [m3] are [augmentedMessages] after
    each of the three pushes of system messages; past validation,
    [additional_instructions] is falsy or an array. *)
Definition augmentRequest (cfg : AugmentConfig) (req : AugmentRequest)
  : Result (OpenRouterRequest * AugmentResult) :=
  let validation := validateConfig cfg in
  if negb (success validation) then Ok (empty_request, validation)
  else
    let originalBody := body req in
    systemPrompt <- buildSystemPrompt cfg (system originalBody) ;;
    let m1 := if Str.nonempty systemPrompt
              then [system_message (Str_ systemPrompt)] else [] in
    let m2 := if truthy (additional_instructions cfg)
              then m1 ++ map (fun i => system_message (Data i))
                             (elements (additional_instructions cfg))
              else m1 in
    let m3 := if truthy (extra_context cfg)
              then m2 ++ [system_message
                            (Str_ ("<context>" ++ Str.nl
                                     ++ JSON_stringify_pretty (extra_context cfg)
                                     ++ Str.nl ++ "</context>"))]
              else m2 in
    convertedMessages <- convertMessages (messages originalBody) ;;
    tools' <- match tools originalBody with
              | Some (t :: ts) => ts' <- convertTools (t :: ts) ;; Ok (Some ts')
              | _ => Ok None
              end ;;
    Ok (mkOutRequest (model originalBody)
                     (Some (m3 ++ convertedMessages))
                     (max_tokens originalBody)
                     (stream originalBody)
                     tools'
                     (copyAdditional originalBody),
        mkResult true true None None).

End WithRuntime.

End Augmenter.

(* ================================================================== *)
(** ** forwarder.ts *)
(* ================================================================== *)

Module Forwarder.
Import JS Types Augmenter.

(** What the forwarder reads of a [Response]: [json] is the completion
    of [response.json()], [resp_body] the decoded text of the chunks
    that successive [reader.read()] calls deliver ([None]: the body is
    [null]). *)
Record Response : Type := mkResponse {
  ok : bool;
  status : Z;
  statusText : string;
  json : Result JSON;
  resp_body : option (list string)
}.

Record ForwardResult : Type := mkForward {
  fw_success : bool;
  fw_response : option Response;
  fw_error : JSValue;
  fw_errorCode : option Z
}.

(** The arguments of the one [fetch] call. *)
Record FetchCall : Type := mkFetch {
  fetch_endpoint : string;
  fetch_headers : list (string * string);
  fetch_body : OpenRouterRequest
}.

(** Settlement of the promise returned by [fetch]. *)
Inductive FetchOutcome : Type :=
| Resolved (response : Response)
| Rejected (e : JSError).

(** The events of the caller-facing protocol, one constructor per
    [sendEvent] call site, with the payload fields that vary; the
    content block index is 0 at every site. *)
Inductive Event : Type :=
| message_start (id : string) (model : JSValue)
| content_block_start
| content_block_delta (text : JSValue)
| content_block_stop
| message_delta (stop_reason : JSValue) (output_tokens : JSValue)
| message_stop.

(** State of one streaming conversion. *)
Record Transcoder : Type := mkTranscoder {
  buffer : string;
  inputTokens : JSValue;
  outputTokens : JSValue;
  sentStart : bool
}.

Definition initial : Transcoder := mkTranscoder EmptyString (Num_ 0) (Num_ 0) false.

(** The message built by [convertOpenRouterResponseToAnthropic]. *)
Record AnthropicMessage : Type := mkAnthropic {
  am_id : JSValue;
  am_text : JSValue;
  am_model : JSValue;
  am_stop_reason : JSValue;
  am_input_tokens : JSValue;
  am_output_tokens : JSValue
}.

(** The object literal of [mapFinishReason]. *)
Definition mapping : list (string * JSON) :=
  [ ("stop", JStr "end_turn");
    ("length", JStr "max_tokens");
    ("tool_calls", JStr "tool_use");
    ("content_filter", JStr "stop_sequence");
    ("function_call", JStr "tool_use") ].

Definition network_codes : list string := [ "ECONNREFUSED"; "ENOTFOUND"; "ETIMEDOUT" ].

Section WithRuntime.
Context {rt : Runtime}.

(** [mapping[reason] || 'end_turn']: the conversion of [reason] to a
    property key, then a member read on the object literal, own entries
    first, then its prototype chain. *)
Definition mapFinishReason (reason : JSValue) : Result JSValue :=
  key <- toString reason ;;
  Ok (or_else (get Array_prototype_functions (Plain mapping) key) (Str_ "end_turn")).

(** The test of the [catch] clause of [forward]. *)
Definition is_network_error (e : JSError) : bool :=
  match err_code e with
  | Some c => mem c network_codes
  | None => false
  end
  || String.eqb (err_name e) "TypeError".

(** The [catch] clause of [forward]. *)
Definition forward_catch (e : JSError) : ForwardResult :=
  if is_network_error e then
    mkForward false None
      (Str_ ("Network error: Unable to reach OpenRouter endpoint - " ++ err_message e))
      (Some 502%Z)
  else
    mkForward false None (Str_ ("Forward error: " ++ err_message e)) (Some 500%Z).

Definition safeReadError (response : Response) : JSON :=
  match json response with
  | Ok j => j
  | Throw _ =>
      JObj [("message", JStr ("HTTP " ++ Number_toString (status response)
                                 ++ ": " ++ statusText response))]
  end.

Definition fetch_call (cfg : AugmentConfig) (augmentedBody : OpenRouterRequest)
  : FetchCall :=
  mkFetch (openrouter_endpoint cfg)
          [ ("Content-Type", "application/json");
            ("Authorization", ("Bearer " ++ openrouter_auth cfg)%string);
            ("HTTP-Referer", "https://claude-code-augment.local");
            ("X-Title", "Claude Code Augment") ]
          augmentedBody.

(** [forward], given the settlement of its [fetch] call. *)
Definition forward (outcome : FetchOutcome) : ForwardResult :=
  match outcome with
  | Rejected e => forward_catch e
  | Resolved response =>
      if negb (ok response) then
        match read (safeReadError response) "message" with
        | Throw e => forward_catch e
        | Ok m =>
            mkForward false None
              (or_else m (Str_ ("OpenRouter error: " ++ Number_toString (status response))))
              (Some (status response))
        end
      else mkForward true (Some response) Undefined None
  end.

(** The body of the inner [try] of the streaming loop for a parsed
    frame: the events sent and the counters afterwards.  A [null]
    frame throws at its first property read, before any effect; when
    [mapFinishReason] throws, [content_block_stop] has been sent and the
    [catch] clause skips the two events that follow. *)
Definition on_frame (messageId : string) (chunk : JSON) (st : Transcoder)
  : list Event * Transcoder :=
  match chunk with
  | JNull => ([], st)
  | _ =>
      let start :=
        if negb (sentStart st)
        then [ message_start messageId (or_else (field chunk "model") (Str_ "unknown"));
               content_block_start ]
        else [] in
      let choice := opt_first (field chunk "choices") in
      let delta := opt_field choice "delta" in
      let text :=
        if truthy (opt_field delta "content")
        then [ content_block_delta (opt_field delta "content") ]
        else [] in
      let usage := field chunk "usage" in
      let inTok := if truthy usage
                   then or_else (opt_field usage "prompt_tokens") (inputTokens st)
                   else inputTokens st in
      let outTok := if truthy usage
                    then or_else (opt_field usage "completion_tokens") (outputTokens st)
                    else outputTokens st in
      let finish :=
        if truthy (opt_field choice "finish_reason")
        then content_block_stop
               :: match mapFinishReason (opt_field choice "finish_reason") with
                  | Ok stop_reason => [ message_delta stop_reason outTok; message_stop ]
                  | Throw _ => []
                  end
        else [] in
      (start ++ text ++ finish, mkTranscoder (buffer st) inTok outTok true)
  end.

(** One iteration of the loop over the complete lines. *)
Definition on_line (messageId : string) (line : string) (st : Transcoder)
  : list Event * Transcoder :=
  if negb (Str.startsWith "data: " line) then ([], st)
  else
    let jsonStr := trim (Str.slice 6 line) in
    if String.eqb jsonStr "[DONE]" then ([], st)
    else match JSON_parse jsonStr with
         | None => ([], st)
         | Some chunk => on_frame messageId chunk st
         end.

Fixpoint on_lines (messageId : string) (lines : list string) (st : Transcoder)
  : list Event * Transcoder :=
  match lines with
  | [] => ([], st)
  | line :: rest =>
      let '(ev, st1) := on_line messageId line st in
      let '(evs, st2) := on_lines messageId rest st1 in
      (ev ++ evs, st2)
  end.

(** One iteration of the read loop, for the decoded text of a chunk. *)
Definition on_chunk (messageId : string) (text : string) (st : Transcoder)
  : list Event * Transcoder :=
  let lines := Str.split Str.LF (buffer st ++ text) in
  let st' := mkTranscoder (last lines EmptyString)
                          (inputTokens st) (outputTokens st) (sentStart st) in
  on_lines messageId (removelast lines) st'.

Fixpoint on_chunks (messageId : string) (chunks : list string) (st : Transcoder)
  : list Event * Transcoder :=
  match chunks with
  | [] => ([], st)
  | text :: rest =>
      let '(ev, st1) := on_chunk messageId text st in
      let '(evs, st2) := on_chunks messageId rest st1 in
      (ev ++ evs, st2)
  end.

(** The identifier [msg_${Date.now()}]. *)
Definition message_id (now : Z) : string := "msg_" ++ Number_toString now.

(** [transformOpenRouterToAnthropic]: the events enqueued on the
    returned stream, for a source that delivers [chunks] and closes;
    [now] is the reading of [Date.now()]. *)
Definition transformOpenRouterToAnthropic (now : Z) (chunks : list string)
  : list Event :=
  fst (on_chunks (message_id now) chunks initial).

Definition handleStreamingResponse (now : Z) (response : Response)
  : Result (list Event) :=
  match resp_body response with
  | None => Throw (mkError "Error" None "Response body is null")
  | Some chunks => Ok (transformOpenRouterToAnthropic now chunks)
  end.

Definition convertOpenRouterResponseToAnthropic (now : Z) (data : JSON)
  : Result AnthropicMessage :=
  choices <- read data "choices" ;;
  let choice := opt_first choices in
  let message := opt_field choice "message" in
  stop_reason <- mapFinishReason (opt_field choice "finish_reason") ;;
  Ok (mkAnthropic
        (or_else (field data "id") (Str_ (message_id now)))
        (or_else (opt_field message "content") (Str_ EmptyString))
        (or_else (field data "model") (Str_ "unknown"))
        stop_reason
        (or_else (opt_field (field data "usage") "prompt_tokens") (Num_ 0))
        (or_else (opt_field (field data "usage") "completion_tokens") (Num_ 0))).

Definition handleNonStreamingResponse (now : Z) (response : Response)
  : Result AnthropicMessage :=
  data <- json response ;;
  convertOpenRouterResponseToAnthropic now data.

End WithRuntime.

End Forwarder.

(* ================================================================== *)
(** ** middleware.ts *)
(* ================================================================== *)

Module Middleware.
Import JS Types Augmenter Forwarder.

(** What is passed to [reply.send]. *)
Inductive Payload : Type :=
| ErrorEnvelope (error_type : string) (message : JSValue)
| EventStream (events : list Event)
| MessageBody (message : AnthropicMessage).

(** The calls that [handle] makes on its collaborators, in order. *)
Inductive Effect : Type :=
| Fetch (call : FetchCall)
| ReplyStatus (code : Z)
| ReplyHeader (name value : string)
| ReplySend (payload : Payload).

(** A run of [handle]: the calls made, and how the promise settles. *)
Record Run : Type := mkRun {
  effects : list Effect;
  outcome : Result bool
}.

Definition is_fetch (e : Effect) : bool :=
  match e with Fetch _ => true | _ => false end.

(** [code || fallback] on an optional status code. *)
Definition code_or (code : option Z) (fallback : Z) : Z :=
  match code with
  | Some c => if (c =? 0)%Z then fallback else c
  | None => fallback
  end.

(** [v !== false]. *)
Definition not_false (v : JSValue) : bool :=
  match v with
  | Data (JBool false) => false
  | _ => true
  end.

Definition opt_string (o : option string) : JSValue :=
  match o with
  | Some s => Str_ s
  | None => Undefined
  end.

Section WithRuntime.
Context {rt : Runtime}.

(** [handle]; [transport] settles the [fetch] call and [now] is the
    reading of the clock.  Logging is left out.  An exception of the
    detector or of the augmenter rejects the promise. *)
Definition handle (cfg : AugmentConfig) (transport : FetchCall -> FetchOutcome)
           (now : Z) (req : AugmentRequest) : Run :=
  if negb (enabled cfg) then mkRun [] (Ok false)
  else
    match Detector.isClaudeCodeRequest cfg req with
    | Throw e => mkRun [] (Throw e)
    | Ok false => mkRun [] (Ok false)
    | Ok true =>
    match augmentRequest cfg req with
    | Throw e => mkRun [] (Throw e)
    | Ok (augmentedBody, result) =>
        if negb (success result) then
          mkRun [ ReplyStatus (code_or (errorCode result) 400);
                  ReplySend (ErrorEnvelope "invalid_request_error"
                                           (opt_string (error result))) ]
                (Ok true)
        else
          let isStreaming := not_false (stream (body req)) in
          let call := fetch_call cfg augmentedBody in
          let forwardResult := forward (transport call) in
          if negb (fw_success forwardResult) then
            mkRun [ Fetch call;
                    ReplyStatus (code_or (fw_errorCode forwardResult) 500);
                    ReplySend (ErrorEnvelope
                                 (match fw_errorCode forwardResult with
                                  | Some 502%Z => "api_error"
                                  | _ => "invalid_request_error"
                                  end)
                                 (fw_error forwardResult)) ]
                  (Ok true)
          else
            match fw_response forwardResult with
            | None => mkRun [Fetch call] (Ok true)
            | Some response =>
                if isStreaming then
                  let hs := [ ReplyHeader "Content-Type" "text/event-stream";
                              ReplyHeader "Cache-Control" "no-cache";
                              ReplyHeader "Connection" "keep-alive" ] in
                  match handleStreamingResponse now response with
                  | Throw e => mkRun (Fetch call :: hs) (Throw e)
                  | Ok events =>
                      mkRun (Fetch call :: hs ++ [ReplySend (EventStream events)])
                            (Ok true)
                  end
                else
                  match handleNonStreamingResponse now response with
                  | Throw e => mkRun [Fetch call] (Throw e)
                  | Ok data => mkRun [Fetch call; ReplySend (MessageBody data)] (Ok true)
                  end
            end
    end
    end.

(** [augmentPreHandler], for a request on [url]: the run of the hook,
    whose outcome tells whether it returns [reply] (the request is
    handled) or [undefined]. *)
Definition augmentPreHandler (cfg : AugmentConfig) (transport : FetchCall -> FetchOutcome)
           (now : Z) (url : string) (req : AugmentRequest) : Run :=
  if negb (Str.startsWith "/v1/messages" url) then mkRun [] (Ok false)
  else if Str.includes "/count_tokens" url then mkRun [] (Ok false)
  else handle cfg transport now req.

End WithRuntime.

End Middleware.

(* ================================================================== *)
(** ** index.ts *)
(* ================================================================== *)

Module Index.
Import JS Types.

(** The own properties of [override.detection]: [None] is an absent
    property, [Some v] a present one. *)
Record DetectionOverride : Type := mkDetectionOverride {
  o_header_field : option (option string);
  o_header_value : option (option string);
  o_metadata_field : option (option string);
  o_metadata_value : option (option string)
}.

(** [Partial<AugmentConfig>]: each property is absent or holds a value
    of its declared type. *)
Record PartialConfig : Type := mkPartial {
  p_enabled : option bool;
  p_modified_system_prompt : option (option string);
  p_additional_instructions : option JSValue;
  p_extra_context : option JSValue;
  p_openrouter_endpoint : option string;
  p_openrouter_auth : option string;
  p_detection : option DetectionOverride
}.

Record Validation : Type := mkValidation {
  is_valid : bool;
  errors : list string
}.

Definition DEFAULT_AUGMENT_CONFIG : AugmentConfig :=
  mkConfig false None (Data (JArr [])) Undefined
           "https://openrouter.ai/api/v1/chat/completions" EmptyString
           (mkDetection (Some "x-agent") (Some "claude-code")
                        (Some "agent") (Some "claude-code")).

(** Truthiness of a property that may be absent. *)
Definition present_truthy (o : option JSValue) : bool :=
  match o with
  | Some v => truthy v
  | None => false
  end.

Definition present_array (o : option JSValue) : bool :=
  match o with
  | Some v => isArray v
  | None => false
  end.

Definition present_typeof (o : option JSValue) : string :=
  match o with
  | Some v => typeof v
  | None => "undefined"
  end.

Definition validateAugmentConfig (config : PartialConfig) : Validation :=
  let errors :=
    match p_enabled config with
    | Some true =>
        (if Str.configured (p_openrouter_endpoint config) then []
         else ["openrouter_endpoint is required when augmentation is enabled"])
        ++ (if Str.configured (p_openrouter_auth config) then []
            else ["openrouter_auth is required when augmentation is enabled"])
        ++ (if present_truthy (p_additional_instructions config)
               && negb (present_array (p_additional_instructions config))
            then ["additional_instructions must be an array of strings"] else [])
        ++ (if present_truthy (p_extra_context config)
               && negb (String.eqb (present_typeof (p_extra_context config)) "object")
            then ["extra_context must be a JSON object"] else [])
    | _ => []
    end in
  mkValidation (Nat.eqb (List.length errors) 0) errors.

(** One property of an object spread [{...base, ...override}]. *)
Definition spread {A : Type} (base : A) (override : option A) : A :=
  match override with
  | Some v => v
  | None => base
  end.

Definition mergeAugmentConfig (base : AugmentConfig) (override : PartialConfig)
  : AugmentConfig :=
  mkConfig (spread (enabled base) (p_enabled override))
           (spread (modified_system_prompt base) (p_modified_system_prompt override))
           (spread (additional_instructions base) (p_additional_instructions override))
           (spread (extra_context base) (p_extra_context override))
           (spread (openrouter_endpoint base) (p_openrouter_endpoint override))
           (spread (openrouter_auth base) (p_openrouter_auth override))
           (match p_detection override with
            | Some d =>
                mkDetection
                  (spread (header_field (detection base)) (o_header_field d))
                  (spread (header_value (detection base)) (o_header_value d))
                  (spread (metadata_field (detection base)) (o_metadata_field d))
                  (spread (metadata_value (detection base)) (o_metadata_value d))
            | None => detection base
            end).

(** The override that owns no property, and a configuration seen as an
    override that owns every property. *)
Definition no_override : PartialConfig := mkPartial None None None None None None None.

Definition full (cfg : AugmentConfig) : PartialConfig :=
  mkPartial (Some (enabled cfg))
            (Some (modified_system_prompt cfg))
            (Some (additional_instructions cfg))
            (Some (extra_context cfg))
            (Some (openrouter_endpoint cfg))
            (Some (openrouter_auth cfg))
            (Some (mkDetectionOverride
                     (Some (header_field (detection cfg)))
                     (Some (header_value (detection cfg)))
                     (Some (metadata_field (detection cfg)))
                     (Some (metadata_value (detection cfg))))).

End Index.

(* ================================================================== *)
(** ** A runtime that computes *)
(* ================================================================== *)

(** An implementation of [JS.Runtime] for ASCII text and integer
    numbers, on which the definitions above evaluate. *)
Module ReferenceRuntime.
Import JS.
Local Open Scope string_scope.

Definition lower_char (c : ascii) : ascii :=
  let n := N_of_ascii c in
  if (65 <=? n)%N && (n <=? 90)%N then ascii_of_N (n + 32) else c.

Fixpoint lower (s : string) : string :=
  match s with
  | EmptyString => EmptyString
  | String c rest => String (lower_char c) (lower rest)
  end.

Definition is_space (c : ascii) : bool :=
  let n := N_of_ascii c in
  ((9 <=? n)%N && (n <=? 13)%N) || (n =? 32)%N.

Fixpoint trim_start (s : string) : string :=
  match s with
  | String c rest => if is_space c then trim_start rest else s
  | EmptyString => EmptyString
  end.

Fixpoint trim_end (s : string) : string :=
  match s with
  | EmptyString => EmptyString
  | String c rest =>
      match trim_end rest with
      | EmptyString => if is_space c then EmptyString else String c EmptyString
      | rest' => String c rest'
      end
  end.

Definition trim_ascii (s : string) : string := trim_end (trim_start s).

(** Decimal text of an integer. *)
Definition digit_char (d : N) : ascii := ascii_of_N (48 + d).

Fixpoint digits_of (fuel : nat) (n : N) (acc : string) : string :=
  match fuel with
  | O => acc
  | S fuel' =>
      let acc' := String (digit_char (n mod 10)) acc in
      if (n <? 10)%N then acc' else digits_of fuel' (n / 10) acc'
  end.

Definition N_text (n : N) : string := digits_of (S (N.to_nat (N.log2 n))) n EmptyString.

Definition Z_text (z : Z) : string :=
  match z with
  | Z0 => "0"
  | Zpos p => N_text (Npos p)
  | Zneg p => "-" ++ N_text (Npos p)
  end.

(** The text of a built-in function. *)
Definition function_text (p : Proto) (name : string) : string :=
  match p, name with
  | ObjectProto, "constructor" => "function Object() { [native code] }"
  | ArrayProto, "constructor" => "function Array() { [native code] }"
  | _, _ => "function " ++ name ++ "() { [native code] }"
  end.

(** String literals of [JSON.stringify]. *)
Definition hex_char (d : N) : ascii :=
  if (d <? 10)%N then ascii_of_N (48 + d) else ascii_of_N (87 + d).

Definition backslash : ascii := ascii_of_N 92.
Definition double_quote : ascii := ascii_of_N 34.

Definition escaped (c : ascii) : string := String backslash (String c EmptyString).

Definition escape_char (c : ascii) : string :=
  let n := N_of_ascii c in
  if (n =? 34)%N then escaped double_quote
  else if (n =? 92)%N then escaped backslash
  else if (n =? 8)%N then escaped "b"
  else if (n =? 12)%N then escaped "f"
  else if (n =? 10)%N then escaped "n"
  else if (n =? 13)%N then escaped "r"
  else if (n =? 9)%N then escaped "t"
  else if (n <? 32)%N then
    escaped "u" ++ "00"
      ++ String (hex_char (n / 16)) (String (hex_char (n mod 16)) EmptyString)
  else String c EmptyString.

Fixpoint escape (s : string) : string :=
  match s with
  | EmptyString => EmptyString
  | String c rest => escape_char c ++ escape rest
  end.

Definition quote (s : string) : string :=
  String double_quote (escape s ++ String double_quote EmptyString).

(** [JSON.stringify(j, null, 2)] at the current indentation. *)
Fixpoint pretty (indent : string) (j : JSON) : string :=
  match j with
  | JNull => "null"
  | JBool true => "true"
  | JBool false => "false"
  | JNum n => Z_text n
  | JStr s => quote s
  | JArr [] => "[]"
  | JArr items =>
      let inner := indent ++ "  " in
      "[" ++ Str.nl
        ++ Str.join ("," ++ Str.nl) (map (fun x => inner ++ pretty inner x) items)
        ++ Str.nl ++ indent ++ "]"
  | JObj [] => "{}"
  | JObj fields =>
      let inner := indent ++ "  " in
      "{" ++ Str.nl
        ++ Str.join ("," ++ Str.nl)
             (map (fun kv => match kv with
                             | (k, v) => inner ++ quote k ++ ": " ++ pretty inner v
                             end) fields)
        ++ Str.nl ++ indent ++ "}"
  end.

Definition stringify_pretty (v : JSValue) : string :=
  match v with
  | Data j => pretty EmptyString j
  | PrototypeObject ObjectProto => "{}"
  | PrototypeObject ArrayProto => "[]"
  | Undefined | NativeFunction _ _ => "undefined"
  end.

(** [Array.prototype] as of ECMAScript 2023. *)
Definition array_functions : list string :=
  [ "constructor"; "at"; "concat"; "copyWithin"; "entries"; "every"; "fill";
    "filter"; "find"; "findIndex"; "findLast"; "findLastIndex"; "flat";
    "flatMap"; "forEach"; "includes"; "indexOf"; "join"; "keys";
    "lastIndexOf"; "map"; "pop"; "push"; "reduce"; "reduceRight"; "reverse";
    "shift"; "slice"; "some"; "sort"; "splice"; "toLocaleString";
    "toReversed"; "toSorted"; "toSpliced"; "toString"; "unshift"; "values";
    "with" ].

Definition null_message (name : string) : string :=
  "Cannot read properties of null (reading '" ++ name ++ "')".

(** *** A parser for the fragment: integer numbers, ASCII escapes *)

Definition is_json_space (c : ascii) : bool :=
  let n := N_of_ascii c in
  (n =? 32)%N || (n =? 9)%N || (n =? 10)%N || (n =? 13)%N.

Fixpoint skip_space (s : string) : string :=
  match s with
  | String c rest => if is_json_space c then skip_space rest else s
  | EmptyString => EmptyString
  end.

Definition hex_value (c : ascii) : option N :=
  let n := N_of_ascii c in
  if (48 <=? n)%N && (n <=? 57)%N then Some (n - 48)%N
  else if (97 <=? n)%N && (n <=? 102)%N then Some (n - 87)%N
  else if (65 <=? n)%N && (n <=? 70)%N then Some (n - 55)%N
  else None.

(** The text of a string literal after its opening quote, and what
    follows the closing quote. *)
Fixpoint parse_string (s : string) : option (string * string) :=
  match s with
  | EmptyString => None
  | String c rest =>
      let n := N_of_ascii c in
      if (n =? 34)%N then Some (EmptyString, rest)
      else if (n <? 32)%N then None
      else if (n =? 92)%N then
        match rest with
        | String e rest' =>
            let plain (x : N) (tail : string) :=
              match parse_string tail with
              | Some (t, r) => Some (String (ascii_of_N x) t, r)
              | None => None
              end in
            match e with
            | "034"%char => plain 34%N rest'
            | "\"%char => plain 92%N rest'
            | "/"%char => plain 47%N rest'
            | "b"%char => plain 8%N rest'
            | "f"%char => plain 12%N rest'
            | "n"%char => plain 10%N rest'
            | "r"%char => plain 13%N rest'
            | "t"%char => plain 9%N rest'
            | "u"%char =>
                match rest' with
                | String a (String b (String c' (String d tail))) =>
                    match hex_value a, hex_value b, hex_value c', hex_value d with
                    | Some 0%N, Some 0%N, Some h, Some l =>
                        if (h <? 8)%N then plain (16 * h + l)%N tail else None
                    | _, _, _, _ => None
                    end
                | _ => None
                end
            | _ => None
            end
        | EmptyString => None
        end
      else
        match parse_string rest with
        | Some (t, r) => Some (String c t, r)
        | None => None
        end
  end.

Fixpoint take_digits (s : string) (acc : string) : string * string :=
  match s with
  | String c rest =>
      match digit_of c with
      | Some _ => take_digits rest (acc ++ String c EmptyString)
      | None => (acc, s)
      end
  | EmptyString => (acc, EmptyString)
  end.

Definition continues_number (s : string) : bool :=
  match s with
  | String "."%char _ | String "e"%char _ | String "E"%char _ => true
  | _ => false
  end.

Definition parse_number (negative : bool) (s : string) : option (JSON * string) :=
  let '(ds, rest) := take_digits s EmptyString in
  if continues_number rest then None
  else
    match ds with
    | EmptyString => None
    | String "0"%char (String _ _) => None
    | _ =>
        match parse_digits ds 0 with
        | Some n => Some (JNum (if negative then - Z.of_N n else Z.of_N n)%Z, rest)
        | None => None
        end
    end.

Definition literal (word : string) (value : JSON) (s : string) : option (JSON * string) :=
  if String.prefix word s then Some (value, Str.slice (String.length word) s) else None.

(** [CreateDataProperty] in enumeration order: array indices
    ascending, then the other keys as inserted. *)
Fixpoint replace_member (k : string) (v : JSON) (fields : list (string * JSON))
  : list (string * JSON) :=
  match fields with
  | [] => []
  | (k', v') :: rest =>
      if String.eqb k' k then (k', v) :: rest else (k', v') :: replace_member k v rest
  end.

Fixpoint insert_member (k : string) (v : JSON) (fields : list (string * JSON))
  : list (string * JSON) :=
  match fields with
  | [] => [(k, v)]
  | (k', v') :: rest =>
      match array_index k, array_index k' with
      | Some n, Some n' =>
          if (n <? n')%N then (k, v) :: fields else (k', v') :: insert_member k v rest
      | Some _, None => (k, v) :: fields
      | None, _ => (k', v') :: insert_member k v rest
      end
  end.

Definition set_member (k : string) (v : JSON) (fields : list (string * JSON))
  : list (string * JSON) :=
  match assoc k fields with
  | Some _ => replace_member k v fields
  | None => insert_member k v fields
  end.

Fixpoint parse_value (fuel : nat) (s : string) {struct fuel} : option (JSON * string) :=
  match fuel with
  | O => None
  | S fuel' =>
      match skip_space s with
      | String "n"%char _ as t => literal "null" JNull t
      | String "t"%char _ as t => literal "true" (JBool true) t
      | String "f"%char _ as t => literal "false" (JBool false) t
      | String "034"%char rest =>
          match parse_string rest with
          | Some (t, r) => Some (JStr t, r)
          | None => None
          end
      | String "-"%char rest => parse_number true rest
      | String "["%char rest =>
          match skip_space rest with
          | String "]"%char r => Some (JArr [], r)
          | t => match parse_items fuel' t with
                 | Some (items, r) => Some (JArr items, r)
                 | None => None
                 end
          end
      | String "{"%char rest =>
          match skip_space rest with
          | String "}"%char r => Some (JObj [], r)
          | t => match parse_members fuel' t [] with
                 | Some (fields, r) => Some (JObj fields, r)
                 | None => None
                 end
          end
      | t => parse_number false t
      end
  end
with parse_items (fuel : nat) (s : string) {struct fuel} : option (list JSON * string) :=
  match fuel with
  | O => None
  | S fuel' =>
      match parse_value fuel' s with
      | Some (v, r) =>
          match skip_space r with
          | String "]"%char r' => Some ([v], r')
          | String ","%char r' =>
              match parse_items fuel' r' with
              | Some (vs, r'') => Some (v :: vs, r'')
              | None => None
              end
          | _ => None
          end
      | None => None
      end
  end
with parse_members (fuel : nat) (s : string) (acc : list (string * JSON)) {struct fuel}
  : option (list (string * JSON) * string) :=
  match fuel with
  | O => None
  | S fuel' =>
      match skip_space s with
      | String "034"%char rest =>
          match parse_string rest with
          | Some (k, r) =>
              match skip_space r with
              | String ":"%char r' =>
                  match parse_value fuel' r' with
                  | Some (v, r'') =>
                      let acc' := set_member k v acc in
                      match skip_space r'' with
                      | String "}"%char r3 => Some (acc', r3)
                      | String ","%char r3 => parse_members fuel' r3 acc'
                      | _ => None
                      end
                  | None => None
                  end
              | _ => None
              end
          | None => None
          end
      | _ => None
      end
  end.

Definition parse (s : string) : option JSON :=
  match parse_value (S (String.length s)) s with
  | Some (v, rest) =>
      match skip_space rest with
      | EmptyString => Some v
      | _ => None
      end
  | None => None
  end.

#[export] Instance runtime : Runtime := {
  toLowerCase := lower;
  trim := trim_ascii;
  JSON_parse := parse;
  JSON_stringify_pretty := stringify_pretty;
  Number_toString := Z_text;
  Function_toString := function_text;
  Array_prototype_functions := array_functions;
  null_read_message := null_message;
  to_primitive_message := "Cannot convert object to primitive value"
}.

End ReferenceRuntime.

(* ================================================================== *)
(** ** The properties in the words of the specification *)
(* ================================================================== *)

(** Section 4.1: the detection rule. *)
Module DetectionRule.
Import JS Types.

Section WithRuntime.
Context {rt : Runtime}.

(** The stored value of the first header whose name equals [name]
    up to case. *)
Definition stored_header (name : string) (req : AugmentRequest) : option string :=
  match find (fun kv => String.eqb (toLowerCase (fst kv)) (toLowerCase name))
             (match headers req with Some h => h | None => [] end) with
  | Some (_, value) => Some value
  | None => None
  end.

(** "If found and [header_value] is configured, match iff the stored
    value equals it exactly; if [header_value] is unset, presence
    alone matches." *)
Definition header_criterion (d : Detection) (req : AugmentRequest) : bool :=
  match header_field d with
  | Some name =>
      Str.nonempty name &&
      match stored_header name req, header_value d with
      | Some stored, Some expected =>
          if Str.nonempty expected then String.eqb stored expected else true
      | Some _, None => true
      | None, _ => false
      end
  | None => false
  end.

(** The members that a value owns: the entries of an object; the
    elements of an array under their index, and its length. *)
Definition member (j : JSON) (key : string) : option JSON :=
  match j with
  | JObj fields => assoc key fields
  | JArr items =>
      if String.eqb key "length" then Some (JNum (Z.of_nat (List.length items)))
      else match array_index key with
           | Some i => item_at items i
           | None => None
           end
  | _ => None
  end.

(** "Descend key by key; if any intermediate value is not an object or
    the key is absent, the path resolves to undefined." *)
Fixpoint descend (current : JSON) (keys : list string) : option JSON :=
  match keys with
  | [] => Some current
  | key :: rest =>
      match member current key with
      | Some next => descend next rest
      | None => None
      end
  end.

(** "Look up that dotted path inside [body.metadata] (an object);
    split on [.]". *)
Definition resolve (md : JSValue) (path : string) : option JSON :=
  match md with
  | Data (JObj fields) => descend (JObj fields) (Str.split "."%char path)
  | Data (JArr items) => descend (JArr items) (Str.split "."%char path)
  | _ => None
  end.

(** "If resolved and [metadata_value] is configured, match iff the
    string form of the resolved value equals it exactly; if unset,
    resolution alone (value present, even if falsy/zero) matches." *)
Definition metadata_criterion (d : Detection) (req : AugmentRequest) : bool :=
  match metadata_field d with
  | Some path =>
      Str.nonempty path &&
      match resolve (metadata (body req)) path, metadata_value d with
      | Some value, Some expected =>
          if Str.nonempty expected then String.eqb (json_text value) expected else true
      | Some _, None => true
      | None, _ => false
      end
  | None => false
  end.

(** A name that a read on plain data finds on a built-in prototype. *)
Definition prototype_member (key : string) : bool :=
  String.eqb key "__proto__"
  || mem key Object_prototype_functions
  || mem key Array_prototype_functions.

(** No segment of the path is such a name. *)
Definition plain_path (path : string) : bool :=
  forallb (fun key => negb (prototype_member key)) (Str.split "."%char path).

Definition plain_field (d : Detection) : bool :=
  match metadata_field d with
  | Some path => plain_path path
  | None => true
  end.

(** The value is [undefined] or was read from JSON. *)
Definition from_json (v : JSValue) : bool :=
  match v with
  | Undefined | Data _ => true
  | _ => false
  end.

(** The value that the metadata path resolves to has a string form. *)
Definition comparable (d : Detection) (req : AugmentRequest) : bool :=
  match metadata_field d with
  | Some path =>
      match resolve (metadata (body req)) path with
      | Some value => stringable value
      | None => true
      end
  | None => true
  end.

Definition matches (cfg : AugmentConfig) (req : AugmentRequest) : bool :=
  enabled cfg &&
  (header_criterion (detection cfg) req || metadata_criterion (detection cfg) req).

End WithRuntime.

End DetectionRule.

(** Sections 4.2 and 4.4: content conversion and system content
    assembly. *)
Module Augmentation.
Import JS Types Augmenter.

Definition non_null (j : JSON) : Prop := j <> JNull.

(** "Conversion yields exactly one block and that block is of type
    text." *)
Definition single_text_block (converted : list OutBlock) : Prop :=
  exists b, converted = [b] /\ out_type b = Str_ "text".

(** An image block whose source type is neither [base64] nor [url]. *)
Definition unsupported_image (block : JSON) : Prop :=
  field block "type" = Str_ "image"
  /\ opt_field (field block "source") "type" <> Str_ "base64"
  /\ opt_field (field block "source") "type" <> Str_ "url".

(** A block whose top-level type is none of the four known ones. *)
Definition unrecognized (block : JSON) : Prop :=
  block <> JNull
  /\ field block "type" <> Str_ "text"
  /\ field block "type" <> Str_ "image"
  /\ field block "type" <> Str_ "tool_use"
  /\ field block "type" <> Str_ "tool_result".

(** The policy passes validation. *)
Definition valid (cfg : AugmentConfig) : Prop :=
  openrouter_endpoint cfg <> EmptyString
  /\ openrouter_auth cfg <> EmptyString
  /\ (truthy (additional_instructions cfg) = true ->
      isArray (additional_instructions cfg) = true)
  /\ (truthy (extra_context cfg) = true -> typeof (extra_context cfg) = "object").

(** A property of the policy is present. *)
Definition present (v : JSValue) : bool := negb (is_undefined v).

(** The value is a JSON object, not an array. *)
Definition is_json_object (v : JSValue) : bool :=
  match v with
  | Data (JObj _) => true
  | _ => false
  end.

(** The offending fields in the words of the claim C4: "empty
    openrouter_endpoint, empty openrouter_auth, non-array
    additional_instructions, or non-object extra_context", the last two
    "if present". *)
Definition claimed_violations (cfg : AugmentConfig) : list string :=
  (if String.eqb (openrouter_endpoint cfg) EmptyString then ["openrouter_endpoint"] else [])
  ++ (if String.eqb (openrouter_auth cfg) EmptyString then ["openrouter_auth"] else [])
  ++ (if present (additional_instructions cfg)
         && negb (isArray (additional_instructions cfg))
      then ["additional_instructions"] else [])
  ++ (if present (extra_context cfg) && negb (is_json_object (extra_context cfg))
      then ["extra_context"] else []).

(** An inline image: the source type is [base64]. *)
Definition inline_image (block : JSON) : Prop :=
  field block "type" = Str_ "image"
  /\ opt_field (field block "source") "type" = Str_ "base64".

(** A content block that is an object or a scalar, whose media type and
    data, if it is an inline image, have a string form. *)
Definition convertible_block (block : JSON) : Prop :=
  block <> JNull
  /\ (inline_image block ->
      can_convert (opt_field (field block "source") "media_type") = true
      /\ can_convert (opt_field (field block "source") "data") = true).

(** A message content: a sequence of such blocks, or one value with a
    string form (a string is one). *)
Definition convertible_content (content : JSValue) : Prop :=
  if isArray content then Forall convertible_block (elements content)
  else can_convert content = true.

(** A system segment: not [null], and with a text that has a string
    form when the text is forwarded. *)
Definition convertible_segment (cfg : AugmentConfig) (item : JSON) : Prop :=
  item <> JNull
  /\ (Str.configured (modified_system_prompt cfg) = false ->
      field item "type" = Str_ "text" ->
      can_convert (field item "text") = true).


Definition non_system (m : MessageParam) : bool := negb (String.eqb (role m) "system").

Section WithRuntime.
Context {rt : Runtime}.

(** The text of an inbound system segment that is forwarded. *)
Definition segment_text (item : JSON) : list JSValue :=
  if strict_eq_string (field item "type") "text" && truthy (field item "text")
  then [field item "text"] else [].

(** The inbound system text: the texts of the segments, separated by a
    blank line. *)
Definition inbound_system_text (req : AugmentRequest) : string :=
  if truthy (system (body req)) && isArray (system (body req))
  then Str.join (Str.nl ++ Str.nl)
                (map value_text (flat_map segment_text (elements (system (body req)))))
  else EmptyString.




(** Section 4.2, per block type: text to text; an image with
    inline-encoded source to an image reference whose URL is a data
    URI assembled from the declared media type and the encoded payload;
    an image with remote-URL source to an image reference with that
    URL; a tool invocation and a tool result with their identifying
    fields; a block of any other type unchanged.  An image with another
    source has no counterpart. *)
Inductive converts_to : JSON -> list OutBlock -> Prop :=
| text_to_text block :
    field block "type" = Str_ "text" ->
    converts_to block [OText (field block "text")]
| inline_image_to_reference block media_type data :
    inline_image block ->
    toString (opt_field (field block "source") "media_type") = Ok media_type ->
    toString (opt_field (field block "source") "data") = Ok data ->
    converts_to block [OImageUrl (Str_ ("data:" ++ media_type ++ ";base64," ++ data))]
| remote_image_to_reference block :
    field block "type" = Str_ "image" ->
    opt_field (field block "source") "type" = Str_ "url" ->
    converts_to block [OImageUrl (opt_field (field block "source") "url")]
| other_image_dropped block :
    unsupported_image block ->
    converts_to block []
| tool_invocation block :
    field block "type" = Str_ "tool_use" ->
    converts_to block [OToolUse (field block "id") (field block "name")
                                (field block "input")]
| tool_result block :
    field block "type" = Str_ "tool_result" ->
    converts_to block [OToolResult (field block "tool_use_id") (field block "content")]
| unrecognized_unchanged block :
    unrecognized block ->
    converts_to block [OPass block].

(** "If conversion of a message's block sequence yields exactly one
    block and that block is of type text, the message's content
    collapses to the bare text string; otherwise the sequence is kept
    as-is." *)
Inductive collapses_to : list OutBlock -> OutContent -> Prop :=
| collapse_single_text b :
    out_type b = Str_ "text" -> collapses_to [b] (Bare (out_text b))
| keep_sequence converted :
    ~ single_text_block converted -> collapses_to converted (Blocks converted).

(** Section 4.2 on the content of a message: a plain text is kept as
    it is; a sequence of blocks is converted block by block and the
    result canonicalized; a value that is neither is put as its string
    form. *)
Inductive content_to : JSValue -> OutContent -> Prop :=
| plain_text text :
    content_to (Str_ text) (Bare (Str_ text))
| block_sequence content groups out :
    isArray content = true ->
    Forall2 converts_to (elements content) groups ->
    collapses_to (concat groups) out ->
    content_to content out
| other_value content text :
    typeof content <> "string" ->
    isArray content = false ->
    toString content = Ok text ->
    content_to content (Bare (Str_ text)).

(** An outbound message is the translation of an inbound one: the same
    role, and the content converted by section 4.2. *)
Definition translates (m : MessageParam) (o : OpenRouterMessage) : Prop :=
  out_role o = role m /\ content_to (content m) (out_content o).

End WithRuntime.

End Augmentation.

(** Section 4.3: the stream transcoder, frame by frame. *)
Module Transcoding.
Import JS Types Forwarder.

(** The complete lines of a stream: every fragment of its text that a
    line feed ends. *)
Definition complete_lines (text : string) : list string :=
  removelast (Str.split Str.LF text).

(** The frame carries a finish reason. *)
Definition finish_reason (frame : JSON) : JSValue :=
  opt_field (opt_first (field frame "choices")) "finish_reason".

Definition has_finish (frame : JSON) : bool := truthy (finish_reason frame).

(** The frame carries incremental text. *)
Definition delta_content (frame : JSON) : JSValue :=
  opt_field (opt_field (opt_first (field frame "choices")) "delta") "content".

(** The count that the frame carries under [name] in its usage: none
    when the frame has no usage, or the count is absent or falsy. *)
Definition usage_count (name : string) (frame : JSON) : option JSValue :=
  if truthy (field frame "usage") && truthy (opt_field (field frame "usage") name)
  then Some (opt_field (field frame "usage") name)
  else None.

Definition is_delta (e : Event) : bool :=
  match e with content_block_delta _ => true | _ => false end.

Definition is_start (e : Event) : bool :=
  match e with message_start _ _ | content_block_start => true | _ => false end.

(** Zero or more deltas, then the three closing events. *)
Fixpoint closes (events : list Event) : bool :=
  match events with
  | content_block_delta _ :: rest => closes rest
  | [content_block_stop; message_delta _ _; message_stop] => true
  | _ => false
  end.

(** The ordering invariant of the caller-facing protocol: one
    message-start, one content-block-start, deltas, one
    content-block-stop, one message-delta, one message-stop. *)
Definition follows_protocol (events : list Event) : bool :=
  match events with
  | message_start _ _ :: content_block_start :: rest => closes rest
  | _ => false
  end.

(** A frame that sends no event once the stream has started: it
    carries neither text nor a finish reason. *)
Definition silent (frame : JSON) : bool :=
  negb (truthy (delta_content frame)) && negb (has_finish frame).

(** The frame carries a finish reason that has a string form, as every
    string has. *)
Definition closing (frame : JSON) : bool :=
  has_finish frame && can_convert (finish_reason frame).

(** The streams that are closed once: frames without finish reason,
    then one closing frame, then silent frames only. *)
Fixpoint closed_once (frames : list JSON) : bool :=
  match frames with
  | [] => false
  | frame :: rest =>
      if has_finish frame
      then can_convert (finish_reason frame) && forallb silent rest
      else closed_once rest
  end.

(** The running counter after some frames: each frame that carries a
    count under [name] replaces the value, the others keep it. *)
Definition latest (name : string) (frames : list JSON) (start : JSValue) : JSValue :=
  fold_left (fun acc frame => match usage_count name frame with
                              | Some v => v
                              | None => acc
                              end) frames start.

(** The state with another carry-over buffer. *)
Definition with_buffer (b : string) (st : Transcoder) : Transcoder :=
  mkTranscoder b (inputTokens st) (outputTokens st) (sentStart st).

Section WithRuntime.
Context {rt : Runtime}.

(** The frame of a complete line: the line has the data prefix, is not
    the [DONE] sentinel, and parses to a value other than [null]. *)
Definition frame_of_line (line : string) : list JSON :=
  if negb (Str.startsWith "data: " line) then []
  else
    let jsonStr := trim (Str.slice 6 line) in
    if String.eqb jsonStr "[DONE]" then []
    else match JSON_parse jsonStr with
         | Some JNull | None => []
         | Some frame => [frame]
         end.

(** The frames of a stream, in order of arrival. *)
Definition frames_of (chunks : list string) : list JSON :=
  flat_map frame_of_line (complete_lines (Str.concat_all chunks)).

(** The delta that a frame sends. *)
Definition delta_events (frame : JSON) : list Event :=
  if truthy (delta_content frame) then [content_block_delta (delta_content frame)] else [].

(** The closing events that a frame sends, [outTok] being the output
    counter: none without finish reason, [content_block_stop] alone
    when the finish reason has no string form. *)
Definition closing_events (frame : JSON) (outTok : JSValue) : list Event :=
  if has_finish frame
  then content_block_stop
         :: match mapFinishReason (finish_reason frame) with
            | Ok stop_reason => [ message_delta stop_reason outTok; message_stop ]
            | Throw _ => []
            end
  else [].

(** The events of a frame once the stream has started. *)
Definition frame_events (frame : JSON) (outTok : JSValue) : list Event :=
  delta_events frame ++ closing_events frame outTok.

(** The transcoder run on frames. *)
Fixpoint on_frames (messageId : string) (frames : list JSON) (st : Transcoder)
  : list Event * Transcoder :=
  match frames with
  | [] => ([], st)
  | frame :: rest =>
      let '(ev, st1) := on_frame messageId frame st in
      let '(evs, st2) := on_frames messageId rest st1 in
      (ev ++ evs, st2)
  end.

End WithRuntime.

End Transcoding.

(** Section 7: the error taxonomy of forwarding. *)
Module ErrorHandling.
Import JS Types Augmenter Forwarder Middleware.

(** The exceptions that [forward] reports as a network error. *)
Definition network_failure (e : JSError) : Prop :=
  err_code e = Some "ECONNREFUSED"
  \/ err_code e = Some "ENOTFOUND"
  \/ err_code e = Some "ETIMEDOUT"
  \/ err_name e = "TypeError".

Definition network_error_message (e : JSError) : string :=
  "Network error: Unable to reach OpenRouter endpoint - " ++ err_message e.

Definition forward_error_message (e : JSError) : string :=
  "Forward error: " ++ err_message e.

(** What a run sends on the reply. *)
Definition replies (run : Run) : list Effect :=
  filter (fun e => negb (is_fetch e)) (effects run).

(** The reply of the middleware to a failure: one status, one error
    envelope. *)
Definition error_reply (code : Z) (error_type : string) (message : string)
  : list Effect :=
  [ ReplyStatus code; ReplySend (ErrorEnvelope error_type (Str_ message)) ].

End ErrorHandling.

(* ================================================================== *)
(** ** Sample inputs *)
(* ================================================================== *)

Module Samples.
Import JS Types.

(** JSON text is written with ['] for the double quote. *)
Fixpoint dq (s : string) : string :=
  match s with
  | EmptyString => EmptyString
  | String c rest =>
      String (if Ascii.eqb c "'"%char then ReferenceRuntime.double_quote else c) (dq rest)
  end.

Definition endpoint : string := "https://openrouter.ai/api/v1/chat/completions".

Definition no_detection : Detection := mkDetection None None None None.

Definition header_detection : Detection :=
  mkDetection (Some "x-agent") (Some "claude-code") None None.

(** A policy that only forwards. *)
Definition plain_config : AugmentConfig :=
  mkConfig true None Undefined Undefined endpoint "sk-or-test-key" header_detection.

Definition hello : MessageParam := mkMessage "user" (Str_ "Hello").

Definition body_of (msgs : list MessageParam) (md : JSValue) : Body :=
  mkBody (Str_ "claude-3-sonnet") msgs Undefined None Undefined Undefined md [].

Definition hello_request : AugmentRequest :=
  mkRequest (body_of [hello] Undefined) (Some [("X-Agent", "claude-code")]).

(** The policy of the integration tests: replacement prompt, two
    instructions, extra context. *)
Definition augmenting_config : AugmentConfig :=
  mkConfig true
           (Some "You are an augmented AI assistant with enhanced capabilities.")
           (Data (JArr [ JStr "Always provide detailed explanations.";
                         JStr "Include code examples when relevant." ]))
           (Data (JObj [ ("project_name", JStr "test-project");
                         ("framework", JStr "react") ]))
           endpoint "sk-or-test-key" header_detection.

(** The same policy with an empty token. *)
Definition invalid_config : AugmentConfig :=
  mkConfig true (modified_system_prompt augmenting_config)
           (additional_instructions augmenting_config)
           (extra_context augmenting_config) endpoint EmptyString header_detection.

Definition text_block (text : string) : JSON :=
  JObj [("type", JStr "text"); ("text", JStr text)].

Definition base64_image : JSON :=
  JObj [ ("type", JStr "image");
         ("source", JObj [ ("type", JStr "base64");
                           ("media_type", JStr "image/png");
                           ("data", JStr "iVBORw0KGgo=") ]) ].

(** An image whose source type is not one that is converted. *)
Definition file_image : JSON :=
  JObj [ ("type", JStr "image");
         ("source", JObj [("type", JStr "file"); ("file_id", JStr "f_1")]) ].

(** A block of a type that the augmenter does not know. *)
Definition document_block : JSON :=
  JObj [("type", JStr "document"); ("title", JStr "notes")].

(** A conversation with a system segment and a system-role message. *)
Definition conversation : AugmentRequest :=
  mkRequest
    (mkBody (Str_ "claude-3-sonnet")
            [ mkMessage "user" (Str_ "A");
              mkMessage "system" (Str_ "S");
              mkMessage "assistant" (Data (JArr [text_block "B"]));
              mkMessage "user" (Data (JArr [text_block "C"; base64_image])) ]
            (Data (JArr [text_block "Original system prompt"]))
            None (Data (JBool false)) (Num_ 2048) Undefined [])
    (Some [("x-agent", "claude-code")]).

(** Exceptions of the transport: a refused connection, and a reset one,
    whose code is not among those that [forward] tests. *)
Definition refused : JSError := mkError "Error" (Some "ECONNREFUSED") "Connection refused".
Definition reset : JSError := mkError "Error" (Some "ECONNRESET") "socket hang up".

Definition line (json : string) : string := (dq json ++ Str.nl)%string.

(** A stream of two frames and the sentinel, cut in the middle of a
    line. *)
Definition finished_stream : list string :=
  [ (line "data: {'model':'gpt-4','choices':[{'delta':{'content':'Hel'}}]}"
       ++ Str.nl ++ dq "data: {'choices':[{'delta':{'cont")%string;
    (line "ent':'lo'},'finish_reason':'stop'}],'usage':{'completion_tokens':2}}"
       ++ Str.nl ++ line "data: [DONE]" ++ Str.nl)%string ].

Definition first_frame : JSON :=
  JObj [ ("model", JStr "gpt-4");
         ("choices", JArr [JObj [("delta", JObj [("content", JStr "Hel")])]]) ].

Definition last_frame : JSON :=
  JObj [ ("choices", JArr [JObj [ ("delta", JObj [("content", JStr "lo")]);
                                  ("finish_reason", JStr "stop") ]]);
         ("usage", JObj [("completion_tokens", JNum 2)]) ].

(** A stream that holds the sentinel only. *)
Definition sentinel_stream : list string := [ (line "data: [DONE]" ++ Str.nl)%string ].

(** A frame that reports five output tokens, then a finishing frame
    that reports zero. *)
Definition five_frame : JSON := JObj [("usage", JObj [("completion_tokens", JNum 5)])].

Definition zero_frame : JSON :=
  JObj [ ("choices", JArr [JObj [("finish_reason", JStr "stop")]]);
         ("usage", JObj [("completion_tokens", JNum 0)]) ].

Definition zero_stream : list string :=
  [ line "data: {'usage':{'completion_tokens':5}}";
    line "data: {'choices':[{'finish_reason':'stop'}],'usage':{'completion_tokens':0}}" ].

(** A stream that holds a comment line and a malformed frame. *)
Definition noise_stream : list string :=
  [ line ": keep-alive"; line "data: {'choices':[" ].

(** A stream whose usage arrives in a frame of its own after the frame
    with the finish reason. *)
Definition trailing_usage_stream : list string :=
  [ line "data: {'model':'gpt-4','choices':[{'delta':{'content':'Hi'}}]}";
    line "data: {'choices':[{'delta':{},'finish_reason':'stop'}]}";
    line "data: {'choices':[],'usage':{'prompt_tokens':9,'completion_tokens':7}}";
    line "data: [DONE]" ].

(** A frame that reports input tokens only. *)
Definition prompt_frame : JSON := JObj [("usage", JObj [("prompt_tokens", JNum 9)])].

(** A policy whose [additional_instructions] is the number 0. *)
Definition lenient_config : AugmentConfig :=
  mkConfig true None (Num_ 0) Undefined endpoint "sk-or-test-key" header_detection.









(** A transport on which every call fails with [e]. *)
Definition failing (e : JSError) (call : Forwarder.FetchCall) : Forwarder.FetchOutcome :=
  Forwarder.Rejected e.

(** A policy whose metadata path is [constructor], with no expected
    value, and a request whose metadata is the empty object. *)
Definition constructor_detection : Detection :=
  mkDetection None None (Some "constructor") None.

Definition empty_metadata_request : AugmentRequest :=
  mkRequest (body_of [hello] (Data (JObj []))) (Some []).

(** The detection of the default configuration, and a request without
    the header whose metadata holds an agent that owns [toString]. *)
Definition default_detection : Detection :=
  mkDetection (Some "x-agent") (Some "claude-code") (Some "agent") (Some "claude-code").

Definition detecting_config : AugmentConfig :=
  mkConfig true None Undefined Undefined endpoint "sk-or-test-key" default_detection.

Definition opaque_agent_request : AugmentRequest :=
  mkRequest (body_of [hello] (Data (JObj [("agent", JObj [("toString", JStr "claude-code")])])))
            (Some []).

(** A policy whose metadata path is [toString], and a request whose
    metadata does not hold that key. *)
Definition toString_detection : Detection :=
  mkDetection None None (Some "toString") None.

Definition agent_request : AugmentRequest :=
  mkRequest (body_of [hello] (Data (JObj [("agent", JStr "claude-code")]))) (Some []).

End Samples.

(* ================================================================== *)
(** ** Further notions and inputs *)
(* ================================================================== *)

Module Notions.
Import JS Types Augmenter Forwarder Middleware Transcoding.

(** A text without line feed. *)
Definition one_line (text : string) : Prop := Str.split Str.LF text = [text].

(** A text that ends at a line boundary: it is empty or its last
    character is a line feed. *)
Definition at_line_boundary (text : string) : Prop :=
  last (Str.split Str.LF text) EmptyString = EmptyString.

Definition is_message_stop (e : Event) : bool :=
  match e with message_stop => true | _ => false end.

Definition is_block_stop (e : Event) : bool :=
  match e with content_block_stop => true | _ => false end.

Definition is_send (e : Effect) : bool :=
  match e with ReplySend _ => true | _ => false end.

Definition is_status (e : Effect) : bool :=
  match e with ReplyStatus _ => true | _ => false end.

(** The content of a message is a string. *)
Definition string_content (m : MessageParam) : Prop :=
  exists text, content m = Str_ text.

(** The message with its content as the only change of shape. *)
Definition verbatim (m : MessageParam) : OpenRouterMessage :=
  mkOut (role m) (Bare (content m)).

(** The headers with every name replaced. *)
Definition rename_headers (f : string -> string) (req : AugmentRequest) : AugmentRequest :=
  mkRequest (body req)
            (match headers req with
             | Some h => Some (map (fun kv => (f (fst kv), snd kv)) h)
             | None => None
             end).

Definition with_header_field (name : string) (d : Detection) : Detection :=
  mkDetection (Some name) (header_value d) (metadata_field d) (metadata_value d).

(** The block is an image that the conversion drops. *)
Definition is_unsupported_image (block : JSON) : bool :=
  strict_eq_string (field block "type") "image"
  && negb (strict_eq_string (opt_field (field block "source") "type") "base64")
  && negb (strict_eq_string (opt_field (field block "source") "type") "url").

(** The tools of the outbound request for the inbound ones. *)
Definition tools_out (tool_out : JSON -> OutTool) (inbound : option (list JSON))
  : option (list OutTool) :=
  match inbound with
  | Some (t :: ts) => Some (map tool_out (t :: ts))
  | _ => None
  end.

(** The outbound form of a tool. *)
Definition tool_out (tool : JSON) : OutTool :=
  if strict_eq_string (field tool "type") "function" then ToolPass tool
  else ToolFunction (field tool "name") (field tool "description")
                    (field tool "input_schema").

(** The body with its stream flag and its request with that body. *)
Definition with_messages (msgs : list MessageParam) (req : AugmentRequest) : AugmentRequest :=
  mkRequest (mkBody (model (body req)) msgs (system (body req)) (tools (body req))
                    (stream (body req)) (max_tokens (body req)) (metadata (body req))
                    (other (body req)))
            (headers req).

(** The request with another [system] value. *)
Definition with_system (sys : JSValue) (req : AugmentRequest) : AugmentRequest :=
  mkRequest (mkBody (model (body req)) (messages (body req)) sys (tools (body req))
                    (stream (body req)) (max_tokens (body req)) (metadata (body req))
                    (other (body req)))
            (headers req).

(** A provider reply with an error status and a JSON body. *)
Definition error_response (code : Z) (reason : string) (payload : Result JSON) : Response :=
  mkResponse false code reason payload None.

(** A successful provider reply. *)
Definition ok_response (payload : Result JSON) (chunks : option (list string)) : Response :=
  mkResponse true 200 "OK" payload chunks.

(** The type of the envelope that the middleware sends for a forward
    failure with code [code]. *)
Definition envelope_type (code : Z) : string :=
  if (code =? 502)%Z then "api_error" else "invalid_request_error".

(** The status that it replies with. *)
Definition reply_status (code : Z) : Z := if (code =? 0)%Z then 500%Z else code.

(** The message of a provider error reply with body [errorBody]. *)
Definition upstream_message `{Runtime} (status : Z) (errorBody : JSON) : JSValue :=
  or_else (field errorBody "message")
          (Str_ ("OpenRouter error: " ++ Number_toString status)).

Definition streaming_headers : list Effect :=
  [ ReplyHeader "Content-Type" "text/event-stream";
    ReplyHeader "Cache-Control" "no-cache";
    ReplyHeader "Connection" "keep-alive" ].

End Notions.

Module MoreSamples.
Import JS Types Augmenter Forwarder Middleware Index Notions Samples.

(** A transport on which every call is answered by [response]. *)
Definition answering (response : Response) (call : FetchCall) : FetchOutcome :=
  Resolved response.

Definition rate_limited : Response :=
  error_response 429 "Too Many Requests"
                 (Ok (JObj [("message", JStr "Rate limit exceeded")])).

Definition null_error : Response := error_response 500 "Internal Server Error" (Ok JNull).

Definition completion : JSON :=
  JObj [ ("id", JStr "chatcmpl-123");
         ("choices", JArr [JObj [ ("message", JObj [("content", JStr "Hello there!")]);
                                  ("finish_reason", JStr "length") ]]);
         ("usage", JObj [("prompt_tokens", JNum 15)]) ].

(** A request whose second message holds a [null] block. *)
Definition null_block_request : AugmentRequest :=
  with_messages [ mkMessage "user" (Str_ "A");
                  mkMessage "user" (Data (JArr [text_block "B"; JNull; text_block "C"])) ]
                conversation.

(** A request with sampling parameters, another property and tools. *)
Definition tuned_request : AugmentRequest :=
  mkRequest
    (mkBody (Str_ "claude-3-sonnet") [hello] Undefined
            (Some [ JObj [ ("name", JStr "get_weather");
                           ("description", JStr "Weather lookup");
                           ("input_schema", JObj [("type", JStr "object")]) ];
                    JObj [("type", JStr "function"); ("function", JObj [])] ])
            Undefined (Num_ 512) Undefined
            [ ("stop", JArr [JStr "END"]); ("thinking", JBool true);
              ("temperature", JNum 1) ])
    (Some [("x-agent", "claude-code")]).

(** A document whose finish reason is an object that owns
    [toString]. *)
Definition opaque_completion : JSON :=
  JObj [ ("id", JStr "chatcmpl-124");
         ("choices", JArr [JObj [ ("message", JObj [("content", JStr "Hello")]);
                                  ("finish_reason", JObj [("toString", JNull)]) ]]) ].

(** A successful reply with a JSON document and a body, one without
    body, and one with that document. *)
Definition ok_json : Response := ok_response (Ok completion) (Some finished_stream).
Definition bodiless : Response := ok_response (Ok completion) None.
Definition opaque_json : Response :=
  ok_response (Ok opaque_completion) (Some finished_stream).

(** A finishing frame that no line feed ends, and a comment line. *)
Definition unterminated : string := dq "data: {'choices':[{'finish_reason':'stop'}]}".
Definition comment_line : string := ": keep-alive".

Definition first_line : string :=
  line "data: {'model':'gpt-4','choices':[{'delta':{'content':'Hel'}}]}".
Definition last_line : string :=
  line "data: {'choices':[{'delta':{'content':'lo'},'finish_reason':'stop'}]}".

Definition mixed_blocks : list JSON := [text_block "hi"; file_image; base64_image].

Definition string_messages : list MessageParam :=
  [ mkMessage "user" (Str_ "A"); mkMessage "system" (Str_ "S");
    mkMessage "assistant" (Str_ "B"); mkMessage "user" (Str_ "C") ].

Definition presence_detection : Detection :=
  mkDetection None None (Some "claude_request") None.

Definition null_flag_request : AugmentRequest :=
  mkRequest (body_of [hello] (Data (JObj [("claude_request", JNull)]))) (Some []).

Definition nested_metadata : JSON :=
  JObj [("source", JObj [("agent", JStr "claude-code"); ("build", JNum 0)])].

(** A policy that detects by the nested metadata path, and a request
    that carries it. *)
Definition nested_config : AugmentConfig :=
  mkConfig true None Undefined Undefined endpoint "sk-or-test-key"
           (mkDetection None None (Some "source.agent") (Some "claude-code")).

Definition nested_request : AugmentRequest :=
  mkRequest (body_of [hello] (Data nested_metadata)) (Some []).

End MoreSamples.

(* ================================================================== *)
(** * Theorems *)
(* ================================================================== *)

Module StrFacts.

Lemma nonempty_false s : Str.nonempty s = false -> s = EmptyString.
Proof.
  unfold Str.nonempty. destruct s; [reflexivity | discriminate].
Qed.

Lemma split_not_nil sep s : Str.split sep s <> [].
Proof.
  destruct s as [|c rest]; simpl; [discriminate|].
  destruct (Ascii.eqb c sep); [discriminate|].
  destruct (Str.split sep rest); discriminate.
Qed.

End StrFacts.

Module DetectorProofs.
Import JS Types Detector DetectionRule.

Section WithRuntime.
Context {rt : Runtime}.

(** The early-return loop of [checkHeader] decides on the first
    header whose lower-cased name is the lower-cased field. *)
Lemma checkHeader_loop_find name expected entries :
  checkHeader_loop name expected entries =
  match find (fun kv => String.eqb (toLowerCase (fst kv)) name) entries, expected with
  | Some (_, stored), Some v => if Str.nonempty v then String.eqb stored v else true
  | Some _, None => true
  | None, _ => false
  end.
Proof.
  induction entries as [|[key value] rest IH]; simpl.
  - destruct expected; reflexivity.
  - destruct (String.eqb (toLowerCase key) name); [reflexivity | exact IH].
Qed.

Lemma checkHeader_criterion d req :
  checkHeader req d = header_criterion d req.
Proof.
  unfold checkHeader, header_criterion, stored_header.
  destruct (header_field d) as [name|]; [|reflexivity].
  destruct (Str.nonempty name); simpl; [|reflexivity].
  rewrite checkHeader_loop_find.
  destruct (find _ _) as [[k stored]|]; reflexivity.
Qed.

(** *** The dotted path lookup *)

(** An intermediate value that is [null], [undefined] or not of type
    object ends the descent with [undefined]. *)
Lemma getNestedValue_loop_non_object current key rest :
  as_object current = None ->
  getNestedValue_loop current (key :: rest) = Undefined.
Proof.
  intros H. simpl. rewrite H. reflexivity.
Qed.

(** Once the descent has reached [undefined] it stays there. *)
Lemma getNestedValue_loop_undefined keys :
  getNestedValue_loop Undefined keys = Undefined.
Proof.
  destruct keys as [|key rest]; reflexivity.
Qed.

(** A key that a plain object does not own reads as [undefined] when
    it is not a member of [Object.prototype] either. *)
Lemma get_absent fields key :
  assoc key fields = None ->
  String.eqb key "__proto__" = false ->
  mem key Object_prototype_functions = false ->
  get Array_prototype_functions (Plain fields) key = Undefined.
Proof.
  intros Ha Hp Hm. unfold get, from_Object_prototype.
  rewrite Ha, Hp, Hm. reflexivity.
Qed.

(** A member of [Object.prototype] is read through every plain object
    that does not own the key. *)
Lemma get_inherited fields key :
  assoc key fields = None ->
  mem key Object_prototype_functions = true ->
  get Array_prototype_functions (Plain fields) key = NativeFunction ObjectProto key.
Proof.
  intros Ha Hm. unfold get, from_Object_prototype. rewrite Ha, Hm.
  destruct (String.eqb key "__proto__") eqn:E; [|reflexivity].
  apply String.eqb_eq in E. subst key. discriminate Hm.
Qed.

(** A read under a name that no prototype defines finds what the
    value owns. *)
Lemma get_member j o key :
  as_object (Data j) = Some o ->
  prototype_member key = false ->
  get Array_prototype_functions o key =
  match member j key with
  | Some v => Data v
  | None => Undefined
  end.
Proof.
  unfold prototype_member. intros Ho Hk.
  apply orb_false_iff in Hk. destruct Hk as (Hk & Ha).
  apply orb_false_iff in Hk. destruct Hk as (Hp & Hm).
  destruct j; try discriminate Ho; injection Ho as <-; cbn [get member].
  - unfold from_Array_prototype, from_Object_prototype.
    destruct (String.eqb key "length"); [reflexivity|].
    rewrite Ha, Hp, Hm.
    destruct (array_index key) as [i|]; [|reflexivity].
    destruct (item_at items i); reflexivity.
  - unfold from_Object_prototype. rewrite Hp, Hm.
    destruct (assoc key fields); reflexivity.
Qed.

(** On a path without such names the loop of [getNestedValue] is the
    descent through own members. *)
Lemma getNestedValue_loop_descend j keys :
  forallb (fun key => negb (prototype_member key)) keys = true ->
  getNestedValue_loop (Data j) keys =
  match descend j keys with
  | Some v => Data v
  | None => Undefined
  end.
Proof.
  revert j. induction keys as [|key rest IH]; intros j Hk; [reflexivity|].
  cbn [forallb] in Hk. apply andb_true_iff in Hk. destruct Hk as (Hkey & Hrest).
  apply negb_true_iff in Hkey.
  cbn [getNestedValue_loop descend].
  destruct (as_object (Data j)) as [o|] eqn:Ho.
  - rewrite (get_member j o key Ho Hkey).
    destruct (member j key) as [next|]; [exact (IH next Hrest)|].
    apply getNestedValue_loop_undefined.
  - destruct j; try discriminate Ho; reflexivity.
Qed.

(** The metadata criterion of the source on such a path, for a
    resolved value that has a string form. *)
Lemma checkMetadata_criterion d req :
  from_json (metadata (body req)) = true ->
  plain_field d = true ->
  comparable d req = true ->
  checkMetadata req d = Ok (metadata_criterion d req).
Proof.
  unfold checkMetadata, metadata_criterion, plain_field, comparable, plain_path,
    getNestedValue, resolve.
  intros Hj Hp Hc.
  destruct (metadata_field d) as [path|]; [|reflexivity].
  destruct (Str.nonempty path); cbn [negb andb]; [|reflexivity].
  destruct (metadata (body req)) as [|j| |]; try discriminate Hj; [reflexivity|].
  destruct j as [| | | |items|fields]; try reflexivity;
    cbn [as_object];
    rewrite (getNestedValue_loop_descend _ _ Hp);
    match goal with
    | |- context [descend ?j ?keys] => destruct (descend j keys) as [value|]
    end; cbn [is_undefined]; try reflexivity;
    (destruct (metadata_value d) as [expected|]; [|reflexivity]);
    (destruct (Str.nonempty expected); [|reflexivity]);
    unfold toString; cbn [can_convert]; rewrite Hc; reflexivity.
Qed.

(** X30.  For a request whose metadata path names no member of a
    built-in prototype and resolves to a value that has a string form,
    [isClaudeCodeRequest] returns, and returns the detection rule:
    false when the policy is disabled, otherwise the inclusive OR of
    the header criterion and the metadata criterion; with neither
    detection field configured it returns false. *)
Theorem isClaudeCodeRequest_follows_rule (cfg : AugmentConfig) (req : AugmentRequest) :
  from_json (metadata (body req)) = true ->
  plain_field (detection cfg) = true ->
  comparable (detection cfg) req = true ->
  isClaudeCodeRequest cfg req = Ok (matches cfg req)
  /\ (enabled cfg = false -> isClaudeCodeRequest cfg req = Ok false)
  /\ (enabled cfg = true ->
      isClaudeCodeRequest cfg req =
      Ok (header_criterion (detection cfg) req || metadata_criterion (detection cfg) req))
  /\ (Str.configured (header_field (detection cfg)) = false ->
      Str.configured (metadata_field (detection cfg)) = false ->
      isClaudeCodeRequest cfg req = Ok false).
Proof.
  intros Hj Hp Hc.
  unfold isClaudeCodeRequest, matches.
  rewrite checkHeader_criterion, (checkMetadata_criterion _ _ Hj Hp Hc). cbn [bind].
  split; [|split; [|split]].
  - destruct (enabled cfg), (header_criterion _ _), (metadata_criterion _ _); reflexivity.
  - intros ->. reflexivity.
  - intros ->. simpl.
    destruct (header_criterion _ _), (metadata_criterion _ _); reflexivity.
  - intros Hh Hm.
    destruct (enabled cfg); simpl; [|reflexivity].
    unfold header_criterion, metadata_criterion.
    destruct (header_field (detection cfg)) as [hf|];
      destruct (metadata_field (detection cfg)) as [mf|]; simpl in *;
      rewrite ?Hh, ?Hm; reflexivity.
Qed.

(** C5, at two failing inputs.  Under the detection of the default
    configuration, a request without the header whose metadata holds an
    [agent] object that owns [toString] makes [isClaudeCodeRequest]
    throw a [TypeError] where the rule does not match; and for the
    metadata path [toString], which the metadata object does not hold,
    it returns true where the rule does not match. *)
Theorem isClaudeCodeRequest_departs_from_rule :
  isClaudeCodeRequest Samples.detecting_config Samples.opaque_agent_request
  = Throw to_primitive_error
  /\ matches Samples.detecting_config Samples.opaque_agent_request = false
  /\ isClaudeCodeRequest
       (mkConfig true None Undefined Undefined Samples.endpoint "k"
                 Samples.toString_detection)
       Samples.agent_request = Ok true
  /\ matches (mkConfig true None Undefined Undefined Samples.endpoint "k"
                       Samples.toString_detection)
             Samples.agent_request = false.
Proof.
  repeat split.
Qed.

(** C8, at the failing input.  The metadata object [{}] has no key
    [constructor], yet the lookup of the path [constructor] does not
    resolve to [undefined]: the read reaches the member of
    [Object.prototype], and the metadata criterion matches. *)
Theorem getNestedValue_inherited_member :
  getNestedValue (Data (JObj [])) "constructor" = NativeFunction ObjectProto "constructor"
  /\ checkMetadata Samples.empty_metadata_request Samples.constructor_detection = Ok true
  /\ isClaudeCodeRequest
       (mkConfig true None Undefined Undefined Samples.endpoint "k"
                 Samples.constructor_detection)
       Samples.empty_metadata_request = Ok true.
Proof.
  repeat split.
Qed.

End WithRuntime.

#[local] Existing Instance ReferenceRuntime.runtime.

(** The rule on the header of the test suite written in another case,
    on a disabled policy, on a policy without detection field, and on a
    nested metadata path with and without the expected value. *)
Lemma isClaudeCodeRequest_follows_rule_witness :
  isClaudeCodeRequest Samples.plain_config Samples.hello_request = Ok true
  /\ isClaudeCodeRequest
       (mkConfig false None Undefined Undefined Samples.endpoint "k" Samples.header_detection)
       Samples.hello_request = Ok false
  /\ isClaudeCodeRequest
       (mkConfig true None Undefined Undefined Samples.endpoint "k" Samples.no_detection)
       Samples.hello_request = Ok false
  /\ isClaudeCodeRequest MoreSamples.nested_config MoreSamples.nested_request = Ok true
  /\ isClaudeCodeRequest MoreSamples.nested_config Samples.agent_request = Ok false.
Proof.
  split; [|split; [|split; [|split]]].
  - rewrite (proj1 (isClaudeCodeRequest_follows_rule Samples.plain_config Samples.hello_request
                      eq_refl eq_refl eq_refl)).
    reflexivity.
  - apply (proj1 (proj2 (isClaudeCodeRequest_follows_rule
                           (mkConfig false None Undefined Undefined Samples.endpoint "k"
                                     Samples.header_detection)
                           Samples.hello_request eq_refl eq_refl eq_refl))).
    reflexivity.
  - apply (proj2 (proj2 (proj2 (isClaudeCodeRequest_follows_rule
                                  (mkConfig true None Undefined Undefined Samples.endpoint
                                            "k" Samples.no_detection)
                                  Samples.hello_request eq_refl eq_refl eq_refl))));
      reflexivity.
  - assert (Hp : plain_field (detection MoreSamples.nested_config) = true)
      by (vm_compute; reflexivity).
    rewrite (proj1 (isClaudeCodeRequest_follows_rule MoreSamples.nested_config
                      MoreSamples.nested_request eq_refl Hp eq_refl)).
    reflexivity.
  - assert (Hp : plain_field (detection MoreSamples.nested_config) = true)
      by (vm_compute; reflexivity).
    rewrite (proj1 (isClaudeCodeRequest_follows_rule MoreSamples.nested_config
                      Samples.agent_request eq_refl Hp eq_refl)).
    reflexivity.
Defined.

End DetectorProofs.

Module FinishReasonProofs.
Import JS Forwarder.

Section WithRuntime.
Context {rt : Runtime}.

(** The five entries of the table. *)
Lemma mapFinishReason_table :
  mapFinishReason (Str_ "stop") = Ok (Str_ "end_turn")
  /\ mapFinishReason (Str_ "length") = Ok (Str_ "max_tokens")
  /\ mapFinishReason (Str_ "tool_calls") = Ok (Str_ "tool_use")
  /\ mapFinishReason (Str_ "function_call") = Ok (Str_ "tool_use")
  /\ mapFinishReason (Str_ "content_filter") = Ok (Str_ "stop_sequence").
Proof.
  repeat split.
Qed.

(** A code outside the table falls back to [end_turn] when it is not
    the name of a member of [Object.prototype]. *)
Lemma mapFinishReason_fallback reason :
  assoc reason mapping = None ->
  String.eqb reason "__proto__" = false ->
  mem reason Object_prototype_functions = false ->
  mapFinishReason (Str_ reason) = Ok (Str_ "end_turn").
Proof.
  intros Ha Hp Hm. unfold mapFinishReason, toString. cbn [can_convert Str_ stringable bind
                                                          value_text json_text].
  unfold get, from_Object_prototype.
  rewrite Ha, Hp, Hm. reflexivity.
Qed.

(** The conversion of the reason to a property key is the one step
    that can throw. *)
Lemma mapFinishReason_returns reason :
  (can_convert reason = true ->
   mapFinishReason reason =
   Ok (or_else (get Array_prototype_functions (Plain mapping) (value_text reason))
               (Str_ "end_turn")))
  /\ (can_convert reason = false -> mapFinishReason reason = Throw to_primitive_error).
Proof.
  unfold mapFinishReason, toString. split; intros ->; reflexivity.
Qed.

(** C6, at the failing input.  The finish-reason code [constructor] is
    not in the table, and [mapFinishReason] does not map it to
    [end_turn]: [mapping[reason]] reads the member of
    [Object.prototype], which is truthy, so the fallback is not taken and
    the result is that function, not a string. *)
Theorem mapFinishReason_inherited_member :
  mapFinishReason (Str_ "constructor") = Ok (NativeFunction ObjectProto "constructor")
  /\ mapFinishReason (Str_ "constructor") <> Ok (Str_ "end_turn")
  /\ assoc "constructor" mapping = None.
Proof.
  repeat split. discriminate.
Qed.

End WithRuntime.

End FinishReasonProofs.

Module AugmenterProofs.
Import JS Types Augmenter Augmentation.

Section WithRuntime.
Context {rt : Runtime}.

Lemma strict_eq_string_true v s : strict_eq_string v s = true <-> v = Str_ s.
Proof.
  unfold strict_eq_string, Str_. split.
  - destruct v as [|[]| |]; try discriminate.
    intros H. apply String.eqb_eq in H. subst. reflexivity.
  - intros ->. apply String.eqb_refl.
Qed.

Lemma strict_eq_string_false v s : v <> Str_ s -> strict_eq_string v s = false.
Proof.
  intros H. destruct (strict_eq_string v s) eqn:E; [|reflexivity].
  apply strict_eq_string_true in E. contradiction.
Qed.

Lemma strict_eq_string_neq v s : strict_eq_string v s = false -> v <> Str_ s.
Proof.
  intros H E. apply strict_eq_string_true in E. congruence.
Qed.

Lemma read_non_null j name : non_null j -> read j name = Ok (field j name).
Proof.
  unfold non_null. destruct j; try reflexivity. congruence.
Qed.

Lemma field_non_null j name v : field j name = Data v -> non_null j.
Proof.
  unfold non_null. intros H ->. discriminate H.
Qed.

Lemma read_ok j name v : read j name = Ok v -> non_null j.
Proof.
  unfold non_null. intros H ->. discriminate H.
Qed.

(** *** Conversion to text *)

Lemma toString_convertible v : can_convert v = true -> toString v = Ok (value_text v).
Proof.
  unfold toString. intros ->. reflexivity.
Qed.

Lemma toString_ok v text :
  toString v = Ok text -> can_convert v = true /\ text = value_text v.
Proof.
  unfold toString. destruct (can_convert v); [|discriminate].
  intros [= <-]. split; reflexivity.
Qed.


(** [join] on truthy parts that have a string form. *)
Lemma element_texts_truthy parts :
  Forall (fun p => truthy p = true /\ can_convert p = true) parts ->
  element_texts parts = Ok (map value_text parts).
Proof.
  induction 1 as [|p rest (Ht & Hc) _ IH]; [reflexivity|].
  cbn [element_texts map]. rewrite IH.
  destruct p as [|[]| |]; try discriminate Ht;
    rewrite (toString_convertible _ Hc); reflexivity.
Qed.


(** *** One block *)

(** A block is converted as section 4.2 says. *)
Lemma convertBlock_converts block pushed :
  converts_to block pushed -> convertBlock block = Ok pushed.
Proof.
  intros H.
  destruct H as [block Hty | block mt dt (Hty & Hs) Hm Hd | block Hty Hs
                | block (Hty & Hb & Hu) | block Hty | block Hty
                | block (Hn & H1 & H2 & H3 & H4)];
    unfold convertBlock;
    try rewrite (read_non_null block "type" (field_non_null block "type" _ Hty));
    try rewrite (read_non_null block "type" Hn);
    cbn [bind]; try rewrite Hty.
  - reflexivity.
  - cbn. rewrite Hs. cbn. rewrite Hm. cbn [bind]. rewrite Hd. reflexivity.
  - cbn. rewrite Hs. reflexivity.
  - cbn. rewrite (strict_eq_string_false _ _ Hb), (strict_eq_string_false _ _ Hu).
    reflexivity.
  - reflexivity.
  - reflexivity.
  - rewrite (strict_eq_string_false _ _ H1), (strict_eq_string_false _ _ H2),
      (strict_eq_string_false _ _ H3), (strict_eq_string_false _ _ H4). reflexivity.
Qed.

(** Every block that is not [null] and whose inline image parts have a
    string form has a counterpart. *)
Lemma convertible_block_converts block :
  convertible_block block -> exists pushed, converts_to block pushed.
Proof.
  intros (Hn & Hi).
  destruct (strict_eq_string (field block "type") "text") eqn:E1.
  { apply strict_eq_string_true in E1. eexists. exact (text_to_text block E1). }
  destruct (strict_eq_string (field block "type") "image") eqn:E2.
  { apply strict_eq_string_true in E2.
    destruct (strict_eq_string (opt_field (field block "source") "type") "base64") eqn:E3.
    { apply strict_eq_string_true in E3.
      destruct (Hi (conj E2 E3)) as (Hm & Hd).
      eexists. exact (inline_image_to_reference block _ _ (conj E2 E3)
                        (toString_convertible _ Hm) (toString_convertible _ Hd)). }
    destruct (strict_eq_string (opt_field (field block "source") "type") "url") eqn:E4.
    { apply strict_eq_string_true in E4. eexists.
      exact (remote_image_to_reference block E2 E4). }
    eexists. apply other_image_dropped.
    split; [exact E2|]. split; apply strict_eq_string_neq; assumption. }
  destruct (strict_eq_string (field block "type") "tool_use") eqn:E3.
  { apply strict_eq_string_true in E3. eexists. exact (tool_invocation block E3). }
  destruct (strict_eq_string (field block "type") "tool_result") eqn:E4.
  { apply strict_eq_string_true in E4. eexists. exact (tool_result block E4). }
  eexists. apply unrecognized_unchanged.
  split; [exact Hn|]. repeat split; apply strict_eq_string_neq; assumption.
Qed.

(** The conversion of a block returns only on such a block. *)
Lemma convertBlock_ok block pushed :
  convertBlock block = Ok pushed -> convertible_block block.
Proof.
  unfold convertBlock, convertible_block, inline_image. intros H.
  destruct (read block "type") as [ty|e] eqn:Er; [|discriminate H].
  pose proof (read_ok block "type" ty Er) as Hn.
  split; [exact Hn|]. intros (Hty & Hs).
  rewrite (read_non_null block "type" Hn) in Er. injection Er as <-.
  cbn [bind] in H. rewrite Hty, Hs in H. cbn in H.
  destruct (toString (opt_field (field block "source") "media_type")) as [mt|e] eqn:Em;
    [|discriminate H].
  cbn [bind] in H.
  destruct (toString (opt_field (field block "source") "data")) as [dt|e] eqn:Ed;
    [|discriminate H].
  split; [exact (proj1 (toString_ok _ _ Em)) | exact (proj1 (toString_ok _ _ Ed))].
Qed.

Lemma convertBlock_unsupported_image block :
  unsupported_image block -> convertBlock block = Ok [].
Proof.
  intros H. exact (convertBlock_converts block [] (other_image_dropped block H)).
Qed.

Lemma convertBlock_unrecognized block :
  unrecognized block -> convertBlock block = Ok [OPass block].
Proof.
  intros H. exact (convertBlock_converts block _ (unrecognized_unchanged block H)).
Qed.

(** *** The loop over the blocks *)

Lemma convertBlocks_app pre post acc :
  convertBlocks (pre ++ post) acc =
  (converted <- convertBlocks pre acc ;; convertBlocks post converted).
Proof.
  revert acc. induction pre as [|block pre IH]; intros acc; simpl; [reflexivity|].
  destruct (convertBlock block) as [pushed|e]; simpl; [apply IH | reflexivity].
Qed.

Lemma convertBlocks_converts blocks groups acc :
  Forall2 converts_to blocks groups ->
  convertBlocks blocks acc = Ok (acc ++ concat groups).
Proof.
  intros H. revert acc. induction H as [|block pushed blocks groups Hb _ IH]; intros acc.
  - cbn. rewrite app_nil_r. reflexivity.
  - cbn [convertBlocks concat]. rewrite (convertBlock_converts block pushed Hb).
    cbn [bind]. rewrite IH, app_assoc. reflexivity.
Qed.

Lemma convertible_blocks_convert blocks :
  Forall convertible_block blocks -> exists groups, Forall2 converts_to blocks groups.
Proof.
  induction 1 as [|block rest Hb _ (groups & IH)].
  - exists []. constructor.
  - destruct (convertible_block_converts block Hb) as (pushed & Hp).
    exists (pushed :: groups). constructor; assumption.
Qed.

Lemma convertBlocks_total content acc :
  Forall convertible_block content ->
  exists converted, convertBlocks content acc = Ok converted.
Proof.
  intros H. destruct (convertible_blocks_convert content H) as (groups & Hg).
  eexists. exact (convertBlocks_converts content groups acc Hg).
Qed.

Lemma convertBlocks_ok content acc converted :
  convertBlocks content acc = Ok converted -> Forall convertible_block content.
Proof.
  revert acc. induction content as [|block rest IH]; intros acc H; [constructor|].
  cbn [convertBlocks] in H.
  destruct (convertBlock block) as [pushed|e] eqn:Eb; [|discriminate H].
  constructor; [exact (convertBlock_ok block pushed Eb) | exact (IH _ H)].
Qed.

(** C10.  An image block whose source type is neither [base64] nor
    [url] (an absent source included) yields no output block: the
    converted content is the same as if the block were not there; a block
    of unrecognized top-level type is pushed through unchanged. *)
Theorem convertContent_drops_unsupported_image (image other : JSON) (pre post : list JSON) :
  unsupported_image image ->
  unrecognized other ->
  convertBlock image = Ok []
  /\ convertBlock other = Ok [OPass other]
  /\ convertContent (Data (JArr (pre ++ image :: post))) =
     convertContent (Data (JArr (pre ++ post))).
Proof.
  intros Hi Ho.
  split; [exact (convertBlock_unsupported_image image Hi)|].
  split; [exact (convertBlock_unrecognized other Ho)|].
  unfold convertContent. simpl.
  rewrite !convertBlocks_app.
  destruct (convertBlocks pre []) as [converted|e]; simpl; [|reflexivity].
  rewrite (convertBlock_unsupported_image image Hi). simpl.
  rewrite app_nil_r. reflexivity.
Qed.

(** *** Canonicalization *)

Lemma canonical_single b :
  out_type b = Str_ "text" -> canonical [b] = Bare (out_text b).
Proof.
  intros H. unfold canonical. rewrite H. reflexivity.
Qed.

Lemma canonical_bare converted :
  (exists t, canonical converted = Bare t) <-> single_text_block converted.
Proof.
  unfold single_text_block, canonical. split.
  - intros [t H]. destruct converted as [|b [|b' rest]]; try discriminate.
    destruct (strict_eq_string (out_type b) "text") eqn:E; [|discriminate].
    exists b. split; [reflexivity|]. apply strict_eq_string_true. exact E.
  - intros (b & -> & Hty). exists (out_text b). rewrite Hty. reflexivity.
Qed.

(** The closing conditional of [convertContent] is the
    canonicalization rule. *)
Lemma canonical_collapses converted : collapses_to converted (canonical converted).
Proof.
  destruct converted as [|b [|b' rest]].
  - apply keep_sequence. intros (b & Hb & _). discriminate.
  - destruct (strict_eq_string (out_type b) "text") eqn:E.
    + apply strict_eq_string_true in E. rewrite (canonical_single b E).
      exact (collapse_single_text b E).
    + unfold canonical. rewrite E. apply keep_sequence.
      intros (b0 & [= <-] & Hty). apply strict_eq_string_true in Hty. congruence.
  - apply keep_sequence. intros (b0 & Hb & _). discriminate.
Qed.

(** Section 4.2 converts a block in one way. *)
Lemma converts_to_functional block a b :
  converts_to block a -> converts_to block b -> a = b.
Proof.
  intros Ha Hb.
  destruct Ha; destruct Hb; try reflexivity;
    unfold inline_image, unsupported_image, unrecognized, Str_ in *;
    try (exfalso; intuition congruence).
  congruence.
Qed.

(** The loop returns only when section 4.2 converts every block, and
    returns the converted blocks. *)
Lemma convertBlocks_groups blocks converted :
  convertBlocks blocks [] = Ok converted ->
  exists groups, Forall2 converts_to blocks groups /\ converted = concat groups.
Proof.
  intros H.
  destruct (convertible_blocks_convert blocks (convertBlocks_ok blocks [] converted H))
    as (groups & Hg).
  exists groups. split; [exact Hg|].
  rewrite (convertBlocks_converts blocks groups [] Hg) in H. injection H as <-. reflexivity.
Qed.

(** What [convertContent] returns on a sequence that section 4.2
    converts. *)
Lemma convertContent_converted blocks groups :
  Forall2 converts_to blocks groups ->
  convertContent (Data (JArr blocks)) = Ok (canonical (concat groups)).
Proof.
  intros H. unfold convertContent.
  cbn [typeof String.eqb Ascii.eqb Bool.eqb isArray negb elements].
  rewrite (convertBlocks_converts blocks groups [] H). reflexivity.
Qed.

(** [convertContent] returns on such sequences only. *)
Lemma convertContent_returns blocks content :
  convertContent (Data (JArr blocks)) = Ok content ->
  exists groups, Forall2 converts_to blocks groups /\ content = canonical (concat groups).
Proof.
  intros H. unfold convertContent in H.
  cbn [typeof String.eqb Ascii.eqb Bool.eqb isArray negb elements] in H.
  destruct (convertBlocks blocks []) as [converted|e] eqn:Ec; [|discriminate H].
  cbn [bind] in H. injection H as <-.
  destruct (convertBlocks_groups blocks converted Ec) as (groups & Hg & ->).
  exists groups. split; [exact Hg | reflexivity].
Qed.

(** C7.  For every content given as a sequence of blocks,
    [convertContent] returns a bare text exactly when the conversion of
    section 4.2 yields one block and that block has type text.  When
    section 4.2 converts the blocks to [groups], [convertContent]
    returns the canonical form of the converted sequence: the text of
    the single text block, or else the sequence as it is, a result of
    two or more blocks always being kept; and [convertContent] returns
    nothing else. *)
Theorem convertContent_canonical (blocks : list JSON) :
  ((exists text, convertContent (Data (JArr blocks)) = Ok (Bare text))
   <-> (exists groups,
          Forall2 converts_to blocks groups /\ single_text_block (concat groups)))
  /\ (forall groups : list (list OutBlock),
        Forall2 converts_to blocks groups ->
        exists content,
          convertContent (Data (JArr blocks)) = Ok content
          /\ collapses_to (concat groups) content
          /\ ((exists text, content = Bare text) <-> single_text_block (concat groups))
          /\ (2 <= List.length (concat groups) -> content = Blocks (concat groups)))
  /\ (forall content : OutContent,
        convertContent (Data (JArr blocks)) = Ok content ->
        exists groups,
          Forall2 converts_to blocks groups /\ collapses_to (concat groups) content).
Proof.
  split; [|split].
  - split.
    + intros (text & H).
      destruct (convertContent_returns blocks _ H) as (groups & Hg & Hc).
      exists groups. split; [exact Hg|].
      apply canonical_bare. exists text. symmetry. exact Hc.
    + intros (groups & Hg & Hs).
      destruct (proj2 (canonical_bare (concat groups)) Hs) as (text & Ht).
      exists text. rewrite (convertContent_converted blocks groups Hg), Ht. reflexivity.
  - intros groups H. exists (canonical (concat groups)).
    split; [exact (convertContent_converted blocks groups H)|].
    split; [apply canonical_collapses|]. split; [apply canonical_bare|].
    destruct (concat groups) as [|b [|b' rest]]; simpl; intros Hl; try lia. reflexivity.
  - intros content H.
    destruct (convertContent_returns blocks content H) as (groups & Hg & ->).
    exists groups. split; [exact Hg | apply canonical_collapses].
Qed.

(** *** Validation *)

Lemma validateConfig_valid cfg :
  valid cfg -> validateConfig cfg = mkResult true false None None.
Proof.
  intros (He & Ha & Hi & Hc). unfold validateConfig.
  destruct (Str.nonempty (openrouter_endpoint cfg)) eqn:E1;
    [|apply StrFacts.nonempty_false in E1; contradiction].
  destruct (Str.nonempty (openrouter_auth cfg)) eqn:E2;
    [|apply StrFacts.nonempty_false in E2; contradiction].
  simpl.
  destruct (truthy (additional_instructions cfg)); simpl.
  - rewrite (Hi eq_refl). simpl.
    destruct (truthy (extra_context cfg)); simpl; [|reflexivity].
    rewrite (Hc eq_refl). reflexivity.
  - destruct (truthy (extra_context cfg)); simpl; [|reflexivity].
    rewrite (Hc eq_refl). reflexivity.
Qed.

(** A violated rule makes [validateConfig] fail with status 400 and a
    message that names the first offending field. *)
Lemma validateConfig_violations cfg :
  violations cfg <> [] ->
  exists name message,
    hd_error (violations cfg) = Some name
    /\ Str.includes name message = true
    /\ validateConfig cfg = mkResult false false (Some message) (Some 400%Z).
Proof.
  unfold violations, validateConfig, failure.
  destruct (Str.nonempty (openrouter_endpoint cfg)); simpl.
  2: { intros _. do 2 eexists. repeat split. reflexivity. }
  destruct (Str.nonempty (openrouter_auth cfg)); simpl.
  2: { intros _. do 2 eexists. repeat split. reflexivity. }
  destruct (truthy (additional_instructions cfg)
            && negb (isArray (additional_instructions cfg))); simpl.
  { intros _. do 2 eexists. repeat split. reflexivity. }
  destruct (truthy (extra_context cfg)
            && negb (String.eqb (typeof (extra_context cfg)) "object")); simpl.
  { intros _. do 2 eexists. repeat split. reflexivity. }
  congruence.
Qed.

(** [validateConfig] fails exactly when a rule is violated. *)
Lemma validateConfig_success cfg :
  success (validateConfig cfg) = true <-> violations cfg = [].
Proof.
  unfold violations, validateConfig, failure.
  destruct (Str.nonempty (openrouter_endpoint cfg)); simpl;
    [|split; discriminate].
  destruct (Str.nonempty (openrouter_auth cfg)); simpl;
    [|split; discriminate].
  destruct (truthy (additional_instructions cfg)
            && negb (isArray (additional_instructions cfg))); simpl;
    [split; discriminate|].
  destruct (truthy (extra_context cfg)
            && negb (String.eqb (typeof (extra_context cfg)) "object")); simpl;
    split; try discriminate; reflexivity.
Qed.

(** *** System content assembly *)

Lemma buildSystemPrompt_loop_parts replaced items parts :
  Forall non_null items ->
  buildSystemPrompt_loop replaced items parts =
  Ok (parts ++ if replaced then [] else flat_map segment_text items).
Proof.
  intros H. revert parts. induction H as [|item rest Hi _ IH]; intros parts; simpl.
  - destruct replaced; rewrite app_nil_r; reflexivity.
  - rewrite (read_non_null item "type" Hi). simpl. rewrite IH.
    unfold segment_text.
    destruct (strict_eq_string (field item "type") "text" && truthy (field item "text"));
      destruct replaced; simpl; rewrite <- ?app_assoc; reflexivity.
Qed.


Lemma convertible_segments_non_null cfg items :
  Forall (convertible_segment cfg) items -> Forall non_null items.
Proof.
  apply Forall_impl. intros item (Hn & _). exact Hn.
Qed.

(** The texts that are forwarded are truthy and have a string form. *)
Lemma segment_texts_convertible cfg items :
  Str.configured (modified_system_prompt cfg) = false ->
  Forall (convertible_segment cfg) items ->
  Forall (fun p => truthy p = true /\ can_convert p = true) (flat_map segment_text items).
Proof.
  intros Hr H. induction H as [|item rest (Hn & Hc) _ IH]; [constructor|].
  cbn [flat_map]. apply Forall_app. split; [|exact IH].
  unfold segment_text.
  destruct (strict_eq_string (field item "type") "text") eqn:Et; cbn [andb]; [|constructor].
  destruct (truthy (field item "text")) eqn:Ey; [|constructor].
  apply strict_eq_string_true in Et.
  constructor; [split; [exact Ey | exact (Hc Hr Et)] | constructor].
Qed.

Lemma buildSystemPrompt_text cfg req :
  Forall (convertible_segment cfg) (elements (system (body req))) ->
  buildSystemPrompt cfg (system (body req)) =
  Ok (match modified_system_prompt cfg with
      | Some p => if Str.nonempty p then p else inbound_system_text req
      | None => inbound_system_text req
      end).
Proof.
  intros H. unfold buildSystemPrompt, inbound_system_text, Array_join.
  pose proof (segment_texts_convertible cfg (elements (system (body req)))) as Ht.
  unfold Str.configured in *.
  destruct (truthy (system (body req)) && isArray (system (body req))).
  - rewrite (buildSystemPrompt_loop_parts _ _ _ (convertible_segments_non_null cfg _ H)).
    cbn [bind].
    destruct (modified_system_prompt cfg) as [p|]; [destruct (Str.nonempty p)|].
    + reflexivity.
    + cbn [app]. rewrite (element_texts_truthy _ (Ht eq_refl H)). reflexivity.
    + cbn [app]. rewrite (element_texts_truthy _ (Ht eq_refl H)). reflexivity.
  - cbn [bind]. destruct (modified_system_prompt cfg) as [p|]; [destruct (Str.nonempty p)|];
      reflexivity.
Qed.



(** *** The inbound messages *)

Lemma convertContent_total c :
  convertible_content c -> exists o, convertContent c = Ok o.
Proof.
  unfold convertible_content, convertContent. intros H.
  destruct (String.eqb (typeof c) "string"); [eexists; reflexivity|].
  destruct (isArray c); cbn [negb].
  - destruct (convertBlocks_total (elements c) [] H) as [converted ->].
    eexists; reflexivity.
  - rewrite (toString_convertible c H). eexists; reflexivity.
Qed.


(** What [convertContent] returns is the conversion of section 4.2. *)
Lemma convertContent_content c o : convertContent c = Ok o -> content_to c o.
Proof.
  unfold convertContent. intros H.
  destruct (String.eqb (typeof c) "string") eqn:Es.
  - injection H as <-. destruct c as [|[]| |]; try discriminate Es. apply plain_text.
  - destruct (isArray c) eqn:Ea; cbn [negb] in H.
    + destruct (convertBlocks (elements c) []) as [converted|e] eqn:Ec; [|discriminate H].
      cbn [bind] in H. injection H as <-.
      destruct (convertBlocks_groups _ _ Ec) as (groups & Hg & ->).
      exact (block_sequence c groups _ Ea Hg (canonical_collapses _)).
    + destruct (toString c) as [text|e] eqn:Et; [|discriminate H].
      cbn [bind] in H. injection H as <-.
      apply other_value; [intros E; rewrite E in Es; discriminate Es | exact Ea | exact Et].
Qed.

Lemma convertMessages_loop_translates msgs acc :
  Forall (fun m => role m = "system" \/ convertible_content (content m)) msgs ->
  exists conv,
    convertMessages_loop msgs acc = Ok (acc ++ conv)
    /\ Forall2 translates (filter non_system msgs) conv.
Proof.
  intros H. revert acc. induction H as [|m rest Hm _ IH]; intros acc; simpl.
  - exists []. rewrite app_nil_r. split; [reflexivity | constructor].
  - unfold non_system at 1.
    destruct (String.eqb (role m) "system") eqn:E; simpl.
    + apply IH.
    + destruct Hm as [Hm|Hm]; [rewrite Hm in E; discriminate|].
      destruct (convertContent_total (content m) Hm) as [o Ho]. rewrite Ho. simpl.
      destruct (IH (acc ++ [mkOut (role m) o])) as (conv & Hc & Ht).
      exists (mkOut (role m) o :: conv). split.
      * rewrite Hc, <- app_assoc. reflexivity.
      * constructor; [split; [reflexivity | exact (convertContent_content _ _ Ho)] | exact Ht].
Qed.



Lemma convertTools_ok ts out : convertTools ts = Ok out -> Forall non_null ts.
Proof.
  revert out. induction ts as [|t rest IH]; intros out H; [constructor|].
  cbn [convertTools] in H. unfold convertTool in H.
  destruct (read t "type") as [ty|e] eqn:Er; [|discriminate H].
  cbn [bind] in H.
  destruct (convertTools rest) as [outs|e] eqn:Ec.
  - constructor; [exact (read_ok t "type" ty Er) | exact (IH outs eq_refl)].
  - destruct (strict_eq_string ty "function"); discriminate H.
Qed.




End WithRuntime.

End AugmenterProofs.

Module MiddlewareProofs.
Import JS Types Augmenter Forwarder Middleware Augmentation ErrorHandling.
Import AugmenterProofs.

Section WithRuntime.
Context {rt : Runtime}.

Lemma isClaudeCodeRequest_enabled cfg req :
  Detector.isClaudeCodeRequest cfg req = Ok true -> enabled cfg = true.
Proof.
  unfold Detector.isClaudeCodeRequest. destruct (enabled cfg); [reflexivity | discriminate].
Qed.

(** What [handle] does with a request that the detector matches. *)
Lemma handle_detected cfg req transport now :
  Detector.isClaudeCodeRequest cfg req = Ok true ->
  handle cfg transport now req =
  match augmentRequest cfg req with
  | Throw e => mkRun [] (Throw e)
  | Ok (augmentedBody, result) =>
      if negb (success result) then
        mkRun [ ReplyStatus (code_or (errorCode result) 400);
                ReplySend (ErrorEnvelope "invalid_request_error"
                                         (opt_string (error result))) ]
              (Ok true)
      else
        let call := fetch_call cfg augmentedBody in
        let forwardResult := forward (transport call) in
        if negb (fw_success forwardResult) then
          mkRun [ Fetch call;
                  ReplyStatus (code_or (fw_errorCode forwardResult) 500);
                  ReplySend (ErrorEnvelope
                               (match fw_errorCode forwardResult with
                                | Some 502%Z => "api_error"
                                | _ => "invalid_request_error"
                                end)
                               (fw_error forwardResult)) ]
                (Ok true)
        else
          match fw_response forwardResult with
          | None => mkRun [Fetch call] (Ok true)
          | Some response =>
              if not_false (stream (body req)) then
                let hs := [ ReplyHeader "Content-Type" "text/event-stream";
                            ReplyHeader "Cache-Control" "no-cache";
                            ReplyHeader "Connection" "keep-alive" ] in
                match handleStreamingResponse now response with
                | Throw e => mkRun (Fetch call :: hs) (Throw e)
                | Ok events =>
                    mkRun (Fetch call :: hs ++ [ReplySend (EventStream events)]) (Ok true)
                end
              else
                match handleNonStreamingResponse now response with
                | Throw e => mkRun [Fetch call] (Throw e)
                | Ok data => mkRun [Fetch call; ReplySend (MessageBody data)] (Ok true)
                end
          end
  end.
Proof.
  intros Hd. unfold handle.
  rewrite (isClaudeCodeRequest_enabled cfg req Hd), Hd. reflexivity.
Qed.

(** A request that the detector does not match, or on which it throws,
    causes no effect. *)
Lemma handle_undetected cfg req transport now :
  Detector.isClaudeCodeRequest cfg req <> Ok true ->
  effects (handle cfg transport now req) = [].
Proof.
  intros Hd. unfold handle.
  destruct (enabled cfg); cbn [negb]; [|reflexivity].
  destruct (Detector.isClaudeCodeRequest cfg req) as [[|]|e]; try reflexivity.
  congruence.
Qed.

(** Every field that a test of [validateConfig] rejects is an offending
    field in the words of the claim. *)
Lemma violations_claimed cfg name :
  In name (violations cfg) -> In name (claimed_violations cfg).
Proof.
  unfold violations, claimed_violations, Str.nonempty, present.
  intros H. repeat (apply in_app_or in H; destruct H as [H|H]).
  - destruct (String.eqb (openrouter_endpoint cfg) EmptyString); [|destruct H].
    apply in_or_app. left. exact H.
  - destruct (String.eqb (openrouter_auth cfg) EmptyString); [|destruct H].
    apply in_or_app. right. apply in_or_app. left. exact H.
  - destruct (truthy (additional_instructions cfg)) eqn:Et; [|destruct H].
    destruct (isArray (additional_instructions cfg)); [destruct H|].
    assert (Hp : is_undefined (additional_instructions cfg) = false)
      by (destruct (additional_instructions cfg); [discriminate Et | | |]; reflexivity).
    rewrite Hp. apply in_or_app. right. apply in_or_app. right. apply in_or_app. left.
    exact H.
  - destruct (truthy (extra_context cfg)) eqn:Et; [|destruct H].
    destruct (String.eqb (typeof (extra_context cfg)) "object") eqn:Eo; [destruct H|].
    assert (Hp : is_undefined (extra_context cfg) = false)
      by (destruct (extra_context cfg); [discriminate Et | | |]; reflexivity).
    assert (Ho : is_json_object (extra_context cfg) = false)
      by (destruct (extra_context cfg) as [|[]| |]; try reflexivity; discriminate Eo).
    rewrite Hp, Ho. apply in_or_app. right. apply in_or_app. right. apply in_or_app. right.
    exact H.
Qed.

(** C4, amended.  When a test of [validateConfig] fails (empty
    endpoint, empty token, a truthy [additional_instructions] that is
    not an array, a truthy [extra_context] that is not of type object),
    [augmentRequest] returns the empty outbound request with a failure
    result of status 400 whose message names the first offending field,
    and [handle] makes no [fetch] call; for a request that the detector
    matches it replies 400 with an [invalid_request_error] envelope
    carrying that message, and for a request that the detector does not
    match it does nothing. *)
Theorem handle_invalid_policy (cfg : AugmentConfig) (req : AugmentRequest)
        (transport : FetchCall -> FetchOutcome) (now : Z) :
  violations cfg <> [] ->
  exists name message,
    hd_error (violations cfg) = Some name
    /\ In name (claimed_violations cfg)
    /\ Str.includes name message = true
    /\ augmentRequest cfg req =
       Ok (empty_request, mkResult false false (Some message) (Some 400%Z))
    /\ existsb is_fetch (effects (handle cfg transport now req)) = false
    /\ (Detector.isClaudeCodeRequest cfg req = Ok true ->
        handle cfg transport now req =
        mkRun (error_reply 400 "invalid_request_error" message) (Ok true))
    /\ (Detector.isClaudeCodeRequest cfg req = Ok false ->
        handle cfg transport now req = mkRun [] (Ok false)).
Proof.
  intros Hv.
  destruct (validateConfig_violations cfg Hv) as (name & message & Hn & Hi & Hval).
  exists name, message.
  assert (Ha : augmentRequest cfg req =
               Ok (empty_request, mkResult false false (Some message) (Some 400%Z))).
  { unfold augmentRequest. rewrite Hval. reflexivity. }
  assert (Hh : Detector.isClaudeCodeRequest cfg req = Ok true ->
               handle cfg transport now req =
               mkRun (error_reply 400 "invalid_request_error" message) (Ok true)).
  { intros Hd. rewrite (handle_detected cfg req transport now Hd), Ha. reflexivity. }
  split; [exact Hn|].
  split.
  { apply violations_claimed. destruct (violations cfg) as [|first rest]; [discriminate Hn|].
    injection Hn as ->. left. reflexivity. }
  split; [exact Hi|]. split; [exact Ha|]. split; [|split; [exact Hh|]].
  - destruct (Detector.isClaudeCodeRequest cfg req) as [[|]|e] eqn:Hd.
    + rewrite (Hh eq_refl). reflexivity.
    + rewrite (handle_undetected cfg req transport now); [reflexivity|].
      rewrite Hd. discriminate.
    + rewrite (handle_undetected cfg req transport now); [reflexivity|].
      rewrite Hd. discriminate.
  - intros Hd. unfold handle. rewrite Hd. destruct (enabled cfg); reflexivity.
Qed.

(** The test of the [catch] clause, in words. *)
Lemma is_network_error_iff e : is_network_error e = true <-> network_failure e.
Proof.
  unfold is_network_error, network_failure, network_codes, mem. split.
  - intros H. apply orb_true_iff in H. destruct H as [H|H].
    + destruct (err_code e) as [c|]; [|discriminate]. simpl in H.
      repeat (apply orb_true_iff in H; destruct H as [H|H]);
        try discriminate; apply String.eqb_eq in H; subst; auto.
    + apply String.eqb_eq in H. auto.
  - intros [H|[H|[H|H]]]; rewrite H; try reflexivity.
    rewrite String.eqb_refl. apply orb_true_r.
Qed.

Lemma is_network_error_false e : ~ network_failure e -> is_network_error e = false.
Proof.
  intros H. destruct (is_network_error e) eqn:E; [|reflexivity].
  apply is_network_error_iff in E. contradiction.
Qed.

(** What [handle] does once the request is augmented and [fetch]
    rejects. *)
Lemma handle_rejected cfg req transport now augmentedBody result e :
  Detector.isClaudeCodeRequest cfg req = Ok true ->
  augmentRequest cfg req = Ok (augmentedBody, result) ->
  success result = true ->
  transport (fetch_call cfg augmentedBody) = Rejected e ->
  handle cfg transport now req =
  mkRun [ Fetch (fetch_call cfg augmentedBody);
          ReplyStatus (code_or (fw_errorCode (forward_catch e)) 500);
          ReplySend (ErrorEnvelope
                       (match fw_errorCode (forward_catch e) with
                        | Some 502%Z => "api_error"
                        | _ => "invalid_request_error"
                        end)
                       (fw_error (forward_catch e))) ]
        (Ok true).
Proof.
  intros Hd Ha Hs Ht.
  rewrite (handle_detected cfg req transport now Hd), Ha, Hs. cbv zeta. rewrite Ht.
  cbn [negb forward].
  unfold forward_catch. destruct (is_network_error e); reflexivity.
Qed.

(** C2, amended.  When the [fetch] call throws an exception whose code
    is [ECONNREFUSED], [ENOTFOUND] or [ETIMEDOUT], or whose name is
    [TypeError], [forward] returns a failure result with errorCode 502
    and a message that starts with [Network error], and the middleware
    replies with an [api_error] envelope and status 502; for every other
    exception [forward] returns errorCode 500 with a [Forward error]
    message and the middleware replies with an [invalid_request_error]
    envelope and status 500. *)
Theorem forward_transport_exception (cfg : AugmentConfig) (req : AugmentRequest)
        (transport : FetchCall -> FetchOutcome) (now : Z)
        (augmentedBody : OpenRouterRequest) (result : AugmentResult) (e : JSError) :
  Detector.isClaudeCodeRequest cfg req = Ok true ->
  augmentRequest cfg req = Ok (augmentedBody, result) ->
  success result = true ->
  transport (fetch_call cfg augmentedBody) = Rejected e ->
  (network_failure e ->
   forward (Rejected e) =
     mkForward false None (Str_ (network_error_message e)) (Some 502%Z)
   /\ Str.includes "Network error" (network_error_message e) = true
   /\ handle cfg transport now req =
      mkRun (Fetch (fetch_call cfg augmentedBody)
               :: error_reply 502 "api_error" (network_error_message e))
            (Ok true))
  /\ (~ network_failure e ->
      forward (Rejected e) =
        mkForward false None (Str_ (forward_error_message e)) (Some 500%Z)
      /\ handle cfg transport now req =
         mkRun (Fetch (fetch_call cfg augmentedBody)
                  :: error_reply 500 "invalid_request_error" (forward_error_message e))
               (Ok true)).
Proof.
  intros Hd Ha Hs Ht.
  rewrite (handle_rejected cfg req transport now augmentedBody result e Hd Ha Hs Ht).
  cbn [forward]. unfold forward_catch. split; intros Hn.
  - apply is_network_error_iff in Hn. rewrite Hn. repeat split.
  - rewrite (is_network_error_false e Hn). split; reflexivity.
Qed.

End WithRuntime.

End MiddlewareProofs.

Module StreamProofs.
Import JS Types Forwarder Transcoding.

(** *** Lines across chunk boundaries *)

Lemma removelast_cons {A} (a : A) l : l <> [] -> removelast (a :: l) = a :: removelast l.
Proof.
  destruct l; [congruence | reflexivity].
Qed.

Lemma last_cons {A} (a : A) l d : l <> [] -> last (a :: l) d = last l d.
Proof.
  destruct l; [congruence | reflexivity].
Qed.

Lemma last_append {A} (l l' : list A) d : l' <> [] -> last (l ++ l') d = last l' d.
Proof.
  intros H. induction l as [|a l IH]; [reflexivity|].
  cbn [app]. rewrite last_cons; [exact IH|].
  destruct l; [exact H | discriminate].
Qed.

(** Splitting a text that continues: the complete fragments of the
    first part stay, its last fragment is completed by what follows. *)
Lemma split_append sep x y :
  Str.split sep (x ++ y) =
  removelast (Str.split sep x)
    ++ Str.split sep (last (Str.split sep x) EmptyString ++ y).
Proof.
  induction x as [|c r IH]; [reflexivity|].
  pose proof (StrFacts.split_not_nil sep r) as Hr.
  cbn [String.append Str.split].
  destruct (Ascii.eqb c sep) eqn:Ec.
  - rewrite IH, (removelast_cons _ _ Hr), (last_cons _ _ _ Hr). reflexivity.
  - rewrite IH. destruct (Str.split sep r) as [|h t]; [contradiction|].
    destruct t as [|h' t'].
    + cbn [removelast last app String.append Str.split]. rewrite Ec. reflexivity.
    + assert (Ht : h' :: t' <> []) by discriminate.
      rewrite (removelast_cons h _ Ht), (last_cons h _ _ Ht).
      rewrite (removelast_cons (String c h) _ Ht), (last_cons (String c h) _ _ Ht).
      reflexivity.
Qed.

(** The carry-over fragment holds no separator. *)
Lemma split_last sep s :
  Str.split sep (last (Str.split sep s) EmptyString) =
  [last (Str.split sep s) EmptyString].
Proof.
  induction s as [|c r IH]; [reflexivity|].
  pose proof (StrFacts.split_not_nil sep r) as Hr.
  cbn [Str.split].
  destruct (Ascii.eqb c sep) eqn:Ec.
  - rewrite (last_cons _ _ _ Hr). exact IH.
  - destruct (Str.split sep r) as [|h t]; [contradiction|].
    destruct t as [|h' t'].
    + cbn [last] in *. cbn [Str.split]. rewrite Ec, IH. reflexivity.
    + assert (Ht : h' :: t' <> []) by discriminate.
      rewrite (last_cons (String c h) _ _ Ht). rewrite (last_cons h _ _ Ht) in IH. exact IH.
Qed.

Lemma append_assoc (a b c : string) : ((a ++ b) ++ c = a ++ (b ++ c))%string.
Proof.
  induction a as [|x a IH]; simpl; [reflexivity | rewrite IH; reflexivity].
Qed.

Lemma append_empty (a : string) : (a ++ EmptyString = a)%string.
Proof.
  induction a as [|x a IH]; simpl; [reflexivity | rewrite IH; reflexivity].
Qed.

Section WithRuntime.
Context {rt : Runtime}.

(** *** From chunks to frames *)

Lemma on_frame_buffer id frame b st :
  on_frame id frame (with_buffer b st) =
  (fst (on_frame id frame st), with_buffer b (snd (on_frame id frame st))).
Proof.
  destruct frame; reflexivity.
Qed.

Lemma on_frames_buffer id frames b st :
  on_frames id frames (with_buffer b st) =
  (fst (on_frames id frames st), with_buffer b (snd (on_frames id frames st))).
Proof.
  revert st. induction frames as [|frame rest IH]; intros st; [reflexivity|].
  cbn [on_frames]. rewrite on_frame_buffer.
  destruct (on_frame id frame st) as [ev st1]. cbn [fst snd].
  rewrite IH. destruct (on_frames id rest st1) as [evs st2]. reflexivity.
Qed.

Lemma on_frames_app id a b st :
  on_frames id (a ++ b) st =
  (fst (on_frames id a st) ++ fst (on_frames id b (snd (on_frames id a st))),
   snd (on_frames id b (snd (on_frames id a st)))).
Proof.
  revert st. induction a as [|frame rest IH]; intros st.
  - cbn [app on_frames fst snd]. destruct (on_frames id b st); reflexivity.
  - cbn [app on_frames]. destruct (on_frame id frame st) as [ev st1].
    rewrite IH. destruct (on_frames id rest st1) as [evs st2]. cbn [fst snd].
    rewrite app_assoc. reflexivity.
Qed.

Lemma on_line_frames id line st :
  on_line id line st = on_frames id (frame_of_line line) st.
Proof.
  unfold on_line, frame_of_line.
  destruct (negb (Str.startsWith "data: " line)); [reflexivity|].
  destruct (String.eqb (trim (Str.slice 6 line)) "[DONE]"); [reflexivity|].
  destruct (JSON_parse (trim (Str.slice 6 line))) as [frame|]; [|reflexivity].
  destruct frame; try reflexivity;
    cbn [on_frames]; match goal with
                     | |- ?x = _ => destruct x as [ev st1]
                     end; rewrite app_nil_r; reflexivity.
Qed.

Lemma on_lines_frames id lines st :
  on_lines id lines st = on_frames id (flat_map frame_of_line lines) st.
Proof.
  revert st. induction lines as [|line rest IH]; intros st; [reflexivity|].
  cbn [on_lines flat_map]. rewrite on_line_frames, on_frames_app.
  destruct (on_frames id (frame_of_line line) st) as [ev st1]. cbn [fst snd].
  rewrite IH. destruct (on_frames id (flat_map frame_of_line rest) st1). reflexivity.
Qed.

(** Reading chunk by chunk sends what the frames of the whole text
    send: a line is processed once a later chunk completes it. *)
Lemma on_chunks_frames id chunks st :
  Str.split Str.LF (buffer st) = [buffer st] ->
  on_chunks id chunks st =
  let text := (buffer st ++ Str.concat_all chunks)%string in
  let run := on_frames id (flat_map frame_of_line (complete_lines text)) st in
  (fst run, with_buffer (last (Str.split Str.LF text) EmptyString) (snd run)).
Proof.
  revert st. induction chunks as [|text rest IH]; intros st Hb.
  - cbn [on_chunks Str.concat_all fold_right]. cbv zeta.
    unfold complete_lines. rewrite append_empty, Hb. cbn [removelast flat_map on_frames last fst snd].
    destruct st; reflexivity.
  - cbn [on_chunks Str.concat_all fold_right]. cbv zeta.
    fold (Str.concat_all rest).
    unfold on_chunk.
    set (L := Str.split Str.LF (buffer st ++ text)).
    rewrite on_lines_frames.
    change (mkTranscoder (last L EmptyString) (inputTokens st) (outputTokens st) (sentStart st))
      with (with_buffer (last L EmptyString) st).
    rewrite on_frames_buffer.
    set (r1 := on_frames id (flat_map frame_of_line (removelast L)) st).
    rewrite IH by (cbn [buffer with_buffer]; apply split_last).
    cbv zeta. cbn [buffer with_buffer fst snd].
    rewrite on_frames_buffer. cbn [fst snd].
    rewrite <- append_assoc.
    unfold complete_lines.
    rewrite (split_append Str.LF (buffer st ++ text)). fold L.
    pose proof (StrFacts.split_not_nil Str.LF (last L EmptyString ++ Str.concat_all rest))
      as Hne.
    rewrite removelast_app by exact Hne.
    rewrite last_append by exact Hne.
    rewrite flat_map_app, on_frames_app. fold r1. cbn [fst snd].
    destruct (on_frames id _ (snd r1)) as [ev2 st2]. cbn [fst snd].
    destruct st2; reflexivity.
Qed.

(** [transformOpenRouterToAnthropic] on the frames of the stream. *)
Lemma transform_frames now chunks :
  transformOpenRouterToAnthropic now chunks =
  fst (on_frames (message_id now) (frames_of chunks) initial).
Proof.
  unfold transformOpenRouterToAnthropic, frames_of.
  rewrite on_chunks_frames by reflexivity. reflexivity.
Qed.

(** *** One frame *)

Lemma frame_of_line_non_null line frame :
  In frame (frame_of_line line) -> frame <> JNull.
Proof.
  unfold frame_of_line.
  destruct (negb (Str.startsWith "data: " line)); [intros H; destruct H|].
  destruct (String.eqb (trim (Str.slice 6 line)) "[DONE]"); [intros H; destruct H|].
  destruct (JSON_parse (trim (Str.slice 6 line))) as [[]|]; simpl; intros H;
    first [ destruct H as [<-|[]]; discriminate | destruct H ].
Qed.

Lemma frames_of_non_null chunks : Forall (fun frame => frame <> JNull) (frames_of chunks).
Proof.
  apply Forall_forall. intros frame H. unfold frames_of in H.
  apply in_flat_map in H. destruct H as (line & _ & H).
  exact (frame_of_line_non_null line frame H).
Qed.

Lemma counter_step usage name old :
  (if truthy usage then or_else (opt_field usage name) old else old) =
  match (if truthy usage && truthy (opt_field usage name)
         then Some (opt_field usage name) else None) with
  | Some v => v
  | None => old
  end.
Proof.
  unfold or_else. destruct (truthy usage), (truthy (opt_field usage name)); reflexivity.
Qed.

(** What a frame sends and leaves behind. *)
Lemma on_frame_steps id frame st :
  frame <> JNull ->
  on_frame id frame st =
  let inTok := latest "prompt_tokens" [frame] (inputTokens st) in
  let outTok := latest "completion_tokens" [frame] (outputTokens st) in
  ((if sentStart st then []
    else [ message_start id (or_else (field frame "model") (Str_ "unknown"));
           content_block_start ])
     ++ frame_events frame outTok,
   mkTranscoder (buffer st) inTok outTok true).
Proof.
  intros Hn. unfold latest, usage_count, frame_events, delta_events, closing_events,
               has_finish, finish_reason, delta_content.
  cbn [fold_left]. cbv zeta.
  rewrite <- !counter_step.
  destruct frame; try congruence; unfold on_frame; destruct (sentStart st); reflexivity.
Qed.

Lemma on_frame_null id st : on_frame id JNull st = ([], st).
Proof.
  reflexivity.
Qed.

(** Once the stream has started every frame, also [null], sends its
    frame events. *)
Lemma on_frame_started id frame st :
  sentStart st = true ->
  on_frame id frame st =
  (frame_events frame (latest "completion_tokens" [frame] (outputTokens st)),
   mkTranscoder (buffer st) (latest "prompt_tokens" [frame] (inputTokens st))
                (latest "completion_tokens" [frame] (outputTokens st)) true).
Proof.
  intros Hs. destruct frame;
    try (rewrite on_frame_steps by discriminate; cbv zeta; rewrite Hs; reflexivity).
  rewrite on_frame_null. destruct st as [b i o s]. cbn in Hs. subst s. reflexivity.
Qed.

Lemma closing_events_cases frame out :
  (has_finish frame = false /\ closing_events frame out = [])
  \/ (has_finish frame = true /\ can_convert (finish_reason frame) = false
      /\ closing_events frame out = [content_block_stop])
  \/ (closing frame = true
      /\ exists stop_reason,
          mapFinishReason (finish_reason frame) = Ok stop_reason
          /\ closing_events frame out =
             [content_block_stop; message_delta stop_reason out; message_stop]).
Proof.
  unfold closing_events, closing.
  destruct (has_finish frame); [|left; split; reflexivity].
  right.
  destruct (FinishReasonProofs.mapFinishReason_returns (finish_reason frame)) as (Hy & Hn).
  destruct (can_convert (finish_reason frame)).
  - right. rewrite (Hy eq_refl). split; [reflexivity|]. eexists. split; reflexivity.
  - left. rewrite (Hn eq_refl). repeat split.
Qed.

Lemma frame_events_no_start frame out :
  existsb is_start (frame_events frame out) = false.
Proof.
  unfold frame_events, delta_events.
  destruct (closing_events_cases frame out) as [(_ & ->)|[(_ & _ & ->)|(_ & r & _ & ->)]];
    destruct (truthy (delta_content frame)); reflexivity.
Qed.

(** *** The counters *)

Lemma latest_app name a b start :
  latest name (a ++ b) start = latest name b (latest name a start).
Proof.
  unfold latest. apply fold_left_app.
Qed.

Lemma latest_none name frames start :
  Forall (fun frame => usage_count name frame = None) frames ->
  latest name frames start = start.
Proof.
  intros H. revert start. induction H as [|frame rest Hf _ IH]; intros start; [reflexivity|].
  unfold latest in *. cbn [fold_left]. rewrite Hf. apply IH.
Qed.

Lemma on_frame_counters id frame st :
  inputTokens (snd (on_frame id frame st)) = latest "prompt_tokens" [frame] (inputTokens st)
  /\ outputTokens (snd (on_frame id frame st))
     = latest "completion_tokens" [frame] (outputTokens st).
Proof.
  destruct frame;
    try (rewrite on_frame_steps by discriminate; split; reflexivity).
  split; reflexivity.
Qed.

Lemma on_frames_counters id frames st :
  inputTokens (snd (on_frames id frames st)) = latest "prompt_tokens" frames (inputTokens st)
  /\ outputTokens (snd (on_frames id frames st))
     = latest "completion_tokens" frames (outputTokens st).
Proof.
  revert st. induction frames as [|frame rest IH]; intros st; [split; reflexivity|].
  cbn [on_frames].
  destruct (on_frame_counters id frame st) as (Hi & Ho).
  destruct (on_frame id frame st) as [ev st1]. cbn [snd] in Hi, Ho.
  destruct (IH st1) as (Hi' & Ho').
  destruct (on_frames id rest st1) as [evs st2]. cbn [snd] in *.
  change (frame :: rest) with ([frame] ++ rest).
  rewrite !latest_app, <- Hi, <- Ho. split; assumption.
Qed.

(** A frame whose finish reason is mapped sends [message_delta] with
    the output counter as the frame leaves it. *)
Lemma on_frame_message_delta id frame st stop_reason :
  has_finish frame = true ->
  mapFinishReason (finish_reason frame) = Ok stop_reason ->
  In (message_delta stop_reason (outputTokens (snd (on_frame id frame st))))
     (fst (on_frame id frame st)).
Proof.
  intros Hf Hm.
  assert (Hn : frame <> JNull) by (intros ->; discriminate Hf).
  rewrite (on_frame_steps id frame st Hn). cbv zeta. cbn [fst snd outputTokens].
  apply in_or_app. right. unfold frame_events, closing_events. rewrite Hf, Hm.
  apply in_or_app. right. right. left. reflexivity.
Qed.

(** C9, amended.  A frame whose usage carries a truthy (non-zero)
    prompt or completion count replaces the running input or output
    counter by it, so that the counter is the latest such count; a count
    that is absent or zero leaves its counter as it is, and a frame
    without usage leaves both counters unchanged; the [message_delta]
    event of a frame whose finish reason is mapped carries the final
    output counter when no later frame carries a completion count. *)
Theorem usage_counters (id : string) (frames : list JSON) (frame : JSON) (st : Transcoder) :
  let arrived := snd (on_frames id frames st) in
  let left := snd (on_frame id frame arrived) in
  inputTokens arrived = latest "prompt_tokens" frames (inputTokens st)
  /\ outputTokens arrived = latest "completion_tokens" frames (outputTokens st)
  /\ inputTokens left = match usage_count "prompt_tokens" frame with
                        | Some v => v
                        | None => inputTokens arrived
                        end
  /\ outputTokens left = match usage_count "completion_tokens" frame with
                         | Some v => v
                         | None => outputTokens arrived
                         end
  /\ (truthy (field frame "usage") = false ->
      inputTokens left = inputTokens arrived /\ outputTokens left = outputTokens arrived)
  /\ (forall (post : list JSON) (stop_reason : JSValue),
        has_finish frame = true ->
        mapFinishReason (finish_reason frame) = Ok stop_reason ->
        Forall (fun later => usage_count "completion_tokens" later = None) post ->
        In (message_delta stop_reason
              (outputTokens (snd (on_frames id (frames ++ frame :: post) st))))
           (fst (on_frames id (frames ++ frame :: post) st))).
Proof.
  cbv zeta.
  destruct (on_frames_counters id frames st) as (Hi & Ho).
  destruct (on_frame_counters id frame (snd (on_frames id frames st))) as (Hi' & Ho').
  refine (conj Hi (conj Ho (conj Hi' (conj Ho' (conj _ _))))).
  - intros Hu. rewrite Hi', Ho'. unfold latest, usage_count. cbn [fold_left].
    rewrite Hu. split; reflexivity.
  - intros post stop_reason Hf Hm Hp.
    pose proof (on_frame_message_delta id frame (snd (on_frames id frames st))
                  stop_reason Hf Hm) as Hin.
    rewrite on_frames_app. cbn [fst snd on_frames].
    destruct (on_frame id frame (snd (on_frames id frames st))) as [ev st1].
    cbn [fst snd] in *.
    pose proof (proj2 (on_frames_counters id post st1)) as Hl.
    destruct (on_frames id post st1) as [evs st2]. cbn [fst snd] in *.
    rewrite Hl, (latest_none _ post _ Hp).
    apply in_or_app. right. apply in_or_app. left. exact Hin.
Qed.

(** *** The order of the events *)

(** Once the stream has started, a run of frames sends nothing exactly
    when every frame is silent. *)
Lemma on_frames_silent id frames st :
  sentStart st = true ->
  (forallb silent frames = true -> fst (on_frames id frames st) = [])
  /\ (forallb silent frames = false -> fst (on_frames id frames st) <> []).
Proof.
  revert st. induction frames as [|frame rest IH]; intros st Hs.
  - split; [reflexivity | discriminate].
  - cbn [on_frames forallb]. rewrite (on_frame_started id frame st Hs).
    match goal with
    | |- context [on_frames id rest ?s] =>
        destruct (IH s eq_refl) as (Hy & Hn); destruct (on_frames id rest s) as [evs st2]
    end.
    cbn [fst] in *. unfold silent at 1 3, frame_events, delta_events.
    destruct (closing_events_cases frame
                (latest "completion_tokens" [frame] (outputTokens st)))
      as [(Hf & ->)|[(Hf & _ & ->)|(Hc & r & _ & ->)]];
      try (unfold closing in Hc; apply andb_true_iff in Hc; destruct Hc as (Hf & _));
      rewrite Hf; destruct (truthy (delta_content frame)); cbn [negb andb app];
      split; try discriminate; try assumption.
Qed.

(** Once the stream has started, a run of frames does not begin with
    [message_delta]. *)
Lemma on_frames_first id frames st :
  sentStart st = true ->
  match fst (on_frames id frames st) with
  | message_delta _ _ :: _ => False
  | _ => True
  end.
Proof.
  revert st. induction frames as [|frame rest IH]; intros st Hs; [exact I|].
  cbn [on_frames]. rewrite (on_frame_started id frame st Hs).
  match goal with
  | |- context [on_frames id rest ?s] =>
      specialize (IH s eq_refl); destruct (on_frames id rest s) as [evs st2]
  end.
  cbn [fst] in *. unfold frame_events, delta_events.
  destruct (closing_events_cases frame
              (latest "completion_tokens" [frame] (outputTokens st)))
    as [(_ & ->)|[(_ & _ & ->)|(_ & r & _ & ->)]];
    destruct (truthy (delta_content frame)); cbn [app]; try exact I; exact IH.
Qed.

(** Once the stream has started, the events of a run of frames are
    deltas followed by the three closing events exactly when the
    frames are closed once. *)
Lemma on_frames_closes id frames st :
  sentStart st = true ->
  closes (fst (on_frames id frames st)) = closed_once frames.
Proof.
  revert st. induction frames as [|frame rest IH]; intros st Hs; [reflexivity|].
  cbn [on_frames closed_once]. rewrite (on_frame_started id frame st Hs).
  match goal with
  | |- context [on_frames id rest ?s] =>
      specialize (IH s eq_refl);
      pose proof (on_frames_silent id rest s eq_refl) as (Hy & Hn);
      pose proof (on_frames_first id rest s eq_refl) as H1;
      destruct (on_frames id rest s) as [evs st2]
  end.
  cbn [fst] in *. unfold frame_events, delta_events.
  assert (Hd : forall tail,
             closes ((if truthy (delta_content frame)
                      then [content_block_delta (delta_content frame)] else []) ++ tail)
             = closes tail).
  { intros tail. destruct (truthy (delta_content frame)); reflexivity. }
  rewrite <- app_assoc, Hd.
  destruct (closing_events_cases frame
              (latest "completion_tokens" [frame] (outputTokens st)))
    as [(Hf & ->)|[(Hf & Hc & ->)|(Hc & r & _ & ->)]].
  - rewrite Hf. exact IH.
  - rewrite Hf, Hc. cbn [andb app].
    destruct evs as [|e evs']; [reflexivity|].
    destruct e; try reflexivity. destruct H1.
  - unfold closing in Hc. apply andb_true_iff in Hc. destruct Hc as (Hf & Hc).
    rewrite Hf, Hc. cbn [andb app].
    destruct (forallb silent rest).
    + rewrite (Hy eq_refl). reflexivity.
    + destruct evs as [|e evs']; [contradiction (Hn eq_refl); reflexivity | reflexivity].
Qed.

(** A stream without frames sends nothing. *)
Lemma transcoder_silent now chunks :
  frames_of chunks = [] -> transformOpenRouterToAnthropic now chunks = [].
Proof.
  intros H. rewrite transform_frames, H. reflexivity.
Qed.

(** The start events are sent at most once: after them, no frame
    sends them again. *)
Lemma on_frames_started id frames st :
  sentStart st = true ->
  existsb is_start (fst (on_frames id frames st)) = false
  /\ sentStart (snd (on_frames id frames st)) = true.
Proof.
  revert st. induction frames as [|frame rest IH]; intros st Hs; [split; [reflexivity | exact Hs]|].
  cbn [on_frames]. rewrite (on_frame_started id frame st Hs).
  match goal with
  | |- context [on_frames id rest ?s] =>
      destruct (IH s eq_refl) as (He & Hs'); destruct (on_frames id rest s) as [evs st2]
  end.
  cbn [fst snd] in *. split; [|exact Hs'].
  rewrite existsb_app, He, frame_events_no_start. reflexivity.
Qed.

(** X29.  Every stream sends either nothing, or one [message_start] and
    one [content_block_start] first and neither of them again. *)
Lemma start_events_once now chunks :
  transformOpenRouterToAnthropic now chunks = []
  \/ exists id model rest,
      transformOpenRouterToAnthropic now chunks =
        message_start id model :: content_block_start :: rest
      /\ existsb is_start rest = false.
Proof.
  rewrite transform_frames.
  pose proof (frames_of_non_null chunks) as Hnn.
  destruct (frames_of chunks) as [|frame rest]; [left; reflexivity|].
  right. inversion Hnn as [|? ? Hn _]; subst.
  cbn [on_frames]. rewrite (on_frame_steps _ frame initial Hn). cbv beta iota zeta.
  match goal with
  | |- context [on_frames ?id rest ?s] =>
      destruct (on_frames_started id rest s eq_refl) as (He & _);
      destruct (on_frames id rest s) as [evs st2]
  end.
  cbn [fst snd initial sentStart app] in *.
  do 3 eexists. split; [reflexivity|].
  rewrite existsb_app, He, frame_events_no_start. reflexivity.
Qed.

(** From its first frame on, a stream that has not started sends the
    two start events and then what it sends once started. *)
Lemma on_frames_protocol id frames st :
  sentStart st = false ->
  Forall (fun frame => frame <> JNull) frames ->
  follows_protocol (fst (on_frames id frames st)) = closed_once frames.
Proof.
  intros Hs Hn. destruct Hn as [|frame rest Hf Hr]; [reflexivity|].
  pose proof (on_frames_closes id (frame :: rest)
                (mkTranscoder (buffer st) (inputTokens st) (outputTokens st) true) eq_refl)
    as Hc.
  cbn [on_frames] in *.
  rewrite (on_frame_steps id frame _ Hf) in Hc. rewrite (on_frame_steps id frame st Hf).
  cbv beta iota zeta in *. cbn [sentStart buffer inputTokens outputTokens] in Hc.
  rewrite Hs.
  destruct (on_frames id rest _) as [evs st2]. cbn [fst app] in *.
  exact Hc.
Qed.

(** C1, amended.  A stream in which no frame is parsed sends no event.
    The event stream is one [message_start], one [content_block_start],
    zero or more [content_block_delta], one [content_block_stop], one
    [message_delta] and one [message_stop], in that order, exactly when
    the frames of the stream are closed once: frames without finish
    reason, then one frame with a finish reason that has a string form,
    then only frames that carry neither text nor a finish reason. *)
Theorem transcoder_protocol (now : Z) (chunks : list string) :
  (frames_of chunks = [] -> transformOpenRouterToAnthropic now chunks = [])
  /\ follows_protocol (transformOpenRouterToAnthropic now chunks)
     = closed_once (frames_of chunks).
Proof.
  split; [exact (transcoder_silent now chunks)|].
  rewrite transform_frames.
  exact (on_frames_protocol (message_id now) (frames_of chunks) initial eq_refl
           (frames_of_non_null chunks)).
Qed.

End WithRuntime.

End StreamProofs.

(* ================================================================== *)
(** * The theorems on the sample inputs *)
(* ================================================================== *)

Module Instances.
Import JS Types Augmenter Forwarder Middleware.
Import Augmentation Transcoding ErrorHandling Samples.

#[local] Existing Instance ReferenceRuntime.runtime.

(** *** Streaming *)

(** C1 on a stream without frame, and on a stream of three frames
    whose usage follows the frame with the finish reason. *)
Lemma transcoder_protocol_witness :
  transformOpenRouterToAnthropic 0 noise_stream = []
  /\ follows_protocol (transformOpenRouterToAnthropic 0 trailing_usage_stream) = true.
Proof.
  split.
  - apply (proj1 (StreamProofs.transcoder_protocol 0 noise_stream)).
    vm_compute. reflexivity.
  - rewrite (proj2 (StreamProofs.transcoder_protocol 0 trailing_usage_stream)).
    vm_compute. reflexivity.
Defined.

(** C1 as stated fails on a stream that holds the sentinel only: no
    event is sent, so there is no [message_start] and no closing
    event. *)
Lemma sentinel_stream_sends_nothing :
  transformOpenRouterToAnthropic 0 sentinel_stream = []
  /\ follows_protocol (transformOpenRouterToAnthropic 0 sentinel_stream) = false.
Proof.
  split; vm_compute; reflexivity.
Qed.

(** C9 on a frame that reports five output tokens, a finishing frame
    that reports zero, and a later frame that reports input tokens
    only. *)
Lemma usage_counters_witness :
  outputTokens (snd (on_frames "msg_0" [five_frame] initial)) = Num_ 5
  /\ In (message_delta (Str_ "end_turn") (Num_ 5))
        (fst (on_frames "msg_0" ([five_frame] ++ zero_frame :: [prompt_frame]) initial)).
Proof.
  pose proof (StreamProofs.usage_counters "msg_0" [five_frame] zero_frame initial) as H.
  cbv zeta in H. destruct H as (_ & Ho & _ & _ & _ & Hd).
  split; [exact Ho|].
  apply (Hd [prompt_frame] (Str_ "end_turn") eq_refl eq_refl).
  apply Forall_cons; [reflexivity | apply Forall_nil].
Defined.

(** C9 as stated fails on that stream: the later count, zero, does not
    overwrite the earlier five, and [message_delta] carries five. *)
Lemma zero_count_does_not_overwrite :
  frames_of zero_stream = [five_frame; zero_frame]
  /\ opt_field (field zero_frame "usage") "completion_tokens" = Num_ 0
  /\ outputTokens (snd (on_frames "msg_0" [five_frame; zero_frame] initial)) <> Num_ 0
  /\ transformOpenRouterToAnthropic 0 zero_stream =
     [ message_start "msg_0" (Str_ "unknown"); content_block_start; content_block_stop;
       message_delta (Str_ "end_turn") (Num_ 5); message_stop ].
Proof.
  repeat split; vm_compute; try reflexivity; discriminate.
Qed.

(** A count that arrives after the frame with the finish reason is
    counted and not reported: [message_delta] has been sent with the
    counter as it stood. *)
Lemma usage_after_finish_is_not_reported :
  transformOpenRouterToAnthropic 0 trailing_usage_stream =
    [ message_start "msg_0" (Str_ "gpt-4"); content_block_start;
      content_block_delta (Str_ "Hi"); content_block_stop;
      message_delta (Str_ "end_turn") (Num_ 0); message_stop ]
  /\ outputTokens (snd (on_chunks "msg_0" trailing_usage_stream initial)) = Num_ 7.
Proof.
  split; vm_compute; reflexivity.
Qed.

(** *** Content conversion *)

Lemma file_image_unsupported : unsupported_image file_image.
Proof.
  repeat split; discriminate.
Defined.

Lemma document_block_unrecognized : unrecognized document_block.
Proof.
  repeat split; discriminate.
Defined.

(** C10 on a text block followed by an image given by a file
    reference: the content collapses to the text. *)
Lemma convertContent_drops_unsupported_image_witness :
  convertBlock file_image = Ok []
  /\ convertBlock document_block = Ok [OPass document_block]
  /\ convertContent (Data (JArr ([text_block "hi"] ++ file_image :: []))) =
     Ok (Bare (Str_ "hi")).
Proof.
  destruct (AugmenterProofs.convertContent_drops_unsupported_image
              file_image document_block [text_block "hi"] []
              file_image_unsupported document_block_unrecognized) as (H1 & H2 & H3).
  split; [exact H1|]. split; [exact H2|]. rewrite H3. reflexivity.
Defined.

Lemma text_block_converts text : converts_to (text_block text) [OText (Str_ text)].
Proof.
  exact (text_to_text (text_block text) eq_refl).
Defined.

Lemma base64_image_converts :
  converts_to base64_image [OImageUrl (Str_ "data:image/png;base64,iVBORw0KGgo=")].
Proof.
  apply (inline_image_to_reference base64_image "image/png" "iVBORw0KGgo=");
    [split; reflexivity | reflexivity | reflexivity].
Defined.

(** C7 on a text block with an inline image, two blocks that are kept,
    and on the text block alone, which collapses. *)
Lemma convertContent_canonical_witness :
  convertContent (Data (JArr [text_block "C"; base64_image])) =
    Ok (Blocks [OText (Str_ "C"); OImageUrl (Str_ "data:image/png;base64,iVBORw0KGgo=")])
  /\ convertContent (Data (JArr [text_block "C"])) = Ok (Bare (Str_ "C")).
Proof.
  split.
  - destruct (proj1 (proj2 (AugmenterProofs.convertContent_canonical
                              [text_block "C"; base64_image]))
                [[OText (Str_ "C")];
                 [OImageUrl (Str_ "data:image/png;base64,iVBORw0KGgo=")]]
                (Forall2_cons _ _ (text_block_converts "C")
                   (Forall2_cons _ _ base64_image_converts (Forall2_nil _))))
      as (content & Hc & _ & _ & Hl).
    rewrite Hc, (Hl (le_n 2)). reflexivity.
  - destruct (proj1 (proj2 (AugmenterProofs.convertContent_canonical [text_block "C"]))
                [[OText (Str_ "C")]]
                (Forall2_cons _ _ (text_block_converts "C") (Forall2_nil _)))
      as (content & Hc & _ & Hb & _).
    rewrite Hc.
    destruct (proj2 Hb (ex_intro _ (OText (Str_ "C")) (conj eq_refl eq_refl)))
      as (text & ->).
    vm_compute in Hc. injection Hc as <-. reflexivity.
Defined.

(** *** Augmentation *)








(** *** Errors *)

(** C4 on the policy with an empty token. *)
Lemma handle_invalid_policy_witness :
  exists name message,
    hd_error (violations invalid_config) = Some name
    /\ In name (claimed_violations invalid_config)
    /\ Str.includes name message = true
    /\ augmentRequest invalid_config conversation =
       Ok (empty_request, mkResult false false (Some message) (Some 400%Z))
    /\ existsb is_fetch (effects (handle invalid_config (failing refused) 0 conversation))
       = false
    /\ (Detector.isClaudeCodeRequest invalid_config conversation = Ok true ->
        handle invalid_config (failing refused) 0 conversation =
        mkRun (error_reply 400 "invalid_request_error" message) (Ok true))
    /\ (Detector.isClaudeCodeRequest invalid_config conversation = Ok false ->
        handle invalid_config (failing refused) 0 conversation = mkRun [] (Ok false)).
Proof.
  apply MiddlewareProofs.handle_invalid_policy.
  vm_compute. discriminate.
Defined.

(** C4 as stated fails on a policy whose [additional_instructions] is
    the number 0, present and not an array: validation passes and the
    provider is called; and on the default configuration, whose token
    is empty: the middleware, being disabled, sends no reply. *)
Lemma present_but_falsy_is_accepted :
  claimed_violations lenient_config = ["additional_instructions"]
  /\ success (validateConfig lenient_config) = true
  /\ existsb is_fetch (effects (handle lenient_config (failing refused) 0 hello_request))
     = true
  /\ claimed_violations Index.DEFAULT_AUGMENT_CONFIG = ["openrouter_auth"]
  /\ handle Index.DEFAULT_AUGMENT_CONFIG (failing refused) 0 hello_request
     = mkRun [] (Ok false).
Proof.
  repeat split; vm_compute; reflexivity.
Qed.

Lemma refused_is_network_failure : network_failure refused.
Proof.
  left. reflexivity.
Defined.

(** C2 on a refused connection. *)
Lemma forward_transport_exception_witness :
  forward (Rejected refused) =
    mkForward false None (Str_ (network_error_message refused)) (Some 502%Z)
  /\ replies (handle augmenting_config (failing refused) 0 conversation) =
     error_reply 502 "api_error" (network_error_message refused).
Proof.
  assert (Ha : exists augmentedBody,
             augmentRequest augmenting_config conversation =
             Ok (augmentedBody, mkResult true true None None))
    by (eexists; lazy; reflexivity).
  destruct Ha as (augmentedBody & Ha).
  assert (Hd : Detector.isClaudeCodeRequest augmenting_config conversation = Ok true)
    by (vm_compute; reflexivity).
  destruct (MiddlewareProofs.forward_transport_exception
              augmenting_config conversation (failing refused) 0
              augmentedBody (mkResult true true None None) refused
              Hd Ha eq_refl eq_refl) as (Hn & _).
  destruct (Hn refused_is_network_failure) as (Hf & _ & Hh).
  split; [exact Hf|]. rewrite Hh. reflexivity.
Defined.

(** C2 as stated fails for a reset connection: the exception is thrown
    by the transport, yet [forward] returns errorCode 500 with a
    message that does not hold [Network error], and the middleware
    replies 500 with an [invalid_request_error] envelope. *)
Lemma reset_is_not_network_error :
  forward (Rejected reset) =
    mkForward false None (Str_ "Forward error: socket hang up") (Some 500%Z)
  /\ fw_errorCode (forward (Rejected reset)) <> Some 502%Z
  /\ Str.includes "Network error" (value_text (fw_error (forward (Rejected reset)))) = false
  /\ replies (handle augmenting_config (failing reset) 0 conversation) =
     error_reply 500 "invalid_request_error" "Forward error: socket hang up".
Proof.
  repeat split; vm_compute; try reflexivity; discriminate.
Qed.

End Instances.

(* ================================================================== *)
(** * Further properties of the sources *)
(* ================================================================== *)

Module StreamCoverage.
Import JS Types Forwarder Transcoding Notions.
Import StreamProofs.

(** *** Splitting *)

Lemma split_one_line_sep sep b y :
  Str.split sep b = [b] ->
  Str.split sep (b ++ String sep y) = b :: Str.split sep y.
Proof.
  induction b as [|c r IH]; intros H.
  - cbn [String.append Str.split]. rewrite Ascii.eqb_refl. reflexivity.
  - cbn [String.append Str.split] in *.
    pose proof (StrFacts.split_not_nil sep r) as Hr.
    destruct (Ascii.eqb c sep).
    + destruct (Str.split sep r); [contradiction | discriminate].
    + destruct (Str.split sep r) as [|h t]; [contradiction|].
      injection H as Hh Ht. subst. rewrite IH by reflexivity. reflexivity.
Qed.

Lemma split_one_line_app sep a b :
  Str.split sep a = [a] -> Str.split sep b = [b] ->
  Str.split sep (a ++ b) = [(a ++ b)%string].
Proof.
  induction a as [|c r IH]; intros Ha Hb; [exact Hb|].
  cbn [String.append Str.split] in *.
  pose proof (StrFacts.split_not_nil sep r) as Hr.
  destruct (Ascii.eqb c sep).
  - destruct (Str.split sep r); [contradiction | discriminate].
  - destruct (Str.split sep r) as [|h t]; [contradiction|].
    injection Ha as Hh Ht. subst. rewrite IH by auto. reflexivity.
Qed.

Lemma concat_all_app a b :
  Str.concat_all (a ++ b) = (Str.concat_all a ++ Str.concat_all b)%string.
Proof.
  induction a as [|x a IH]; [reflexivity|].
  cbn [app Str.concat_all fold_right]. fold (Str.concat_all (a ++ b)).
  fold (Str.concat_all a). rewrite IH, append_assoc. reflexivity.
Qed.

(** Text without line feed after a stream completes no line. *)
Lemma complete_lines_tail text tail :
  one_line tail -> complete_lines (text ++ tail) = complete_lines text.
Proof.
  intros Ht. unfold complete_lines.
  rewrite split_append.
  rewrite (split_one_line_app Str.LF _ tail (split_last Str.LF text) Ht).
  apply removelast_last.
Qed.

(** A whole line inserted at a line boundary is one more complete
    line. *)
Lemma complete_lines_insert before line after :
  at_line_boundary before -> one_line line ->
  complete_lines (before ++ (line ++ Str.nl) ++ after) =
  complete_lines before ++ line :: complete_lines after
  /\ complete_lines (before ++ after) = complete_lines before ++ complete_lines after.
Proof.
  unfold at_line_boundary, one_line, complete_lines. intros Hb Hl.
  pose proof (StrFacts.split_not_nil Str.LF after) as Hne.
  rewrite !(split_append Str.LF before), Hb. cbn [String.append].
  split.
  - rewrite append_assoc. unfold Str.nl. cbn [String.append].
    rewrite (split_one_line_sep Str.LF line after Hl).
    rewrite removelast_app by discriminate.
    rewrite (removelast_cons line _ Hne). reflexivity.
  - rewrite removelast_app by exact Hne. reflexivity.
Qed.

Section WithRuntime.
Context {rt : Runtime}.

(** X1.  The events depend on the text of the stream only, not on how
    the reads cut it into chunks. *)
Theorem transcoder_chunking (now : Z) (chunks chunks' : list string) :
  Str.concat_all chunks = Str.concat_all chunks' ->
  transformOpenRouterToAnthropic now chunks = transformOpenRouterToAnthropic now chunks'.
Proof.
  intros H. rewrite !transform_frames. unfold frames_of. rewrite H. reflexivity.
Qed.

(** X2.  A last line that no line feed ends is never processed: text
    without line feed at the end of a stream sends nothing more. *)
Theorem unterminated_line_ignored (now : Z) (chunks : list string) (tail : string) :
  one_line tail ->
  transformOpenRouterToAnthropic now (chunks ++ [tail]) =
  transformOpenRouterToAnthropic now chunks.
Proof.
  intros Ht. rewrite !transform_frames. unfold frames_of.
  rewrite concat_all_app. cbn [Str.concat_all fold_right]. rewrite append_empty.
  rewrite (complete_lines_tail _ tail Ht). reflexivity.
Qed.

(** X3.  A line that carries no frame (no data prefix, the sentinel,
    malformed JSON or [null]) is skipped without a trace: the stream
    sends what it sends without that line. *)
Theorem noise_line_skipped (now : Z) (before after : list string) (noise : string) :
  at_line_boundary (Str.concat_all before) ->
  one_line noise ->
  frame_of_line noise = [] ->
  transformOpenRouterToAnthropic now (before ++ (noise ++ Str.nl)%string :: after) =
  transformOpenRouterToAnthropic now (before ++ after).
Proof.
  intros Hb Hn Hf. rewrite !transform_frames. unfold frames_of.
  rewrite !concat_all_app. cbn [Str.concat_all fold_right]. fold (Str.concat_all after).
  destruct (complete_lines_insert (Str.concat_all before) noise (Str.concat_all after) Hb Hn)
    as (H1 & H2).
  rewrite H1, H2, !flat_map_app. cbn [flat_map]. rewrite Hf. reflexivity.
Qed.

(** The events of one kind that a run of frames sends are those of the
    frame events of its frames, the start events being of another
    kind. *)
Lemma on_frames_filter (kind : Event -> bool) (part : JSON -> list Event) id frames st :
  (forall model, kind (message_start id model) = false) ->
  kind content_block_start = false ->
  (forall frame out, filter kind (frame_events frame out) = part frame) ->
  filter kind (fst (on_frames id frames st)) = flat_map part frames.
Proof.
  intros Hm Hb Hp. revert st. induction frames as [|frame rest IH]; intros st; [reflexivity|].
  cbn [on_frames flat_map].
  assert (Hnull : part JNull = []) by (rewrite <- (Hp JNull Undefined); reflexivity).
  destruct frame;
    try (rewrite on_frame_steps by discriminate; cbv beta iota zeta;
         match goal with
         | |- context [on_frames id rest ?s] =>
             specialize (IH s); destruct (on_frames id rest s) as [evs st2]
         end;
         cbn [fst] in *; rewrite !filter_app, IH, Hp;
         destruct (sentStart st); cbn [filter]; rewrite ?Hm, ?Hb; reflexivity).
  rewrite on_frame_null, Hnull. specialize (IH st).
  destruct (on_frames id rest st) as [evs st2]. exact IH.
Qed.

Lemma frame_events_deltas frame out :
  filter is_delta (frame_events frame out) = delta_events frame.
Proof.
  unfold frame_events, delta_events. rewrite filter_app.
  destruct (closing_events_cases frame out) as [(_ & ->)|[(_ & _ & ->)|(_ & r & _ & ->)]];
    destruct (truthy (delta_content frame)); reflexivity.
Qed.

(** X4.  The deltas of the event stream are the text contents of the
    frames, one per frame that carries text, in the order of the
    frames. *)
Theorem deltas_in_frame_order (now : Z) (chunks : list string) :
  filter is_delta (transformOpenRouterToAnthropic now chunks) =
  flat_map delta_events (frames_of chunks).
Proof.
  rewrite transform_frames.
  apply on_frames_filter; [reflexivity | reflexivity | exact frame_events_deltas].
Qed.

Lemma frame_events_block_stops frame out :
  filter is_block_stop (frame_events frame out) =
  if has_finish frame then [content_block_stop] else [].
Proof.
  unfold frame_events, delta_events. rewrite filter_app.
  destruct (closing_events_cases frame out)
    as [(Hf & ->)|[(Hf & _ & ->)|(Hc & r & _ & ->)]];
    try (unfold closing in Hc; apply andb_true_iff in Hc; destruct Hc as (Hf & _));
    rewrite Hf; destruct (truthy (delta_content frame)); reflexivity.
Qed.

Lemma frame_events_message_stops frame out :
  filter is_message_stop (frame_events frame out) =
  if closing frame then [message_stop] else [].
Proof.
  unfold frame_events, delta_events. rewrite filter_app.
  destruct (closing_events_cases frame out)
    as [(Hf & ->)|[(Hf & Hc & ->)|(Hc & r & _ & ->)]];
    unfold closing in *; rewrite ?Hf, ?Hc;
    destruct (truthy (delta_content frame)); reflexivity.
Qed.

Lemma flat_map_singleton {A B} (p : A -> bool) (b : B) (l : list A) :
  List.length (flat_map (fun a => if p a then [b] else []) l) = List.length (filter p l).
Proof.
  induction l as [|a l IH]; [reflexivity|].
  cbn [flat_map filter]. rewrite length_app, IH. destruct (p a); reflexivity.
Qed.

(** X5.  A frame with a finish reason ends the content block, and
    closes the message when the finish reason has a string form: the
    stream holds one [content_block_stop] per frame with a finish
    reason, and one [message_stop] per such frame whose reason has a
    string form, none when there is none and several when there are
    several. *)
Theorem one_closing_per_finish (now : Z) (chunks : list string) :
  List.length (filter is_block_stop (transformOpenRouterToAnthropic now chunks)) =
  List.length (filter has_finish (frames_of chunks))
  /\ List.length (filter is_message_stop (transformOpenRouterToAnthropic now chunks)) =
     List.length (filter closing (frames_of chunks)).
Proof.
  rewrite transform_frames. split.
  - rewrite (on_frames_filter is_block_stop
               (fun frame => if has_finish frame then [content_block_stop] else []));
      [apply flat_map_singleton | reflexivity | reflexivity
       | exact frame_events_block_stops].
  - rewrite (on_frames_filter is_message_stop
               (fun frame => if closing frame then [message_stop] else []));
      [apply flat_map_singleton | reflexivity | reflexivity
       | exact frame_events_message_stops].
Qed.

End WithRuntime.

End StreamCoverage.

Module ForwardCoverage.
Import JS Types Augmenter Forwarder Middleware Transcoding ErrorHandling Notions.
Import AugmenterProofs MiddlewareProofs.

Lemma envelope_type_match (code : Z) :
  match Some code with
  | Some 502%Z => "api_error"
  | _ => "invalid_request_error"
  end = envelope_type code.
Proof.
  unfold envelope_type.
  destruct code as [|p|p]; try reflexivity.
  repeat (destruct p as [p|p|]; try reflexivity).
Qed.

Section WithRuntime.
Context {rt : Runtime}.

Lemma or_else_truthy a b : truthy b = true -> truthy (or_else a b) = true.
Proof.
  intros H. unfold or_else. destruct (truthy a) eqn:E; assumption.
Qed.

(** X6.  Whether the [fetch] call resolves or rejects with an error
    object, the result of [forward] has one of two shapes: a success
    that carries the provider's response, which is [ok], and no error
    code; or a failure without response, with an error code and a
    non-empty error message. *)
Theorem forward_result_shape (outcome : FetchOutcome) :
  (fw_success (forward outcome) = true
   /\ fw_errorCode (forward outcome) = None
   /\ exists response,
       outcome = Resolved response /\ ok response = true
       /\ fw_response (forward outcome) = Some response)
  \/ (fw_success (forward outcome) = false
      /\ fw_response (forward outcome) = None
      /\ truthy (fw_error (forward outcome)) = true
      /\ exists code, fw_errorCode (forward outcome) = Some code).
Proof.
  destruct outcome as [response|e]; cbn [forward].
  - destruct (ok response) eqn:Hok; cbn [negb].
    + left. cbn. repeat split. exists response. auto.
    + right. destruct (read (safeReadError response) "message") as [m|e].
      * cbn. repeat split; [|eexists; reflexivity].
        apply or_else_truthy. reflexivity.
      * unfold forward_catch. destruct (is_network_error e); cbn;
          repeat split; eexists; reflexivity.
  - right. unfold forward_catch. destruct (is_network_error e); cbn;
      repeat split; eexists; reflexivity.
Qed.

(** What [handle] does once the request is augmented and the provider
    answers. *)
Lemma handle_resolved cfg req transport now augmentedBody result response :
  Detector.isClaudeCodeRequest cfg req = Ok true ->
  augmentRequest cfg req = Ok (augmentedBody, result) ->
  success result = true ->
  transport (fetch_call cfg augmentedBody) = Resolved response ->
  handle cfg transport now req =
  let call := fetch_call cfg augmentedBody in
  let forwardResult := forward (Resolved response) in
  if negb (fw_success forwardResult) then
    mkRun [ Fetch call;
            ReplyStatus (code_or (fw_errorCode forwardResult) 500);
            ReplySend (ErrorEnvelope
                         (match fw_errorCode forwardResult with
                          | Some 502%Z => "api_error"
                          | _ => "invalid_request_error"
                          end)
                         (fw_error forwardResult)) ]
          (Ok true)
  else
    match fw_response forwardResult with
    | None => mkRun [Fetch call] (Ok true)
    | Some response =>
        if not_false (stream (body req)) then
          match handleStreamingResponse now response with
          | Throw e => mkRun (Fetch call :: streaming_headers) (Throw e)
          | Ok events =>
              mkRun (Fetch call :: streaming_headers ++ [ReplySend (EventStream events)])
                    (Ok true)
          end
        else
          match handleNonStreamingResponse now response with
          | Throw e => mkRun [Fetch call] (Throw e)
          | Ok data => mkRun [Fetch call; ReplySend (MessageBody data)] (Ok true)
          end
    end.
Proof.
  intros Hd Ha Hs Ht.
  rewrite (handle_detected cfg req transport now Hd), Ha, Hs. cbv zeta. rewrite Ht.
  reflexivity.
Qed.

(** X7.  A provider reply with an error status and a body other than
    [null] is propagated: the middleware replies with the provider's
    status (500 when that status is 0) and an envelope that carries the
    body's [message], or [OpenRouter error: <status>] when the body has
    none; the envelope type is [api_error] when the status is 502 and
    [invalid_request_error] otherwise. *)
Theorem upstream_error_propagated (cfg : AugmentConfig) (req : AugmentRequest)
        (transport : FetchCall -> FetchOutcome) (now : Z)
        (augmentedBody : OpenRouterRequest) (result : AugmentResult) (response : Response) :
  Detector.isClaudeCodeRequest cfg req = Ok true ->
  augmentRequest cfg req = Ok (augmentedBody, result) ->
  success result = true ->
  transport (fetch_call cfg augmentedBody) = Resolved response ->
  ok response = false ->
  safeReadError response <> JNull ->
  handle cfg transport now req =
  mkRun [ Fetch (fetch_call cfg augmentedBody);
          ReplyStatus (reply_status (status response));
          ReplySend (ErrorEnvelope (envelope_type (status response))
                                   (upstream_message (status response)
                                                     (safeReadError response))) ]
        (Ok true).
Proof.
  intros Hd Ha Hs Ht Hok Hn.
  rewrite (handle_resolved cfg req transport now augmentedBody result response Hd Ha Hs Ht).
  cbv zeta. cbn [forward]. rewrite Hok. cbn [negb].
  rewrite (read_non_null (safeReadError response) "message" Hn).
  cbn [fw_success fw_errorCode fw_error negb code_or].
  rewrite envelope_type_match. reflexivity.
Qed.

(** X8.  A provider error reply whose JSON body is [null] is not
    propagated with its status: reading [message] of [null] throws
    inside the [try] of [forward], the [catch] clause takes the
    [TypeError] for a network error, and the middleware replies 502 with
    an [api_error] envelope. *)
Theorem null_error_body_reported_as_network_error
        (cfg : AugmentConfig) (req : AugmentRequest)
        (transport : FetchCall -> FetchOutcome) (now : Z)
        (augmentedBody : OpenRouterRequest) (result : AugmentResult) (response : Response) :
  Detector.isClaudeCodeRequest cfg req = Ok true ->
  augmentRequest cfg req = Ok (augmentedBody, result) ->
  success result = true ->
  transport (fetch_call cfg augmentedBody) = Resolved response ->
  ok response = false ->
  json response = Ok JNull ->
  forward (Resolved response) =
    mkForward false None (Str_ (network_error_message (null_read "message"))) (Some 502%Z)
  /\ handle cfg transport now req =
     mkRun (Fetch (fetch_call cfg augmentedBody)
              :: error_reply 502 "api_error" (network_error_message (null_read "message")))
           (Ok true).
Proof.
  intros Hd Ha Hs Ht Hok Hj.
  rewrite (handle_resolved cfg req transport now augmentedBody result response Hd Ha Hs Ht).
  cbv zeta. cbn [forward]. unfold safeReadError. rewrite Hok, Hj. cbn [negb read].
  split; reflexivity.
Qed.

(** X9.  Only [stream === false] selects the JSON reply: for any other
    value of the flag, an absent one included, the provider's
    successful response is answered with the three streaming headers
    and the transcoded events of its body; for [false], with the
    converted JSON document and no header, or, when the conversion
    throws, with no reply and the rejection of the promise. *)
Theorem stream_flag_selects_reply (cfg : AugmentConfig) (req : AugmentRequest)
        (transport : FetchCall -> FetchOutcome) (now : Z)
        (augmentedBody : OpenRouterRequest) (result : AugmentResult)
        (response : Response) (chunks : list string) (data : JSON) :
  Detector.isClaudeCodeRequest cfg req = Ok true ->
  augmentRequest cfg req = Ok (augmentedBody, result) ->
  success result = true ->
  transport (fetch_call cfg augmentedBody) = Resolved response ->
  ok response = true ->
  resp_body response = Some chunks ->
  json response = Ok data ->
  (stream (body req) <> Data (JBool false) ->
   handle cfg transport now req =
   mkRun (Fetch (fetch_call cfg augmentedBody)
            :: streaming_headers
            ++ [ReplySend (EventStream (transformOpenRouterToAnthropic now chunks))])
         (Ok true))
  /\ (stream (body req) = Data (JBool false) ->
      (forall message,
         convertOpenRouterResponseToAnthropic now data = Ok message ->
         handle cfg transport now req =
         mkRun [Fetch (fetch_call cfg augmentedBody); ReplySend (MessageBody message)]
               (Ok true))
      /\ (forall e,
            convertOpenRouterResponseToAnthropic now data = Throw e ->
            handle cfg transport now req =
            mkRun [Fetch (fetch_call cfg augmentedBody)] (Throw e))).
Proof.
  intros Hd Ha Hs Ht Hok Hb Hj.
  rewrite (handle_resolved cfg req transport now augmentedBody result response Hd Ha Hs Ht).
  cbv zeta. cbn [forward]. rewrite Hok. cbn [negb fw_success fw_response].
  unfold handleStreamingResponse, handleNonStreamingResponse. rewrite Hb, Hj. cbn [bind].
  split; intros Hst.
  - destruct (stream (body req)) as [|[| [] | | | |]| |]; try reflexivity. congruence.
  - rewrite Hst. cbn [not_false]. split; intros x ->; reflexivity.
Qed.

(** X10.  On the streaming path a response without body makes [handle]
    reject with [Response body is null] after the fetch and after the
    three streaming headers are set: nothing is sent. *)
Theorem streaming_without_body_rejects (cfg : AugmentConfig) (req : AugmentRequest)
        (transport : FetchCall -> FetchOutcome) (now : Z)
        (augmentedBody : OpenRouterRequest) (result : AugmentResult) (response : Response) :
  Detector.isClaudeCodeRequest cfg req = Ok true ->
  augmentRequest cfg req = Ok (augmentedBody, result) ->
  success result = true ->
  transport (fetch_call cfg augmentedBody) = Resolved response ->
  ok response = true ->
  resp_body response = None ->
  stream (body req) <> Data (JBool false) ->
  handle cfg transport now req =
  mkRun (Fetch (fetch_call cfg augmentedBody) :: streaming_headers)
        (Throw (mkError "Error" None "Response body is null")).
Proof.
  intros Hd Ha Hs Ht Hok Hb Hst.
  rewrite (handle_resolved cfg req transport now augmentedBody result response Hd Ha Hs Ht).
  cbv zeta. cbn [forward]. rewrite Hok. cbn [negb fw_success fw_response].
  unfold handleStreamingResponse. rewrite Hb.
  destruct (stream (body req)) as [|[| [] | | | |]| |]; try reflexivity. congruence.
Qed.

Lemma augmentRequest_success cfg req augmentedBody result :
  augmentRequest cfg req = Ok (augmentedBody, result) ->
  success result = true ->
  success (validateConfig cfg) = true.
Proof.
  unfold augmentRequest. destruct (success (validateConfig cfg)) eqn:E; [reflexivity|].
  cbn [negb]. intros [= _ <-] H. congruence.
Qed.

(** X11.  [handle] calls the provider at most once, and only for a
    request that the detector matches under a policy that passes
    validation; a request that is not matched leaves no trace: no fetch,
    no reply, and the hook reports it as not handled. *)
Theorem handle_fetch_discipline (cfg : AugmentConfig) (transport : FetchCall -> FetchOutcome)
        (now : Z) (req : AugmentRequest) :
  List.length (filter is_fetch (effects (handle cfg transport now req))) <= 1
  /\ (existsb is_fetch (effects (handle cfg transport now req)) = true ->
      Detector.isClaudeCodeRequest cfg req = Ok true
      /\ success (validateConfig cfg) = true)
  /\ (Detector.isClaudeCodeRequest cfg req = Ok false ->
      handle cfg transport now req = mkRun [] (Ok false)).
Proof.
  unfold handle.
  destruct (enabled cfg) eqn:He; cbn [negb].
  2: { repeat split; auto; discriminate. }
  destruct (Detector.isClaudeCodeRequest cfg req) as [[|]|e0] eqn:Hd.
  2: { repeat split; auto; discriminate. }
  2: { repeat split; auto; discriminate. }
  destruct (augmentRequest cfg req) as [[augmentedBody result]|e] eqn:Ha.
  2: { repeat split; auto; discriminate. }
  destruct (success result) eqn:Hs; cbn [negb].
  2: { repeat split; auto; discriminate. }
  pose proof (augmentRequest_success cfg req augmentedBody result Ha Hs) as Hv.
  destruct (fw_success _); cbn [negb];
    [destruct (fw_response _);
     [destruct (not_false _);
      [destruct (handleStreamingResponse _ _) | destruct (handleNonStreamingResponse _ _)]|]|];
    cbn; repeat split; auto; discriminate.
Qed.

(** X12.  Whenever [handle] reports a request as handled, exactly one
    body has been sent on the reply, preceded by at most one status. *)
Theorem handled_request_gets_one_reply (cfg : AugmentConfig)
        (transport : FetchCall -> FetchOutcome) (now : Z) (req : AugmentRequest) :
  outcome (handle cfg transport now req) = Ok true ->
  List.length (filter is_send (effects (handle cfg transport now req))) = 1
  /\ List.length (filter is_status (effects (handle cfg transport now req))) <= 1.
Proof.
  unfold handle.
  destruct (enabled cfg); cbn [negb]; [|discriminate].
  destruct (Detector.isClaudeCodeRequest cfg req) as [[|]|e0]; try discriminate.
  destruct (augmentRequest cfg req) as [[augmentedBody result]|e]; [|discriminate].
  destruct (success result); cbn [negb]; [|intros _; cbn; auto].
  destruct (transport (fetch_call cfg augmentedBody)) as [response|e]; cbn [forward].
  - destruct (ok response); cbn [negb fw_success fw_response].
    + destruct (not_false _);
        [destruct (handleStreamingResponse _ _) | destruct (handleNonStreamingResponse _ _)];
        cbn; intros H; try discriminate; auto.
    + destruct (read (safeReadError response) "message") as [m|e]; cbn [fw_success negb].
      * intros _. cbn. auto.
      * unfold forward_catch. destruct (is_network_error e); intros _; cbn; auto.
  - unfold forward_catch. destruct (is_network_error e); intros _; cbn; auto.
Qed.

(** X13.  The pre-handler has an effect only on a url that starts with
    [/v1/messages] and does not contain [/count_tokens], and then only
    for a request that the detector matches; on such a url it is
    [handle]. *)
Theorem augmentPreHandler_routes (cfg : AugmentConfig)
        (transport : FetchCall -> FetchOutcome) (now : Z) (url : string)
        (req : AugmentRequest) :
  (effects (augmentPreHandler cfg transport now url req) <> [] ->
   Str.startsWith "/v1/messages" url = true
   /\ Str.includes "/count_tokens" url = false
   /\ Detector.isClaudeCodeRequest cfg req = Ok true)
  /\ (Str.startsWith "/v1/messages" url = true ->
      Str.includes "/count_tokens" url = false ->
      augmentPreHandler cfg transport now url req = handle cfg transport now req).
Proof.
  unfold augmentPreHandler. split.
  - destruct (Str.startsWith "/v1/messages" url); cbn [negb]; [|intros H; contradiction H; reflexivity].
    destruct (Str.includes "/count_tokens" url); [intros H; contradiction H; reflexivity|].
    intros H. repeat split.
    destruct (Detector.isClaudeCodeRequest cfg req) as [[|]|e] eqn:Hd; [reflexivity| |];
      exfalso; apply H; apply handle_undetected; rewrite Hd; discriminate.
  - intros -> ->. reflexivity.
Qed.

End WithRuntime.

End ForwardCoverage.

Module AugmenterCoverage.
Import JS Types Augmenter Middleware Augmentation Notions.
Import AugmenterProofs MiddlewareProofs.

Section WithRuntime.
Context {rt : Runtime}.

(** *** Content blocks *)

Lemma converts_to_length block pushed :
  converts_to block pushed ->
  List.length pushed = if is_unsupported_image block then 0 else 1.
Proof.
  unfold is_unsupported_image.
  intros [b Hty | b mt dt (Hty & Hs) _ _ | b Hty Hs | b (Hty & Hb & Hu) | b Hty | b Hty
         | b (_ & _ & H2 & _ & _)].
  - rewrite Hty. reflexivity.
  - rewrite Hty, Hs. reflexivity.
  - rewrite Hty, Hs. reflexivity.
  - rewrite Hty, (strict_eq_string_false _ _ Hb), (strict_eq_string_false _ _ Hu).
    reflexivity.
  - rewrite Hty. reflexivity.
  - rewrite Hty. reflexivity.
  - rewrite (strict_eq_string_false _ _ H2). reflexivity.
Qed.

Lemma converts_to_count blocks groups :
  Forall2 converts_to blocks groups ->
  List.length (concat groups) + List.length (filter is_unsupported_image blocks)
  = List.length blocks.
Proof.
  induction 1 as [|block pushed blocks groups Hb _ IH]; [reflexivity|].
  cbn [concat filter]. rewrite length_app, (converts_to_length block pushed Hb).
  destruct (is_unsupported_image block); cbn [List.length] in *; lia.
Qed.

(** X14.  The conversion of a sequence of blocks none of which is
    [null], and whose inline images have a media type and data with a
    string form, never adds a block and loses exactly the images whose
    source is neither [base64] nor [url]: the converted sequence has as
    many blocks as the inbound one has blocks other than such
    images. *)
Theorem convertBlocks_loses_only_images (content : list JSON) :
  Forall convertible_block content ->
  exists converted,
    convertBlocks content [] = Ok converted
    /\ List.length converted + List.length (filter is_unsupported_image content)
       = List.length content
    /\ List.length converted <= List.length content.
Proof.
  intros H. destruct (convertible_blocks_convert content H) as (groups & Hg).
  exists (concat groups).
  pose proof (converts_to_count content groups Hg) as Hn.
  split; [exact (convertBlocks_converts content groups [] Hg)|]. split; lia.
Qed.

Lemma convertBlocks_null pre post acc :
  Forall convertible_block pre ->
  convertBlocks (pre ++ JNull :: post) acc = Throw (null_read "type").
Proof.
  intros H. rewrite convertBlocks_app.
  destruct (convertBlocks_total pre acc H) as [converted ->]. reflexivity.
Qed.

(** *** Messages *)

Lemma convertMessages_loop_app a b acc :
  convertMessages_loop (a ++ b) acc =
  (converted <- convertMessages_loop a acc ;; convertMessages_loop b converted).
Proof.
  revert acc. induction a as [|m a IH]; intros acc; [reflexivity|].
  cbn [app convertMessages_loop].
  destruct (String.eqb (role m) "system"); [apply IH|].
  destruct (convertContent (content m)) as [c|e]; cbn [bind]; [apply IH | reflexivity].
Qed.

Lemma convertMessages_loop_verbatim msgs acc :
  Forall string_content msgs ->
  convertMessages_loop msgs acc = Ok (acc ++ map verbatim (filter non_system msgs)).
Proof.
  intros H. revert acc. induction H as [|m rest [text Hm] _ IH]; intros acc.
  - cbn. rewrite app_nil_r. reflexivity.
  - cbn [convertMessages_loop filter]. unfold non_system at 1.
    destruct (String.eqb (role m) "system"); cbn [negb]; [apply IH|].
    rewrite Hm. cbn [convertContent typeof Str_ String.eqb Ascii.eqb Bool.eqb bind].
    rewrite IH, <- app_assoc. cbn [map app]. unfold verbatim. rewrite Hm. reflexivity.
Qed.

(** X15.  Messages whose content is a string are forwarded with their
    role and their text unchanged, in their order, the messages of
    role [system] being left out; no exception is possible. *)
Theorem string_messages_verbatim (msgs : list MessageParam) :
  Forall string_content msgs ->
  convertMessages msgs = Ok (map verbatim (filter non_system msgs)).
Proof.
  intros H. unfold convertMessages.
  rewrite (convertMessages_loop_verbatim msgs [] H). reflexivity.
Qed.


(** X17.  A [null] content block makes the whole request fail: when
    everything that is converted before it can be converted, the
    conversion throws the [TypeError] of reading [type] of [null],
    [augmentRequest] throws it, and [handle] rejects with it without
    sending a reply and without calling the provider. *)
Theorem null_block_rejects (cfg : AugmentConfig) (transport : Forwarder.FetchCall ->
                                                              Forwarder.FetchOutcome)
        (now : Z) (req : AugmentRequest)
        (before after : list MessageParam) (m : MessageParam) (pre post : list JSON) :
  Detector.isClaudeCodeRequest cfg req = Ok true ->
  valid cfg ->
  Forall (convertible_segment cfg) (elements (system (body req))) ->
  messages (body req) = before ++ m :: after ->
  Forall (fun m => role m = "system" \/ convertible_content (content m)) before ->
  role m <> "system" ->
  content m = Data (JArr (pre ++ JNull :: post)) ->
  Forall convertible_block pre ->
  convertContent (content m) = Throw (null_read "type")
  /\ augmentRequest cfg req = Throw (null_read "type")
  /\ handle cfg transport now req = mkRun [] (Throw (null_read "type")).
Proof.
  intros Hd Hv Hs Hm Hb Hr Hc Hp.
  assert (H1 : convertContent (content m) = Throw (null_read "type")).
  { rewrite Hc. unfold convertContent. cbn [typeof String.eqb Ascii.eqb Bool.eqb isArray negb elements].
    rewrite (convertBlocks_null pre post [] Hp). reflexivity. }
  assert (H2 : augmentRequest cfg req = Throw (null_read "type")).
  { unfold augmentRequest. rewrite (validateConfig_valid cfg Hv). cbn [success negb].
    rewrite (buildSystemPrompt_text cfg req Hs). cbn [bind].
    unfold convertMessages. rewrite Hm, convertMessages_loop_app.
    destruct (convertMessages_loop_translates before [] Hb) as (conv & -> & _).
    cbn [bind app convertMessages_loop].
    destruct (String.eqb (role m) "system") eqn:E;
      [apply String.eqb_eq in E; contradiction|].
    rewrite H1. reflexivity. }
  split; [exact H1|]. split; [exact H2|].
  rewrite (handle_detected cfg req transport now Hd), H2. reflexivity.
Qed.

(** *** Tools and sampling parameters *)

Lemma convertTools_map tools :
  Forall non_null tools -> convertTools tools = Ok (map tool_out tools).
Proof.
  induction 1 as [|t rest Ht _ IH]; [reflexivity|].
  cbn [convertTools map]. unfold convertTool, tool_out.
  rewrite (read_non_null t "type" Ht). cbn [bind]. rewrite IH.
  destruct (strict_eq_string (field t "type") "function"); reflexivity.
Qed.

(** X18.  Every inbound tool becomes one outbound tool, in order: a
    tool already of type [function] is passed unchanged, any other
    becomes a function declaration with its name, its description and
    its input schema as parameters. *)
Theorem convertTools_one_for_one (tools : list JSON) :
  Forall non_null tools ->
  exists out,
    convertTools tools = Ok out
    /\ List.length out = List.length tools
    /\ Forall2 (fun tool o =>
                  (field tool "type" = Str_ "function" /\ o = ToolPass tool)
                  \/ (field tool "type" <> Str_ "function"
                      /\ o = ToolFunction (field tool "name") (field tool "description")
                                          (field tool "input_schema")))
               tools out.
Proof.
  intros H. exists (map tool_out tools).
  split; [exact (convertTools_map tools H)|]. split; [apply length_map|].
  clear H. induction tools as [|t rest IH]; [constructor|].
  cbn [map]. constructor; [|exact IH]. unfold tool_out.
  destruct (strict_eq_string (field t "type") "function") eqn:E.
  - left. apply strict_eq_string_true in E. auto.
  - right. split; [|reflexivity]. intros E'. rewrite E' in E. discriminate.
Qed.

(** X19.  Of the properties of the body outside its declared fields,
    exactly the six allow-listed sampling parameters that the body owns
    are copied, with their values; nothing else is. *)
Theorem copyAdditional_allow_list (originalBody : Body) (name : string) (value : JSON) :
  In (name, value) (copyAdditional originalBody) <->
  In name additionalFields /\ assoc name (other originalBody) = Some value.
Proof.
  unfold copyAdditional. rewrite in_flat_map. split.
  - intros (f & Hf & Hin).
    destruct (assoc f (other originalBody)) as [v|] eqn:E; [|destruct Hin].
    destruct Hin as [[= <- <-]|[]]. auto.
  - intros (Hf & Ha). exists name. split; [exact Hf|]. rewrite Ha. left. reflexivity.
Qed.

(** X20.  On success the outbound request carries the model, the token
    limit and the stream flag of the inbound body as they are, the
    allow-listed sampling parameters, and the converted tools when the
    inbound tool list is not empty, no tools property otherwise. *)
Theorem augmentRequest_passes_through (cfg : AugmentConfig) (req : AugmentRequest)
        (augmentedBody : OpenRouterRequest) (result : AugmentResult) :
  augmentRequest cfg req = Ok (augmentedBody, result) ->
  success result = true ->
  or_model augmentedBody = model (body req)
  /\ or_max_tokens augmentedBody = max_tokens (body req)
  /\ or_stream augmentedBody = stream (body req)
  /\ or_extra augmentedBody = copyAdditional (body req)
  /\ or_tools augmentedBody = tools_out tool_out (tools (body req)).
Proof.
  unfold augmentRequest. intros H Hs.
  destruct (success (validateConfig cfg)) eqn:Ev; cbn [negb] in H.
  2: { injection H as _ <-. congruence. }
  destruct (buildSystemPrompt cfg (system (body req))) as [text|e]; [|discriminate H].
  cbn [bind] in H.
  destruct (convertMessages (messages (body req))) as [conv|e]; [|discriminate H].
  cbn [bind] in H.
  destruct (tools (body req)) as [[|t ts]|]; cbn [bind tools_out] in *.
  - injection H as <- _. repeat split.
  - destruct (convertTools (t :: ts)) as [out|e] eqn:Et; [|discriminate H].
    rewrite (convertTools_map _ (convertTools_ok _ _ Et)) in Et. injection Et as <-.
    cbn [bind] in H. injection H as <- _. repeat split.
  - injection H as <- _. repeat split.
Qed.

End WithRuntime.

End AugmenterCoverage.

Module DetectorCoverage.
Import JS Types Detector Notions.

Lemma split_sep_app sep p q :
  Str.split sep (p ++ String sep q) = Str.split sep p ++ Str.split sep q.
Proof.
  induction p as [|c r IH]; cbn [String.append Str.split].
  - rewrite Ascii.eqb_refl. reflexivity.
  - rewrite IH. pose proof (StrFacts.split_not_nil sep r) as Hr.
    destruct (Ascii.eqb c sep); [reflexivity|].
    destruct (Str.split sep r) as [|h t]; [contradiction | reflexivity].
Qed.

Section WithRuntime.
Context {rt : Runtime}.

Lemma checkHeader_loop_rename rename name expected entries :
  (forall key, toLowerCase (rename key) = toLowerCase key) ->
  checkHeader_loop name expected (map (fun kv => (rename (fst kv), snd kv)) entries) =
  checkHeader_loop name expected entries.
Proof.
  intros H. induction entries as [|[key value] rest IH]; [reflexivity|].
  cbn [map checkHeader_loop fst snd]. rewrite H, IH. reflexivity.
Qed.

(** X21.  The header criterion does not see the case of names: it is
    the same for two configured field names that are equal up to case,
    and the same after the header names of the request are rewritten
    in another case. *)
Theorem checkHeader_case_insensitive (req : AugmentRequest) (d : Detection)
        (name name' : string) (rename : string -> string) :
  toLowerCase name = toLowerCase name' ->
  Str.nonempty name = true ->
  Str.nonempty name' = true ->
  (forall key, toLowerCase (rename key) = toLowerCase key) ->
  checkHeader (rename_headers rename req) (with_header_field name' d) =
  checkHeader req (with_header_field name d).
Proof.
  intros Hn He He' Hr. unfold checkHeader, with_header_field, rename_headers.
  cbn [header_field header_value headers]. rewrite He, He', Hn. cbn [negb].
  destruct (headers req) as [entries|]; [|reflexivity].
  apply checkHeader_loop_rename. exact Hr.
Qed.

Lemma getNestedValue_loop_app current keys keys' :
  keys' <> [] ->
  getNestedValue_loop current (keys ++ keys') =
  getNestedValue_loop (getNestedValue_loop current keys) keys'.
Proof.
  intros Hne. revert current. induction keys as [|key rest IH]; intros current; [reflexivity|].
  cbn [app getNestedValue_loop].
  destruct (as_object current); [apply IH|].
  destruct keys' as [|key' rest']; [contradiction | reflexivity].
Qed.

(** X22.  A dotted path is resolved segment by segment: the value at
    [p.q] is the value at [q] inside the value at [p], whatever the
    object and the paths. *)
Theorem getNestedValue_composes (obj : JSValue) (p q : string) :
  getNestedValue obj (p ++ String "."%char q) =
  getNestedValue (getNestedValue obj p) q.
Proof.
  unfold getNestedValue. rewrite split_sep_app.
  apply getNestedValue_loop_app. apply StrFacts.split_not_nil.
Qed.

(** X23.  A key that the metadata object owns satisfies the metadata
    criterion by its presence when no expected value is configured,
    whatever its value is, [null], [false] and [0] included; with an
    expected value configured, the criterion compares it with the
    string form of the value, and throws a [TypeError] when the value
    has none. *)
Theorem metadata_presence_matches (req : AugmentRequest) (d : Detection)
        (fields : list (string * JSON)) (key : string) (value : JSON) :
  metadata (body req) = Data (JObj fields) ->
  metadata_field d = Some key ->
  Str.nonempty key = true ->
  Str.split "."%char key = [key] ->
  assoc key fields = Some value ->
  (Str.configured (metadata_value d) = false -> checkMetadata req d = Ok true)
  /\ (forall expected,
        metadata_value d = Some expected -> Str.nonempty expected = true ->
        (stringable value = true ->
         checkMetadata req d = Ok (String.eqb (json_text value) expected))
        /\ (stringable value = false ->
            checkMetadata req d = Throw to_primitive_error)).
Proof.
  intros Hmd Hf Hk Hs Ha. unfold checkMetadata, getNestedValue.
  rewrite Hf, Hk, Hmd, Hs. cbn [negb as_object getNestedValue_loop get].
  rewrite Ha. cbn [is_undefined]. split.
  - unfold Str.configured. destruct (metadata_value d) as [v|]; [|reflexivity].
    intros ->. reflexivity.
  - intros expected -> ->. unfold toString. cbn [can_convert value_text].
    split; intros ->; reflexivity.
Qed.

End WithRuntime.

End DetectorCoverage.

Module ResponseCoverage.
Import JS Types Forwarder Transcoding Notions.
Import AugmenterProofs.

Section WithRuntime.
Context {rt : Runtime}.



End WithRuntime.

End ResponseCoverage.

Module IndexCoverage.
Import JS Types Augmenter Augmentation Index.

(** X25.  Merging is the identity for an override that owns no
    property, returns the overriding configuration when it owns every
    property, and merging the same override twice is merging it
    once. *)
Theorem mergeAugmentConfig_laws (base cfg : AugmentConfig) (override : PartialConfig) :
  mergeAugmentConfig base no_override = base
  /\ mergeAugmentConfig base (full cfg) = cfg
  /\ mergeAugmentConfig (mergeAugmentConfig base override) override =
     mergeAugmentConfig base override.
Proof.
  destruct base as [e p a c ep au [hf hv mf mv]], cfg as [e' p' a' c' ep' au' [hf' hv' mf' mv']].
  repeat split.
  destruct override as [oe op oa oc oep oau [[ohf ohv omf omv]|]]; unfold mergeAugmentConfig;
    cbn; [|destruct oe, op, oa, oc, oep, oau; reflexivity].
  destruct oe, op, oa, oc, oep, oau, ohf, ohv, omf, omv; reflexivity.
Qed.

(** Only the detection properties that the override owns are
    replaced. *)
Lemma mergeAugmentConfig_detection (base : AugmentConfig) (override : PartialConfig)
        (d : DetectionOverride) :
  (p_detection override = None ->
   detection (mergeAugmentConfig base override) = detection base)
  /\ (p_detection override = Some d ->
      o_header_field d = None ->
      header_field (detection (mergeAugmentConfig base override))
      = header_field (detection base))
  /\ (p_detection override = Some d ->
      forall value, o_header_value d = Some value ->
      header_value (detection (mergeAugmentConfig base override)) = value).
Proof.
  unfold mergeAugmentConfig. repeat split.
  - intros ->. reflexivity.
  - intros -> H. cbn. rewrite H. reflexivity.
  - intros -> value H. cbn. rewrite H. reflexivity.
Qed.

Section WithRuntime.
Context {rt : Runtime}.

(** X26.  The two validators agree: [validateAugmentConfig] accepts
    every disabled configuration, and for an enabled one it is valid
    exactly when [validateConfig] succeeds and reports one error per
    violated rule, where [validateConfig] reports the first only. *)
Theorem validators_agree (cfg : AugmentConfig) :
  (enabled cfg = false ->
   validateAugmentConfig (full cfg) = mkValidation true [])
  /\ (enabled cfg = true ->
      is_valid (validateAugmentConfig (full cfg)) = success (validateConfig cfg)
      /\ List.length (errors (validateAugmentConfig (full cfg)))
         = List.length (violations cfg)).
Proof.
  unfold validateAugmentConfig, validateConfig, violations, full, failure.
  cbn [p_enabled p_openrouter_endpoint p_openrouter_auth p_additional_instructions
       p_extra_context Str.configured present_truthy present_array present_typeof].
  split; intros ->; [reflexivity|].
  destruct (Str.nonempty (openrouter_endpoint cfg)),
           (Str.nonempty (openrouter_auth cfg)),
           (truthy (additional_instructions cfg)
            && negb (isArray (additional_instructions cfg))),
           (truthy (extra_context cfg)
            && negb (String.eqb (typeof (extra_context cfg)) "object"));
    split; reflexivity.
Qed.

End WithRuntime.

End IndexCoverage.

Module SystemCoverage.
Import JS Types Augmenter Augmentation Notions.
Import AugmenterProofs.

Section WithRuntime.
Context {rt : Runtime}.

(** X27.  A [system] value that is not an array, a plain string
    included, is treated as absent: [augmentRequest] returns what it
    returns for the request without [system], so that such a system
    prompt is not forwarded. *)
Theorem non_array_system_ignored (cfg : AugmentConfig) (req : AugmentRequest) :
  isArray (system (body req)) = false ->
  augmentRequest cfg req = augmentRequest cfg (with_system Undefined req).
Proof.
  intros H. unfold augmentRequest, buildSystemPrompt, with_system.
  cbn [body system messages tools model max_tokens stream].
  rewrite H, andb_false_r. reflexivity.
Qed.

Lemma buildSystemPrompt_loop_null replaced pre post parts :
  Forall non_null pre ->
  buildSystemPrompt_loop replaced (pre ++ JNull :: post) parts = Throw (null_read "type").
Proof.
  intros H. revert parts. induction H as [|item rest Hi _ IH]; intros parts; [reflexivity|].
  cbn [app buildSystemPrompt_loop]. rewrite (read_non_null item "type" Hi). cbn [bind].
  apply IH.
Qed.

(** X28.  A [null] segment in the inbound [system] array makes
    [augmentRequest] throw the [TypeError] of reading [type] of
    [null], also when a replacement prompt is configured and the
    inbound system content is to be discarded. *)
Theorem null_system_segment_rejects (cfg : AugmentConfig) (req : AugmentRequest)
        (pre post : list JSON) :
  valid cfg ->
  system (body req) = Data (JArr (pre ++ JNull :: post)) ->
  Forall non_null pre ->
  augmentRequest cfg req = Throw (null_read "type").
Proof.
  intros Hv Hs Hp. unfold augmentRequest.
  rewrite (validateConfig_valid cfg Hv). cbn [success negb].
  unfold buildSystemPrompt. rewrite Hs. cbn [truthy isArray andb elements].
  rewrite (buildSystemPrompt_loop_null _ pre post _ Hp). reflexivity.
Qed.

End WithRuntime.

End SystemCoverage.

(* ================================================================== *)
(** * The further properties on sample inputs *)
(* ================================================================== *)

Module CoverageInstances.
Import JS Types Augmenter Forwarder Middleware Index.
Import Augmentation Transcoding ErrorHandling Notions Samples MoreSamples.

#[local] Existing Instance ReferenceRuntime.runtime.

Ltac convertibles :=
  repeat (apply Forall_cons;
          [split; [intros H; discriminate H | intros; first [reflexivity | split; reflexivity]]|]);
  apply Forall_nil.

Ltac non_nulls :=
  repeat (apply Forall_cons; [intros H; discriminate H|]); apply Forall_nil.

Ltac augmented cfg req body Ha :=
  assert (Ha : exists body,
             augmentRequest cfg req = Ok (body, mkResult true true None None))
    by (eexists; lazy; reflexivity);
  destruct Ha as (body & Ha).

Ltac detected cfg req Hd :=
  assert (Hd : Detector.isClaudeCodeRequest cfg req = Ok true) by (vm_compute; reflexivity).

(** *** Streaming *)

Lemma transcoder_chunking_witness :
  transformOpenRouterToAnthropic 0 finished_stream =
  transformOpenRouterToAnthropic 0 [Str.concat_all finished_stream].
Proof.
  apply StreamCoverage.transcoder_chunking. vm_compute. reflexivity.
Defined.

Lemma unterminated_line_ignored_witness :
  transformOpenRouterToAnthropic 0 ([first_line] ++ [unterminated]) =
  transformOpenRouterToAnthropic 0 [first_line].
Proof.
  apply StreamCoverage.unterminated_line_ignored. vm_compute. reflexivity.
Defined.

Lemma noise_line_skipped_witness :
  transformOpenRouterToAnthropic 0 ([first_line] ++ (comment_line ++ Str.nl)%string
                                                 :: [last_line]) =
  transformOpenRouterToAnthropic 0 ([first_line] ++ [last_line]).
Proof.
  apply StreamCoverage.noise_line_skipped; vm_compute; reflexivity.
Defined.

(** *** Forwarding *)

Lemma upstream_error_propagated_witness :
  replies (handle plain_config (answering rate_limited) 0 hello_request) =
  error_reply 429 "invalid_request_error" "Rate limit exceeded".
Proof.
  augmented plain_config hello_request augmentedBody Ha.
  detected plain_config hello_request Hd.
  rewrite (ForwardCoverage.upstream_error_propagated
             plain_config hello_request (answering rate_limited) 0
             augmentedBody (mkResult true true None None) rate_limited
             Hd Ha eq_refl eq_refl eq_refl ltac:(discriminate)).
  reflexivity.
Defined.

Lemma null_error_body_reported_as_network_error_witness :
  fw_errorCode (forward (Resolved null_error)) = Some 502%Z
  /\ replies (handle plain_config (answering null_error) 0 hello_request) =
     error_reply 502 "api_error" (network_error_message (null_read "message")).
Proof.
  augmented plain_config hello_request augmentedBody Ha.
  detected plain_config hello_request Hd.
  destruct (ForwardCoverage.null_error_body_reported_as_network_error
              plain_config hello_request (answering null_error) 0
              augmentedBody (mkResult true true None None) null_error
              Hd Ha eq_refl eq_refl eq_refl eq_refl) as (Hf & Hh).
  rewrite Hf, Hh. split; reflexivity.
Defined.

Lemma stream_flag_selects_reply_witness :
  replies (handle plain_config (answering ok_json) 0 hello_request) =
    streaming_headers
      ++ [ReplySend (EventStream (transformOpenRouterToAnthropic 0 finished_stream))]
  /\ (exists message,
        convertOpenRouterResponseToAnthropic 0 completion = Ok message
        /\ replies (handle augmenting_config (answering ok_json) 0 conversation) =
           [ReplySend (MessageBody message)])
  /\ outcome (handle augmenting_config (answering opaque_json) 0 conversation) =
     Throw to_primitive_error.
Proof.
  split; [|split].
  - augmented plain_config hello_request augmentedBody Ha.
    detected plain_config hello_request Hd.
    rewrite (proj1 (ForwardCoverage.stream_flag_selects_reply
                      plain_config hello_request (answering ok_json) 0
                      augmentedBody (mkResult true true None None) ok_json
                      finished_stream completion
                      Hd Ha eq_refl eq_refl eq_refl eq_refl eq_refl)
                   ltac:(discriminate)).
    reflexivity.
  - augmented augmenting_config conversation augmentedBody Ha.
    detected augmenting_config conversation Hd.
    assert (Hm : exists message,
               convertOpenRouterResponseToAnthropic 0 completion = Ok message)
      by (eexists; lazy; reflexivity).
    destruct Hm as (message & Hm). exists message. split; [exact Hm|].
    rewrite (proj1 (proj2 (ForwardCoverage.stream_flag_selects_reply
                             augmenting_config conversation (answering ok_json) 0
                             augmentedBody (mkResult true true None None) ok_json
                             finished_stream completion
                             Hd Ha eq_refl eq_refl eq_refl eq_refl eq_refl)
                          eq_refl)
                   message Hm).
    reflexivity.
  - augmented augmenting_config conversation augmentedBody Ha.
    detected augmenting_config conversation Hd.
    rewrite (proj2 (proj2 (ForwardCoverage.stream_flag_selects_reply
                             augmenting_config conversation (answering opaque_json) 0
                             augmentedBody (mkResult true true None None) opaque_json
                             finished_stream opaque_completion
                             Hd Ha eq_refl eq_refl eq_refl eq_refl eq_refl)
                          eq_refl)
                   to_primitive_error eq_refl).
    reflexivity.
Defined.

Lemma streaming_without_body_rejects_witness :
  outcome (handle plain_config (answering bodiless) 0 hello_request) =
    Throw (mkError "Error" None "Response body is null")
  /\ replies (handle plain_config (answering bodiless) 0 hello_request) = streaming_headers.
Proof.
  augmented plain_config hello_request augmentedBody Ha.
  detected plain_config hello_request Hd.
  rewrite (ForwardCoverage.streaming_without_body_rejects
             plain_config hello_request (answering bodiless) 0
             augmentedBody (mkResult true true None None) bodiless
             Hd Ha eq_refl eq_refl eq_refl eq_refl ltac:(discriminate)).
  split; reflexivity.
Defined.

Lemma handle_fetch_discipline_witness :
  Detector.isClaudeCodeRequest plain_config hello_request = Ok true
  /\ success (validateConfig plain_config) = true.
Proof.
  apply (proj1 (proj2 (ForwardCoverage.handle_fetch_discipline
                         plain_config (failing refused) 0 hello_request))).
  vm_compute. reflexivity.
Defined.

Lemma handled_request_gets_one_reply_witness :
  List.length (filter is_send
                 (effects (handle invalid_config (failing refused) 0 conversation))) = 1
  /\ List.length (filter is_status
                    (effects (handle invalid_config (failing refused) 0 conversation))) <= 1.
Proof.
  apply ForwardCoverage.handled_request_gets_one_reply. vm_compute. reflexivity.
Defined.

Lemma augmentPreHandler_routes_witness :
  augmentPreHandler plain_config (failing refused) 0 "/v1/messages?beta=true" hello_request =
  handle plain_config (failing refused) 0 hello_request.
Proof.
  apply (proj2 (ForwardCoverage.augmentPreHandler_routes
                  plain_config (failing refused) 0 "/v1/messages?beta=true" hello_request));
    reflexivity.
Defined.

(** *** Augmentation *)

Lemma convertBlocks_loses_only_images_witness :
  exists converted,
    convertBlocks mixed_blocks [] = Ok converted
    /\ List.length converted + List.length (filter is_unsupported_image mixed_blocks)
       = List.length mixed_blocks
    /\ List.length converted <= List.length mixed_blocks.
Proof.
  apply AugmenterCoverage.convertBlocks_loses_only_images. convertibles.
Defined.

Lemma string_messages_verbatim_witness :
  convertMessages string_messages = Ok (map verbatim (filter non_system string_messages)).
Proof.
  apply AugmenterCoverage.string_messages_verbatim.
  repeat (apply Forall_cons; [eexists; reflexivity|]). apply Forall_nil.
Defined.



Lemma sample_config_valid : valid augmenting_config.
Proof.
  repeat split; try discriminate; reflexivity.
Defined.

Lemma sample_plain_valid : valid plain_config.
Proof.
  repeat split; discriminate.
Defined.

Lemma null_block_rejects_witness :
  handle augmenting_config (failing refused) 0 null_block_request =
  mkRun [] (Throw (null_read "type")).
Proof.
  detected augmenting_config null_block_request Hd.
  apply (AugmenterCoverage.null_block_rejects
           augmenting_config (failing refused) 0 null_block_request
           [mkMessage "user" (Str_ "A")] []
           (mkMessage "user" (Data (JArr [text_block "B"; JNull; text_block "C"])))
           [text_block "B"] [text_block "C"]
           Hd sample_config_valid).
  - convertibles.
  - reflexivity.
  - apply Forall_cons; [right; reflexivity | apply Forall_nil].
  - discriminate.
  - reflexivity.
  - convertibles.
Defined.

Lemma convertTools_one_for_one_witness :
  exists out,
    convertTools [text_block "t"; JObj [("type", JStr "function")]] = Ok out
    /\ List.length out = 2.
Proof.
  destruct (AugmenterCoverage.convertTools_one_for_one
              [text_block "t"; JObj [("type", JStr "function")]] ltac:(non_nulls))
    as (out & Ho & Hl & _).
  exists out. split; assumption.
Defined.

Lemma copyAdditional_allow_list_witness :
  In ("stop", JArr [JStr "END"]) (copyAdditional (body tuned_request))
  /\ ~ In ("thinking", JBool true) (copyAdditional (body tuned_request)).
Proof.
  split.
  - apply (proj2 (AugmenterCoverage.copyAdditional_allow_list
                    (body tuned_request) "stop" (JArr [JStr "END"]))).
    split; [simpl; auto 10 | reflexivity].
  - intros H.
    apply (proj1 (AugmenterCoverage.copyAdditional_allow_list
                    (body tuned_request) "thinking" (JBool true))) in H.
    destruct H as (H & _). simpl in H.
    repeat (destruct H as [H|H]; [discriminate H|]). exact H.
Defined.

Lemma augmentRequest_passes_through_witness :
  exists augmentedBody,
    augmentRequest plain_config tuned_request =
      Ok (augmentedBody, mkResult true true None None)
    /\ or_model augmentedBody = model (body tuned_request)
    /\ or_max_tokens augmentedBody = max_tokens (body tuned_request)
    /\ or_stream augmentedBody = stream (body tuned_request)
    /\ or_extra augmentedBody = copyAdditional (body tuned_request)
    /\ or_tools augmentedBody = tools_out tool_out (tools (body tuned_request)).
Proof.
  augmented plain_config tuned_request augmentedBody Ha.
  exists augmentedBody. split; [exact Ha|].
  exact (AugmenterCoverage.augmentRequest_passes_through
           plain_config tuned_request augmentedBody (mkResult true true None None)
           Ha eq_refl).
Defined.

Lemma non_array_system_ignored_witness :
  augmentRequest plain_config (with_system (Str_ "You are helpful.") hello_request) =
  augmentRequest plain_config
                 (with_system Undefined (with_system (Str_ "You are helpful.") hello_request)).
Proof.
  apply SystemCoverage.non_array_system_ignored. reflexivity.
Defined.

Lemma null_system_segment_rejects_witness :
  augmentRequest augmenting_config
                 (with_system (Data (JArr ([text_block "a"] ++ JNull :: []))) conversation) =
  Throw (null_read "type").
Proof.
  apply (SystemCoverage.null_system_segment_rejects
           augmenting_config
           (with_system (Data (JArr ([text_block "a"] ++ JNull :: []))) conversation)
           [text_block "a"] [] sample_config_valid eq_refl).
  non_nulls.
Defined.

(** *** Detection *)

Lemma lower_char_idempotent c :
  ReferenceRuntime.lower_char (ReferenceRuntime.lower_char c) = ReferenceRuntime.lower_char c.
Proof.
  destruct c as [[] [] [] [] [] [] [] []]; reflexivity.
Qed.

Lemma lower_idempotent s :
  ReferenceRuntime.lower (ReferenceRuntime.lower s) = ReferenceRuntime.lower s.
Proof.
  induction s as [|c s IH]; [reflexivity|].
  cbn [ReferenceRuntime.lower]. rewrite lower_char_idempotent, IH. reflexivity.
Qed.

Lemma checkHeader_case_insensitive_witness :
  Detector.checkHeader (rename_headers ReferenceRuntime.lower hello_request)
                       (with_header_field "x-agent" header_detection) =
  Detector.checkHeader hello_request (with_header_field "X-Agent" header_detection).
Proof.
  apply DetectorCoverage.checkHeader_case_insensitive;
    [reflexivity | reflexivity | reflexivity | exact lower_idempotent].
Defined.

Lemma metadata_presence_matches_witness :
  Detector.checkMetadata null_flag_request presence_detection = Ok true
  /\ Detector.checkMetadata opaque_agent_request default_detection
     = Throw to_primitive_error.
Proof.
  split.
  - apply (proj1 (DetectorCoverage.metadata_presence_matches
                    null_flag_request presence_detection
                    [("claude_request", JNull)] "claude_request" JNull
                    eq_refl eq_refl eq_refl eq_refl eq_refl)).
    reflexivity.
  - apply (proj2 (proj2 (DetectorCoverage.metadata_presence_matches
                           opaque_agent_request default_detection
                           [("agent", JObj [("toString", JStr "claude-code")])] "agent"
                           (JObj [("toString", JStr "claude-code")])
                           eq_refl eq_refl eq_refl eq_refl eq_refl)
                        "claude-code" eq_refl eq_refl)).
    reflexivity.
Defined.

(** *** Responses and configuration *)


Lemma validators_agree_witness :
  is_valid (validateAugmentConfig (full invalid_config)) =
    success (validateConfig invalid_config)
  /\ List.length (errors (validateAugmentConfig (full invalid_config)))
     = List.length (violations invalid_config).
Proof.
  apply (proj2 (IndexCoverage.validators_agree invalid_config)). reflexivity.
Defined.

End CoverageInstances.
